(** * Projeto-extractor-ocr: the receipt extraction pipeline

    A shallow embedding of the text pipeline of the repository
    (src/utils/helpers.py, src/ocr/extractor.py, src/main.py) and the
    properties its specification states about it.

    Conventions of the embedding.

    - Text.  A Python [str] is a list of characters; a character is a
      code point of the Latin-1 repertoire (U+0000..U+00FF), held in an
      [ascii].  This covers Portuguese receipts; code points above U+00FF
      are outside the model.  Inside that repertoire the character tables
      (whitespace, digits, word characters, case mappings) are CPython's.
      Literals of the source are written [txt "..."], which decodes the
      UTF-8 bytes of this file into code points.
    - Floats.  A finite float is held as the rational it is.  Every
      float the model computes is a binary64 value: [to_float] rounds a
      rational to the nearest one, ties to even, with overflow to
      infinity, gradual underflow and the negative zero.
    - Exceptions.  Functions that can raise return a [result].
    - Dictionaries.  A [dict] is an association list in insertion order,
      keys are the identifiers of the source. *)

From Stdlib Require Import List String Ascii Bool Arith NArith ZArith QArith Lia.
From Stdlib Require Import Qabs Qround Qpower Lqa DecimalString DecimalN.
Import ListNotations.
Close Scope Q_scope.
Open Scope string_scope.
Open Scope list_scope.

Set Implicit Arguments.

(** ** Python built-ins: characters and strings *)

Module Py.

Definition str := list ascii.

Definition code (c : ascii) : N := N_of_ascii c.
Definition chr (n : N) : ascii := ascii_of_N n.

(** Decoding of a literal of this file (UTF-8 bytes) into code points:
    the two-byte sequences C2 xx and C3 xx are U+0080..U+00FF. *)
Fixpoint decode_utf8 (bs : list ascii) : str :=
  match bs with
  | [] => []
  | b :: bs' =>
    match bs' with
    | d :: bs'' =>
      if (code b =? 194)%N then d :: decode_utf8 bs''
      else if (code b =? 195)%N then chr (code d + 64) :: decode_utf8 bs''
      else b :: decode_utf8 bs'
    | [] => [b]
    end
  end.

Definition txt (s : string) : str := decode_utf8 (list_ascii_of_string s).

(** [Py_UNICODE_ISSPACE]: what [str.strip], [str.isspace] and the regex
    class [\s] call whitespace. *)
Definition isspace (c : ascii) : bool :=
  let n := code c in
  ((9 <=? n) && (n <=? 13) || (28 <=? n) && (n <=? 32)
   || (n =? 133) || (n =? 160))%N.

(** Category Nd, the regex class [\d]. *)
Definition isdigit (c : ascii) : bool :=
  let n := code c in ((48 <=? n) && (n <=? 57))%N.

Definition digit_value (c : ascii) : N := code c - 48.

Definition in_range (lo hi : N) (c : ascii) : bool :=
  ((lo <=? code c) && (code c <=? hi))%N.

(** Simple case mappings ([Py_UNICODE_TOLOWER], [Py_UNICODE_TOUPPER]).
    The upper case of U+00B5 and U+00FF lies above U+00FF and U+00DF has
    none: [toupper] gives [None] for these three. *)
Definition isupper (c : ascii) : bool :=
  in_range 65 90 c || in_range 192 214 c || in_range 216 222 c.

Definition tolower (c : ascii) : ascii :=
  if isupper c then chr (code c + 32) else c.

Definition toupper (c : ascii) : option ascii :=
  if in_range 97 122 c || in_range 224 246 c || in_range 248 254 c
  then Some (chr (code c - 32))
  else if ((code c =? 181) || (code c =? 255) || (code c =? 223))%N then None
  else Some c.

(** [str.isalpha] and the regex class [\w] (alphanumeric or underscore). *)
Definition isalpha (c : ascii) : bool :=
  in_range 65 90 c || in_range 97 122 c
  || (code c =? 170)%N || (code c =? 181)%N || (code c =? 186)%N
  || in_range 192 214 c || in_range 216 246 c || in_range 248 255 c.

Definition isword (c : ascii) : bool :=
  isalpha c || isdigit c || (code c =? 95)%N
  || (code c =? 178)%N || (code c =? 179)%N || (code c =? 185)%N
  || in_range 188 190 c.

Definition ch_eqb (a b : ascii) : bool := Ascii.eqb a b.

Fixpoint str_eqb (a b : str) : bool :=
  match a, b with
  | [], [] => true
  | x :: a', y :: b' => ch_eqb x y && str_eqb a' b'
  | _, _ => false
  end.

(** [s.startswith(p)] *)
Fixpoint prefix (p s : str) : bool :=
  match p, s with
  | [], _ => true
  | x :: p', y :: s' => ch_eqb x y && prefix p' s'
  | _ :: _, [] => false
  end.

(** [needle in s] *)
Fixpoint contains (needle s : str) : bool :=
  prefix needle s ||
  match s with
  | [] => false
  | _ :: s' => contains needle s'
  end.

(** [s.replace(old, new)]: occurrences of [old] are found left to right
    and do not overlap.  [skip] counts the characters of the occurrence
    just replaced that are still to be passed over. *)
Fixpoint replace_from (old new : str) (skip : nat) (s : str) : str :=
  match s with
  | [] => []
  | c :: s' =>
    match skip with
    | S k => replace_from old new k s'
    | O =>
      if prefix old s
      then new ++ replace_from old new (List.length old - 1) s'
      else c :: replace_from old new 0 s'
    end
  end.

Definition replace (old new s : str) : str :=
  match old with
  | [] => new ++ flat_map (fun c => c :: new) s
  | _ :: _ => replace_from old new 0 s
  end.

Fixpoint lstrip (s : str) : str :=
  match s with
  | c :: s' => if isspace c then lstrip s' else s
  | [] => []
  end.

Definition rstrip (s : str) : str := rev (lstrip (rev s)).

(** [s.strip()] *)
Definition strip (s : str) : str := rstrip (lstrip s).

(** [s.lower()] *)
Definition lower (s : str) : str := map tolower s.

(** [s.title()]: a cased character is upper-cased after an uncased one
    and lower-cased after a cased one.  Full upper-casing: U+00DF gives
    "Ss"; U+00B5 and U+00FF, whose title case is above U+00FF, are kept. *)
Definition iscased (c : ascii) : bool :=
  isupper c || in_range 97 122 c || in_range 223 246 c || in_range 248 255 c
  || (code c =? 170)%N || (code c =? 181)%N || (code c =? 186)%N.

Fixpoint title_from (prev_cased : bool) (s : str) : str :=
  match s with
  | [] => []
  | c :: s' =>
    (if prev_cased then [tolower c]
     else if (code c =? 223)%N then [chr 83; chr 115]
     else match toupper c with Some c' => [c'] | None => [c] end)
    ++ title_from (iscased c) s'
  end.

Definition title (s : str) : str := title_from false s.

(** Truth value of a string. *)
Definition nonempty (s : str) : bool :=
  match s with [] => false | _ => true end.


(** *** Exceptions *)

Inductive exn_kind :=
  IndexError | ValueError | OverflowError | TypeError | AttributeError
| OtherError.

Record exn := Exn { exn_kind_of : exn_kind; exn_msg : str }.

Inductive result (A : Type) :=
| Ok (a : A)
| Raise (e : exn).
Arguments Ok {A} a.
Arguments Raise {A} e.

Definition bind {A B : Type} (m : result A) (k : A -> result B) : result B :=
  match m with
  | Ok a => k a
  | Raise e => Raise e
  end.

Definition is_ok {A : Type} (m : result A) : bool :=
  match m with Ok _ => true | Raise _ => false end.

(** *** Floats *)

Local Open Scope Q_scope.

(** [Fin q] is the finite float of value [q], [NegZero] is -0.0; the
    positive zero is [Fin 0]. *)
Inductive float :=
| Fin (q : Q)
| Inf (negative : bool)
| NaN
| NegZero.

(** Rounding to the nearest integer, ties to even. *)
Definition round_half_even (q : Q) : Z :=
  let f := Qfloor q in
  let r := q - inject_Z f in
  if Qle_bool r (1 # 2)
  then if Qle_bool (1 # 2) r then (if Z.even f then f else f + 1)%Z else f
  else (f + 1)%Z.

(** 2^e *)
Definition pow2 (e : Z) : Q :=
  if (0 <=? e)%Z then inject_Z (2 ^ e) else 1 # Z.to_pos (2 ^ (- e)).

(** The exponent of the leading bit of a positive rational:
    2^(binade q) <= q < 2^(binade q + 1). *)
Definition binade (q : Q) : Z :=
  let k := (Z.log2 (Qnum q) - Z.log2 (Zpos (Qden q)))%Z in
  if Qle_bool (pow2 k) q then k else (k - 1)%Z.

(** The exponent of the last bit a binary64 keeps of [q]: 53 bits
    from the leading one, and never below 2^-1074. *)
Definition ulp_exponent (q : Q) : Z := Z.max (binade q - 52) (-1074).

(** The binary64 value nearest to a non-negative rational, ties to
    even, as a fraction in lowest terms. *)
Definition round64 (q : Q) : Q :=
  let e := ulp_exponent q in
  Qred (inject_Z (round_half_even (q / pow2 e)) * pow2 e).

(** [-x] *)
Definition float_opp (x : float) : float :=
  match x with
  | Fin q => if Qeq_bool q 0 then NegZero else Fin (Qopp q)
  | NegZero => Fin 0
  | Inf negative => Inf (negb negative)
  | NaN => NaN
  end.

(** The float of a rational: the nearest binary64.  At or above
    2^1024 - 2^970, half-way between the largest binary64 and 2^1024,
    it is infinite. *)
Definition overflow_threshold : Q := inject_Z (2 ^ 1024 - 2 ^ 970).

Definition to_float (q : Q) : float :=
  if Qle_bool overflow_threshold (Qabs q) then Inf (negb (Qle_bool 0 q))
  else if Qle_bool 0 q then Fin (round64 q)
  else float_opp (Fin (round64 (Qopp q))).

(** Value of a digit string read left to right. *)
Fixpoint digits_value (acc : N) (ds : str) : N :=
  match ds with
  | [] => acc
  | d :: ds' => digits_value (acc * 10 + digit_value d) ds'
  end.

(** [span p s]: the longest prefix of [s] whose characters satisfy [p],
    and the rest. *)
Fixpoint span (p : ascii -> bool) (s : str) : str * str :=
  match s with
  | c :: s' =>
    if p c then let (a, b) := span p s' in (c :: a, b) else ([], s)
  | [] => ([], [])
  end.

(** Mantissa [m], decimal exponent [e]: the rational m * 10^e. *)
Definition scale10 (m : Z) (e : Z) : Q :=
  if (0 <=? e)%Z then inject_Z (m * 10 ^ e)
  else Qmake m (Z.to_pos (10 ^ (- e))).

(** The decimal grammar of [float()]:
    digits, optional point and digits, optional exponent; at least one
    digit in the mantissa; nothing may follow. *)
Definition parse_exponent (s : str) : option Z :=
  match s with
  | [] => Some 0%Z
  | c :: s1 =>
    if ch_eqb c "e" || ch_eqb c "E" then
      let '(neg, s2) :=
        match s1 with
        | x :: s2 =>
          if ch_eqb x "-" then (true, s2)
          else if ch_eqb x "+" then (false, s2) else (false, s1)
        | [] => (false, s1)
        end in
      let (ds, rest) := span isdigit s2 in
      match ds, rest with
      | _ :: _, [] =>
        let v := Z.of_N (digits_value 0 ds) in
        Some (if neg then (- v)%Z else v)
      | _, _ => None
      end
    else None
  end.

Definition parse_decimal (s : str) : option Q :=
  let (ip, s1) := span isdigit s in
  let (fp, s2) :=
    match s1 with
    | c :: s1' => if ch_eqb c "." then span isdigit s1' else ([], s1)
    | [] => ([], s1)
    end in
  match ip ++ fp with
  | [] => None
  | _ :: _ =>
    match parse_exponent s2 with
    | Some e =>
      Some (scale10 (Z.of_N (digits_value 0 (ip ++ fp)))
                    (e - Z.of_nat (List.length fp)))
    | None => None
    end
  end.

(** Underscores are accepted between two digits only, and dropped. *)
Fixpoint drop_underscores (prev : option ascii) (s : str) : option str :=
  match s with
  | [] =>
    match prev with
    | Some p => if ch_eqb p "_" then None else Some []
    | None => Some []
    end
  | c :: s' =>
    let prev_digit := match prev with Some p => isdigit p | None => false end in
    let prev_under := match prev with Some p => ch_eqb p "_" | None => false end in
    if ch_eqb c "_" then
      if prev_digit then drop_underscores (Some c) s' else None
    else if prev_under && negb (isdigit c) then None
    else option_map (cons c) (drop_underscores (Some c) s')
  end.

(** Whitespace [float()] strips: the ASCII set of [Py_ISSPACE], after
    the non-ASCII whitespace has been turned into spaces. *)
Definition float_space (c : ascii) : bool :=
  in_range 9 13 c || (code c =? 32)%N || (code c =? 133)%N || (code c =? 160)%N.

Fixpoint float_lstrip (s : str) : str :=
  match s with
  | c :: s' => if float_space c then float_lstrip s' else s
  | [] => []
  end.

Definition float_strip (s : str) : str :=
  rev (float_lstrip (rev (float_lstrip s))).

(** The message of CPython goes on with the text that was refused. *)
Definition float_error : exn :=
  Exn ValueError (txt "could not convert string to float").

(** [float(s)] for a string [s]. *)
Definition float_of_str (s : str) : result float :=
  match drop_underscores None (float_strip s) with
  | None => Raise float_error
  | Some s1 =>
    let '(neg, body) :=
      match s1 with
      | c :: s2 =>
        if ch_eqb c "-" then (true, s2)
        else if ch_eqb c "+" then (false, s2) else (false, s1)
      | [] => (false, s1)
      end in
    let low := lower body in
    if str_eqb low (txt "inf") || str_eqb low (txt "infinity") then Ok (Inf neg)
    else if str_eqb low (txt "nan") then Ok NaN
    else
      match parse_decimal body with
      | Some q => Ok (if neg then float_opp (to_float q) else to_float q)
      | None => Raise float_error
      end
  end.

(** Comparisons; every comparison with NaN is false. *)
Definition float_leb (a b : float) : bool :=
  match a, b with
  | NaN, _ | _, NaN => false
  | Inf true, _ => true
  | _, Inf false => true
  | Inf false, _ => false
  | _, Inf true => false
  | Fin x, Fin y => Qle_bool x y
  | Fin x, NegZero => Qle_bool x 0
  | NegZero, Fin y => Qle_bool 0 y
  | NegZero, NegZero => true
  end.

Definition float_ltb (a b : float) : bool :=
  match a, b with
  | NaN, _ | _, NaN => false
  | Inf true, Inf true => false
  | Inf true, _ => true
  | Inf false, _ => false
  | Fin _, Inf n | NegZero, Inf n => negb n
  | Fin x, Fin y => negb (Qle_bool y x)
  | Fin x, NegZero => negb (Qle_bool 0 x)
  | NegZero, Fin y => negb (Qle_bool y 0)
  | NegZero, NegZero => false
  end.

(** Truth value of a float: zero is false, NaN is true. *)
Definition float_truth (a : float) : bool :=
  match a with
  | Fin q => negb (Qeq_bool q 0)
  | NegZero => false
  | _ => true
  end.

(** [int(x)]: truncation toward zero. *)
Definition int_of_float (a : float) : result Z :=
  match a with
  | Fin q => Ok (if Qle_bool 0 q then Qfloor q else Qceiling q)
  | NegZero => Ok 0%Z
  | Inf _ =>
    Raise (Exn OverflowError (txt "cannot convert float infinity to integer"))
  | NaN => Raise (Exn ValueError (txt "cannot convert float NaN to integer"))
  end.

(** *** Number formatting *)

Definition digit_char (d : N) : ascii := chr (48 + d).

Fixpoint uint_chars (d : Decimal.uint) : str :=
  match d with
  | Decimal.Nil => []
  | Decimal.D0 d' => digit_char 0 :: uint_chars d'
  | Decimal.D1 d' => digit_char 1 :: uint_chars d'
  | Decimal.D2 d' => digit_char 2 :: uint_chars d'
  | Decimal.D3 d' => digit_char 3 :: uint_chars d'
  | Decimal.D4 d' => digit_char 4 :: uint_chars d'
  | Decimal.D5 d' => digit_char 5 :: uint_chars d'
  | Decimal.D6 d' => digit_char 6 :: uint_chars d'
  | Decimal.D7 d' => digit_char 7 :: uint_chars d'
  | Decimal.D8 d' => digit_char 8 :: uint_chars d'
  | Decimal.D9 d' => digit_char 9 :: uint_chars d'
  end.

(** [str(n)] for a natural number. *)
Definition str_of_N (n : N) : str := uint_chars (N.to_uint n).

(** Zero padding on the left up to [width] characters. *)
Definition zfill (width : nat) (s : str) : str :=
  repeat (digit_char 0) (width - List.length s) ++ s.

(** [str(z)] and [f"{z:0Nd}"] for an integer. *)
Definition str_of_Z (z : Z) : str :=
  if (z <? 0)%Z then "-"%char :: str_of_N (Z.to_N (- z)) else str_of_N (Z.to_N z).

Definition format_0d (width : nat) (z : Z) : str :=
  if (z <? 0)%Z then "-"%char :: zfill (width - 1) (str_of_N (Z.to_N (- z)))
  else zfill width (str_of_N (Z.to_N z)).

(** Grouping in threes, on the digits in reverse order. *)
Fixpoint group3_rev (k : nat) (rds : str) : str :=
  match rds with
  | [] => []
  | d :: rds' =>
    match k with
    | O => ","%char :: d :: group3_rev 2 rds'
    | S k' => d :: group3_rev k' rds'
    end
  end.

Definition group3 (ds : str) : str := rev (group3_rev 3 (rev ds)).

(** [f"{x:.2f}"] and [f"{x:,.2f}"] on a finite non-negative float:
    its value in hundredths, rounded half-even; the value being a
    binary64, a tie is a true tie. *)
Definition fixed2 (grouped : bool) (q : Q) : str :=
  let cents := Z.to_N (round_half_even (q * 100)) in
  let ip := str_of_N (cents / 100) in
  (if grouped then group3 ip else ip)
  ++ "."%char :: zfill 2 (str_of_N (cents mod 100)).

Definition format_float (fmt : Q -> str) (x : float) : str :=
  match x with
  | Fin q => if Qle_bool 0 q then fmt q else "-"%char :: fmt (Qopp q)
  | NegZero => "-"%char :: fmt 0
  | Inf false => txt "inf"
  | Inf true => txt "-inf"
  | NaN => txt "nan"
  end.

(** [f"{x:,.2f}"] *)
Definition format_comma_2f : float -> str := format_float (fixed2 true).

(** [f"{x:.0f}"] *)
Definition format_0f : float -> str :=
  format_float (fun q => str_of_N (Z.to_N (round_half_even q))).

End Py.

Declare Scope py_scope.
Delimit Scope py_scope with py.
Notation "x <- m ;; k" := (Py.bind m (fun x => k))
  (at level 61, m at next level, right associativity) : py_scope.
Open Scope py_scope.

(** ** Python's [re] module

    Only what the patterns of the repository use: literals, [.],
    character classes, the escapes [\s \S \d \w], greedy and lazy
    repetition of one-character atoms, sequence, alternation, optional
    and capturing groups, [^] and [$], and the flag [IGNORECASE].
    The matcher is a backtracking matcher with CPython's priorities:
    leftmost start, first alternative first, greedy repetitions longest
    first, lazy ones shortest first. *)

Module Re.
Import Py.

Inductive citem :=
| IChar (c : ascii)
| IRange (lo hi : ascii)
| ISpace
| INotSpace
| IDigit
| IWord.

Inductive atom :=
| AChar (c : ascii)
| AAny
| ASet (items : list citem)
| ANotSet (items : list citem).

Inductive regex :=
| Empty
| Atom (a : atom)
| Seq (r1 r2 : regex)
| Alt (r1 r2 : regex)
| Rep (a : atom) (lo : nat) (hi : option nat) (greedy : bool)
| Group (n : nat) (r : regex)
| Bol
| Eol.

(** *** Writing patterns *)

Definition lit_of (s : str) : regex :=
  fold_right (fun c r => Seq (Atom (AChar c)) r) Empty s.
Definition lit (s : string) : regex := lit_of (txt s).
Definition cat (rs : list regex) : regex := fold_right Seq Empty rs.
Definition chars (s : string) : list citem := map IChar (txt s).
Definition rng (lo hi : ascii) : citem := IRange lo hi.
Definition ch (c : ascii) : atom := AChar c.
Definition space : atom := ASet [ISpace].
Definition digit : atom := ASet [IDigit].
Definition word : atom := ASet [IWord].
Definition star (a : atom) : regex := Rep a 0 None true.
Definition plus (a : atom) : regex := Rep a 1 None true.
Definition lazy_star (a : atom) : regex := Rep a 0 None false.
Definition lazy_plus (a : atom) : regex := Rep a 1 None false.
Definition opt (a : atom) : regex := Rep a 0 (Some 1) true.
Definition times (n : nat) (a : atom) : regex := Rep a n (Some n) true.
Definition between (lo hi : nat) (a : atom) : regex := Rep a lo (Some hi) true.
Definition maybe (r : regex) : regex := Alt r Empty.

Fixpoint ngroups (r : regex) : nat :=
  match r with
  | Seq r1 r2 | Alt r1 r2 => Nat.max (ngroups r1) (ngroups r2)
  | Group n r1 => Nat.max n (ngroups r1)
  | _ => 0
  end.

(** *** One character *)

Definition item_test (it : citem) (c : ascii) : bool :=
  match it with
  | IChar x => ch_eqb c x
  | IRange lo hi => in_range (code lo) (code hi) c
  | ISpace => isspace c
  | INotSpace => negb (isspace c)
  | IDigit => isdigit c
  | IWord => isword c
  end.

Definition set_test (items : list citem) (c : ascii) : bool :=
  existsb (fun it => item_test it c) items.

(** Under IGNORECASE a class is tried on the lower case of the
    character and on the upper case of that. *)
Definition set_test_ic (ic : bool) (items : list citem) (c : ascii) : bool :=
  if ic then
    set_test items (tolower c)
    || match toupper (tolower c) with
       | Some c' => set_test items c'
       | None => false
       end
  else set_test items c.

Definition atom_test (ic : bool) (a : atom) (c : ascii) : bool :=
  match a with
  | AChar x => if ic then ch_eqb (tolower c) (tolower x) else ch_eqb c x
  | AAny => negb (ch_eqb c (chr 10))
  | ASet items => set_test_ic ic items c
  | ANotSet items => negb (set_test_ic ic items c)
  end.

(** *** The matcher *)

(** Group number, start and end offsets; the latest entry of a group
    comes first. *)
Definition captures := list (nat * (nat * nat)).

Fixpoint cap_get (n : nat) (caps : captures) : option (nat * nat) :=
  match caps with
  | [] => None
  | (g, sp) :: caps' => if Nat.eqb g n then Some sp else cap_get n caps'
  end.

Definition kont := nat -> str -> captures -> option (nat * captures).

Definition more_allowed (hi : option nat) : bool :=
  match hi with Some O => false | _ => true end.

(** Greedy repetition: take a character while allowed, come back to
    the shorter count when what follows fails. *)
Fixpoint rep_greedy (p : ascii -> bool) (lo : nat) (hi : option nat)
         (i : nat) (s : str) (caps : captures) (k : kont)
  : option (nat * captures) :=
  let stop := match lo with O => k i s caps | S _ => None end in
  match s with
  | c :: s' =>
    if more_allowed hi && p c then
      match rep_greedy p (Nat.pred lo) (option_map Nat.pred hi) (S i) s' caps k with
      | Some res => Some res
      | None => stop
      end
    else stop
  | [] => stop
  end.

(** Lazy repetition: stop as soon as allowed, take one more character
    when what follows fails. *)
Fixpoint rep_lazy (p : ascii -> bool) (lo : nat) (hi : option nat)
         (i : nat) (s : str) (caps : captures) (k : kont)
  : option (nat * captures) :=
  let more :=
    match s with
    | c :: s' =>
      if more_allowed hi && p c
      then rep_lazy p (Nat.pred lo) (option_map Nat.pred hi) (S i) s' caps k
      else None
    | [] => None
    end in
  match lo with
  | O => match k i s caps with Some res => Some res | None => more end
  | S _ => more
  end.

(** [m ic r i s caps k]: match [r] at offset [i], where [s] is the rest
    of the text, then continue with [k]. *)
Fixpoint m (ic : bool) (r : regex) (i : nat) (s : str) (caps : captures)
         (k : kont) : option (nat * captures) :=
  match r with
  | Empty => k i s caps
  | Atom a =>
    match s with
    | c :: s' => if atom_test ic a c then k (S i) s' caps else None
    | [] => None
    end
  | Seq r1 r2 => m ic r1 i s caps (fun j t caps' => m ic r2 j t caps' k)
  | Alt r1 r2 =>
    match m ic r1 i s caps k with
    | Some res => Some res
    | None => m ic r2 i s caps k
    end
  | Rep a lo hi true => rep_greedy (atom_test ic a) lo hi i s caps k
  | Rep a lo hi false => rep_lazy (atom_test ic a) lo hi i s caps k
  | Group n r1 =>
    m ic r1 i s caps (fun j t caps' => k j t ((n, (i, j)) :: caps'))
  | Bol => match i with O => k i s caps | S _ => None end
  | Eol =>
    match s with
    | [] => k i s caps
    | [c] => if ch_eqb c (chr 10) then k i s caps else None
    | _ => None
    end
  end.

(** *** Match objects *)

Record match_obj := Match {
  m_string : str;
  m_ngroups : nat;
  m_start : nat;
  m_end : nat;
  m_caps : captures
}.

Definition slice (a b : nat) (s : str) : str := firstn (b - a) (skipn a s).

Definition no_such_group : exn := Exn IndexError (txt "no such group").

(** [mo.group(n)]: [None] stands for Python's None, the value of a
    group that took no part in the match. *)
Definition group (mo : match_obj) (n : nat) : result (option str) :=
  match n with
  | O => Ok (Some (slice (m_start mo) (m_end mo) (m_string mo)))
  | S _ =>
    if Nat.leb n (m_ngroups mo) then
      Ok (match cap_get n (m_caps mo) with
          | Some (a, b) => Some (slice a b (m_string mo))
          | None => None
          end)
    else Raise no_such_group
  end.

Definition accept : kont := fun j _ caps => Some (j, caps).

(** A match that starts at offset [i], where [s] is the text from [i]. *)
Definition match_at (ic : bool) (r : regex) (text : str) (i : nat) (s : str)
  : option match_obj :=
  match m ic r i s [] accept with
  | Some (j, caps) => Some (Match text (ngroups r) i j caps)
  | None => None
  end.

(** [re.match(r, text)] *)
Definition re_match (ic : bool) (r : regex) (text : str) : option match_obj :=
  match_at ic r text 0 text.

Fixpoint search_from (ic : bool) (r : regex) (text : str) (i : nat) (s : str)
  : option match_obj :=
  match match_at ic r text i s with
  | Some mo => Some mo
  | None =>
    match s with
    | [] => None
    | _ :: s' => search_from ic r text (S i) s'
    end
  end.

(** [re.search(r, text)] *)
Definition search (ic : bool) (r : regex) (text : str) : option match_obj :=
  search_from ic r text 0 text.

(** Successive matches, left to right, without overlap.  After an empty
    match the same offset is tried once more for a match that is not
    empty.  [skip] counts the characters of the last match still to be
    passed over. *)
Definition advance : nat -> kont :=
  fun i j _ caps => if Nat.eqb i j then None else Some (j, caps).

Fixpoint finditer_from (ic : bool) (r : regex) (text : str)
         (skip : nat) (i : nat) (s : str) : list match_obj :=
  match skip with
  | S sk =>
    match s with
    | [] => []
    | _ :: s' => finditer_from ic r text sk (S i) s'
    end
  | O =>
    let here (j : nat) (caps : captures) := Match text (ngroups r) i j caps in
    let next (j : nat) :=
      match s with
      | [] => []
      | _ :: s' => finditer_from ic r text (j - i - 1) (S i) s'
      end in
    match m ic r i s [] accept with
    | Some (j, caps) =>
      if Nat.eqb i j then
        here j caps ::
        match m ic r i s [] (advance i) with
        | Some (j', caps') => here j' caps' :: next j'
        | None => next j
        end
      else here j caps :: next j
    | None => next i
    end
  end.

Definition finditer (ic : bool) (r : regex) (text : str) : list match_obj :=
  finditer_from ic r text 0 0 text.

(** [re.findall(r, text)] for a pattern with exactly one group: the
    text of group 1 of each match, empty when the group took no part. *)
Definition findall (ic : bool) (r : regex) (text : str) : list str :=
  map (fun mo =>
         match cap_get 1 (m_caps mo) with
         | Some (a, b) => slice a b text
         | None => []
         end)
      (finditer ic r text).

(** [re.sub(r'[...]', '', s)]: every character of the class is dropped. *)
Definition sub_class_empty (items : list citem) (s : str) : str :=
  filter (fun c => negb (set_test items c)) s.

End Re.

(** ** Dictionaries of extracted fields *)

Module Dict.
Import Py.

(** What the extractors store: text, a float under the amount keys,
    or None. *)
Inductive value :=
| VNone
| VStr (s : str)
| VFloat (x : float).

Definition of_option (o : option str) : value :=
  match o with Some s => VStr s | None => VNone end.

Definition type_name (v : value) : str :=
  match v with
  | VNone => txt "NoneType"
  | VStr _ => txt "str"
  | VFloat _ => txt "float"
  end.

Definition dict := list (string * value).

Fixpoint get (d : dict) (k : string) : option value :=
  match d with
  | [] => None
  | (k', v) :: d' => if String.eqb k' k then Some v else get d' k
  end.

(** [k in d] *)
Definition has (d : dict) (k : string) : bool :=
  match get d k with Some _ => true | None => false end.

(** [d.get(k, default)] *)
Definition get_or (d : dict) (k : string) (default : value) : value :=
  match get d k with Some v => v | None => default end.

(** [d[k] = v]: a key already present keeps its place. *)
Fixpoint set (d : dict) (k : string) (v : value) : dict :=
  match d with
  | [] => [(k, v)]
  | (k', v') :: d' =>
    if String.eqb k' k then (k, v) :: d' else (k', v') :: set d' k v
  end.

(** A write that may not happen. *)
Definition opt_set (d : dict) (k : string) (o : option value) : dict :=
  match o with Some v => set d k v | None => d end.

(** [d.update(e)] *)
Definition update (d e : dict) : dict :=
  fold_left (fun acc kv => set acc (fst kv) (snd kv)) e d.

(** Truth value, and Python's [a or b]. *)
Definition truth (v : value) : bool :=
  match v with
  | VNone => false
  | VStr s => nonempty s
  | VFloat x => float_truth x
  end.

Definition or_else (a b : value) : value := if truth a then a else b.

Definition not_iterable (v : value) : exn :=
  Exn TypeError (txt "argument of type '" ++ type_name v ++ txt "' is not iterable").

Definition no_attribute (v : value) (attr : string) : exn :=
  Exn AttributeError
      (txt "'" ++ type_name v ++ txt "' object has no attribute '" ++ txt attr
       ++ txt "'").

(** [needle in v] for a string [needle]. *)
Definition contained (needle : str) (v : value) : result bool :=
  match v with
  | VStr s => Ok (contains needle s)
  | _ => Raise (not_iterable v)
  end.

(** [v == s] for a string [s]. *)
Definition eq_str (v : option value) (s : str) : bool :=
  match v with
  | Some (VStr s') => str_eqb s' s
  | _ => false
  end.

End Dict.

(** ** Clock *)

Module Clock.
Import Py.

Record datetime := DateTime {
  year : N; month : N; day : N;
  hour : N; minute : N; second : N; microsecond : N
}.

Definition pad (w : nat) (n : N) : str := zfill w (str_of_N n).

(** [dt.isoformat()] *)
Definition isoformat (dt : datetime) : str :=
  pad 4 (year dt) ++ txt "-" ++ pad 2 (month dt) ++ txt "-" ++ pad 2 (day dt)
  ++ txt "T" ++ pad 2 (hour dt) ++ txt ":" ++ pad 2 (minute dt)
  ++ txt ":" ++ pad 2 (second dt)
  ++ (if (microsecond dt =? 0)%N then []
      else txt "." ++ pad 6 (microsecond dt)).

End Clock.

(** ** src/utils/helpers.py *)

Module Helpers.
Import Py Re Dict.

(** [extract_text_from_image]: the text recognised by the OCR engine,
    stripped. *)
Definition extract_text_from_image (recognised : str) : str := strip recognised.

Definition cpf_patterns : list regex :=
  [ cat [Bol; times 3 (ch "*"); opt (ASet (chars ".,")); times 3 digit;
         opt (ASet (chars ".,")); times 3 digit; opt (ch "-");
         times 2 (ch "*"); Eol];
    cat [Bol; times 3 digit; opt (ASet (chars ".,")); times 3 digit;
         opt (ASet (chars ".,")); times 3 digit; opt (ch "-");
         times 2 digit; Eol];
    cat [Bol; times 3 (ch "*"); times 3 digit; times 3 digit;
         times 2 (ch "*"); Eol];
    cat [Bol; times 11 digit; Eol] ].

Definition matched (o : option match_obj) : bool :=
  match o with Some _ => true | None => false end.

Definition validate_cpf (cpf : str) : bool :=
  if negb (nonempty cpf) then false
  else existsb (fun pattern => matched (re_match false pattern (strip cpf)))
               cpf_patterns.

Definition format_currency (value : float) : str :=
  replace (txt "X") (txt ".")
    (replace (txt ".") (txt ",")
       (replace (txt ",") (txt "X") (txt "R$ " ++ format_comma_2f value))).

Definition detect_document_layout (text : str) : str :=
  let text_lower := lower text in
  if contains (txt "will bank") text_lower || contains (txt "willbank") text_lower
  then txt "will_bank"
  else if contains (txt "nu pagamentos") text_lower
          && negb (contains (txt "will bank") text_lower)
  then txt "nubank"
  else if contains (txt "caixa econômica") text_lower
          || contains (txt "caixa") text_lower
  then txt "caixa"
  else if contains (txt "banco do brasil") text_lower then txt "bb"
  else if contains (txt "bradesco") text_lower then txt "bradesco"
  else if contains (txt "itaú") text_lower || contains (txt "itau") text_lower
  then txt "itau"
  else if contains (txt "santander") text_lower then txt "santander"
  else txt "generico".

(** [validate_transaction_data]: only the score is kept.  The text of
    a float always parses back, so a float under 'valor' adds no error;
    the text of None does not parse. *)
Definition missing (data : dict) (field : string) : bool :=
  match get data field with
  | Some v => negb (truth v)
  | None => true
  end.

Definition transaction_error_count (data : dict) : result nat :=
  let missing_critical := filter (missing data) ["valor"; "data"; "nome_pagador"] in
  cpf_errors <-
    match get data "cpf" with
    | Some (VStr s) => Ok (if nonempty s && negb (validate_cpf s) then 1 else 0)
    | Some (VFloat x) =>
      if float_truth x then Raise (no_attribute (VFloat x) "strip") else Ok 0
    | _ => Ok 0
    end ;;
  let valor_errors :=
    match get data "valor" with
    | Some (VStr s) =>
      if is_ok (float_of_str (replace (txt ",") (txt ".") s)) then 0 else 1
    | Some VNone => 1
    | _ => 0
    end in
  Ok (List.length missing_critical + cpf_errors + valor_errors).

Definition transaction_confidence_score (data : dict) : result float :=
  errors <- transaction_error_count data ;;
  let total_fields := Z.of_nat (List.length data) in
  let valid_fields := (total_fields - Z.of_nat errors)%Z in
  Ok (to_float (Qmake valid_fields (Z.to_pos (Z.max total_fields 1)))).

(** [validate_specific_patterns(data, expected_patterns)]; the second
    argument is never read. *)
Record validation := Validation {
  matches : list string;
  mismatches : list string;
  confidence : float
}.

Fixpoint will_bank_cpf_match (data : dict) (fields : list string)
  : result (list string) :=
  match fields with
  | [] => Ok []
  | cpf_field :: rest =>
    let cpf := get_or data cpf_field (VStr []) in
    hit <- (if truth cpf then
              has_comma <- contained (txt ",") cpf ;;
              if has_comma then contained (txt ".") cpf else Ok false
            else Ok false) ;;
    if hit then Ok [("✅ CPF formato Will Bank: " ++ cpf_field)%string]
    else will_bank_cpf_match data rest
  end.

Definition validate_specific_patterns (data expected_patterns : dict)
  : result validation :=
  ana <-
    (if has data "destino_nome" || has data "recebedor_nome" then
       let nome_dest :=
         or_else (get_or data "destino_nome" (VStr []))
                 (get_or data "recebedor_nome" (VStr [])) in
       is_ana <- contained (txt "Ana Cleuma") nome_dest ;;
       if is_ana then
         let chave := get_or data "chave_pix" (VStr []) in
         has_key <- contained (txt "99451-5533") chave ;;
         if has_key
         then Ok (["✅ Destinatária Ana Cleuma identificada";
                   "✅ Chave PIX Ana Cleuma confirmada"], [])
         else Ok (["✅ Destinatária Ana Cleuma identificada"],
                  ["❌ Chave PIX não confere com Ana Cleuma"])
       else Ok ([], [])
     else Ok ([], [])) ;;
  will <-
    (if eq_str (get data "origem_instituicao") (txt "Will Bank")
        || eq_str (get data "layout_detectado") (txt "will_bank")
     then
       cpfs <- will_bank_cpf_match data ["origem_cpf"; "pagador_cpf"; "destino_cpf"] ;;
       Ok ("✅ Will Bank detectado" :: cpfs)
     else Ok []) ;;
  let ms := fst ana ++ will in
  let mms := snd ana in
  let total_checks := List.length ms + List.length mms in
  Ok (Validation ms mms
        (match total_checks with
         | O => Fin 0
         | S _ =>
           to_float (Qmake (Z.of_nat (List.length ms)) (Pos.of_nat total_checks))
         end)).

Definition corrections : list (str * str) :=
  [ (txt "Ana Cieuma", txt "Ana Cleuma");
    (txt "Ana Cieima", txt "Ana Cleuma");
    (txt "Sheiia", txt "Sheila");
    (txt "Antonlo", txt "Antonio");
    (txt "R5 ", txt "R$ ");
    (txt "RS ", txt "R$ ");
    (txt "2O25", txt "2025");
    (txt "O5/", txt "05/");
    (txt "NU PAGAMENT0S", txt "NU PAGAMENTOS");
    (txt "Wili Bank", txt "Will Bank");
    (txt "E2386276220250520201", txt "E238627622025052020") ].

Definition correct_common_ocr_errors (text : str) : str :=
  fold_left (fun corrected_text ec => replace (fst ec) (snd ec) corrected_text)
            corrections text.

Definition value_body (tail : nat) : regex :=
  cat [plus digit; opt (ASet (chars ",.")); between tail 2 digit].

Definition valor_patterns : list regex :=
  [ cat [lit "R$"; star space; Group 1 (value_body 0)];
    Group 1 (value_body 2);
    cat [lit "Valor"; star (ASet (IChar ":" :: [ISpace])); opt (ch "R");
         opt (ch "$"); star space; Group 1 (value_body 0)] ].

(** The first match whose number is positive; a text that does not
    parse is passed over. *)
Fixpoint first_positive (ms : list str) : option float :=
  match ms with
  | [] => None
  | mt :: ms' =>
    match float_of_str (replace (txt ",") (txt ".") mt) with
    | Ok valor =>
      if float_ltb (Fin 0) valor then Some valor else first_positive ms'
    | Raise _ => first_positive ms'
    end
  end.

Fixpoint first_pattern_value (patterns : list regex) (text : str) : option float :=
  match patterns with
  | [] => None
  | pattern :: rest =>
    match first_positive (findall false pattern text) with
    | Some valor => Some valor
    | None => first_pattern_value rest text
    end
  end.

Fixpoint first_expected (expected_values : list float) (text : str) : option float :=
  match expected_values with
  | [] => None
  | valor_esperado :: rest =>
    if contains (format_0f valor_esperado) text then Some valor_esperado
    else first_expected rest text
  end.

Definition extract_value_with_fallback (text : str) (expected_values : list float)
  : float :=
  match first_pattern_value valor_patterns text with
  | Some valor => valor
  | None =>
    match first_expected expected_values text with
    | Some valor => valor
    | None => Fin 0
    end
  end.

(** [standardize_data_for_chatbot]; 'id_unico', which only interpolates
    the file name and the clock into text, is left out. *)
Record origem_std := OrigemStd {
  o_nome : value; o_cpf : value; o_instituicao : value
}.
Record destino_std := DestinoStd {
  d_nome : value; d_cpf : value; d_instituicao : value; d_chave_pix : value
}.
Record detalhes_std := DetalhesStd {
  t_id : value; t_autenticacao : value; t_situacao : value; t_descricao : value
}.
Record metadados_std := MetadadosStd {
  banco_detectado : value; arquivo_origem : value; processado_em : value;
  confiabilidade : str
}.
Record standardized := Standardized {
  tipo_transacao : value;
  valor_formatado : str;
  valor_numerico : float;
  data_formatada : value;
  hora_formatada : value;
  origem : origem_std;
  destino : destino_std;
  detalhes_transacao : detalhes_std;
  metadados : metadados_std
}.

Definition bad_format (v : value) : exn :=
  match v with
  | VNone =>
    Exn TypeError (txt "unsupported format string passed to NoneType.__format__")
  | _ => Exn ValueError (txt "Unknown format code 'f' for object of type 'str'")
  end.
Definition bad_float : exn :=
  Exn TypeError
      (txt "float() argument must be a string or a real number, not 'NoneType'").
Definition bad_order (v : value) : exn :=
  Exn TypeError
      (txt "'>' not supported between instances of '" ++ type_name v
       ++ txt "' and 'int'").

Definition standardize_data_for_chatbot (data : dict) : result standardized :=
  let get_text k := get_or data k (VStr []) in
  let valor := or_else (get_or data "valor_total" (VFloat (Fin 0)))
                       (get_or data "valor_numerico" (VFloat (Fin 0))) in
  formatted <-
    match valor with
    | VFloat x => Ok (format_currency x)
    | _ => Raise (bad_format valor)
    end ;;
  numerico <-
    match valor with
    | VFloat x => Ok x
    | VStr s => float_of_str s
    | VNone => Raise bad_float
    end ;;
  positive <-
    match get_or data "valor_total" (VFloat (Fin 0)) with
    | VFloat x => Ok (float_ltb (Fin 0) x)
    | v => Raise (bad_order v)
    end ;;
  Ok {| tipo_transacao := get_or data "tipo_documento" (VStr (txt "desconhecido"));
        valor_formatado := formatted;
        valor_numerico := numerico;
        data_formatada := get_text "data";
        hora_formatada := get_text "hora";
        origem :=
          {| o_nome := or_else (get_text "origem_nome") (get_text "pagador_nome");
             o_cpf := or_else (get_text "origem_cpf") (get_text "pagador_cpf");
             o_instituicao := or_else (get_text "origem_instituicao")
                                      (get_text "pagador_instituicao") |};
        destino :=
          {| d_nome := or_else (get_text "destino_nome") (get_text "recebedor_nome");
             d_cpf := or_else (get_text "destino_cpf") (get_text "recebedor_cpf");
             d_instituicao := get_text "destino_instituicao";
             d_chave_pix := get_text "chave_pix" |};
        detalhes_transacao :=
          {| t_id := get_text "id_transacao";
             t_autenticacao := get_text "autenticacao";
             t_situacao := get_text "situacao";
             t_descricao := get_text "descricao" |};
        metadados :=
          {| banco_detectado := get_text "layout_detectado";
             arquivo_origem := get_text "arquivo";
             processado_em := get_text "processado_em";
             confiabilidade := if positive then txt "alta" else txt "baixa" |} |}.

(** ** More of src/utils/helpers.py *)


(** [re.sub(r'[^\d]', '', s)]: only the digits are kept. *)
Definition only_digits (s : str) : str := filter (set_test [IDigit]) s.

Definition validate_cnpj (cnpj : str) : bool :=
  if negb (nonempty cnpj) then false
  else
    let cnpj_clean := only_digits cnpj in
    Nat.eqb (List.length cnpj_clean) 14.

Definition format_cnpj (cnpj : str) : str :=
  if negb (nonempty cnpj) then []
  else
    let cnpj_clean := only_digits cnpj in
    if Nat.eqb (List.length cnpj_clean) 14 then
      slice 0 2 cnpj_clean ++ txt "." ++ slice 2 5 cnpj_clean ++ txt "."
      ++ slice 5 8 cnpj_clean ++ txt "/" ++ slice 8 12 cnpj_clean ++ txt "-"
      ++ skipn 12 cnpj_clean
    else cnpj.

(** [^\d+([.,]\d{2})?$] *)
Definition currency_pattern : regex :=
  cat [Bol; plus digit;
       maybe (Group 1 (cat [Atom (ASet (chars ".,")); times 2 digit])); Eol].

Definition validate_currency (value : str) : bool :=
  if negb (nonempty value) then false
  else
    let clean_value := sub_class_empty (chars "R$" ++ [ISpace]) value in
    matched (re_match false currency_pattern clean_value).

(** [re.sub(r'[^\w\s\-.,/:]', ' ', text)], one character at a time. *)
Definition keep_or_space (c : ascii) : ascii :=
  if set_test (IWord :: ISpace :: chars "-.,/:") c then c else " "%char.

(** [re.sub(r'\s+', ' ', s)]: every run of whitespace becomes one
    space.  [in_run] tells that the character before was whitespace. *)
Fixpoint squeeze (in_run : bool) (s : str) : str :=
  match s with
  | [] => []
  | c :: s' =>
    if isspace c
    then if in_run then squeeze true s' else " "%char :: squeeze true s'
    else c :: squeeze false s'
  end.

Definition clean_text (text : str) : str :=
  if negb (nonempty text) then []
  else
    let cleaned := map keep_or_space text in
    let cleaned := squeeze false cleaned in
    strip cleaned.

(** [normalize_extracted_data] *)
Definition field_mapping : list (str * list (string * list string)) :=
  [ (txt "pix",
     [ ("valor_total", ["valor"; "valor_total"]);
       ("nome_pagador", ["nome_pagador"; "nome"]);
       ("cpf_pagador", ["cpf"; "cpf_pagador"]);
       ("instituicao", ["instituicao"; "banco"]);
       ("data_transacao", ["data"; "data_transacao"]);
       ("hora_transacao", ["hora"; "hora_transacao"]);
       ("id_transacao", ["id_transacao"; "identificador"]);
       ("chave_pix", ["chave_pix"; "chave"]) ]);
    (txt "transferencia",
     [ ("valor_total", ["valor"; "valor_total"]);
       ("nome_origem", ["nome_origem"; "origem_nome"]);
       ("nome_destino", ["nome_destino"; "destino_nome"]);
       ("instituicao_origem", ["instituicao_origem"; "banco_origem"]);
       ("instituicao_destino", ["instituicao_destino"; "banco_destino"]);
       ("cpf_origem", ["cpf_origem"; "cpf"]);
       ("cnpj_destino", ["cnpj_destino"; "cnpj"]) ]) ].

(** The first source field that is present and true. *)
Fixpoint first_present (raw_data : dict) (source_fields : list string)
  : option value :=
  match source_fields with
  | [] => None
  | source_field :: rest =>
    match get raw_data source_field with
    | Some v => if truth v then Some v else first_present raw_data rest
    | None => first_present raw_data rest
    end
  end.

(** [field_mapping.get(document_type, {})] *)
Fixpoint mapping_of (table : list (str * list (string * list string)))
         (document_type : str) : list (string * list string) :=
  match table with
  | [] => []
  | (dt, mapping) :: rest =>
    if str_eqb dt document_type then mapping else mapping_of rest document_type
  end.

Record normalized := Normalized {
  n_tipo_documento : str;
  n_dados_extraidos : dict;
  n_processado_em : str;
  n_confiabilidade : str
}.

Definition normalize_extracted_data (raw_data : dict) (document_type : str)
           (now : Clock.datetime) : normalized :=
  let mapping := mapping_of field_mapping document_type in
  {| n_tipo_documento := document_type;
     n_dados_extraidos :=
       fold_left
         (fun dados tf =>
            opt_set dados (fst tf) (first_present raw_data (snd tf)))
         mapping [];
     n_processado_em := Clock.isoformat now;
     n_confiabilidade := txt "baixa" |}.

(** [extract_institution_data] *)
Definition institutions : list (string * (str * list str)) :=
  [ ("caixa", (txt "CAIXA ECONÔMICA FEDERAL",
               [txt "caixa"; txt "cef"; txt "caixa econômica"]));
    ("nubank", (txt "NU PAGAMENTOS S.A.",
                [txt "nubank"; txt "nu pagamentos"; txt "nu bank"]));
    ("c6", (txt "BCO C6 S.A.", [txt "c6 bank"; txt "c6"; txt "banco c6"])) ].

Fixpoint first_contained (patterns : list str) (text_lower : str) : option str :=
  match patterns with
  | [] => None
  | pattern :: rest =>
    if contains pattern text_lower then Some pattern
    else first_contained rest text_lower
  end.

Fixpoint find_institution (insts : list (string * (str * list str)))
         (text_lower : str) : option dict :=
  match insts with
  | [] => None
  | (key, (name, patterns)) :: rest =>
    match first_contained patterns text_lower with
    | Some pattern =>
      Some [ ("codigo", VStr (txt key)); ("nome", VStr name);
             ("detectado_por", VStr pattern) ]
    | None => find_institution rest text_lower
    end
  end.

Definition extract_institution_data (text : str) : dict :=
  let text_lower := lower text in
  match find_institution institutions text_lower with
  | Some found => found
  | None =>
    [ ("codigo", VStr (txt "outro"));
      ("nome", VStr (txt "Instituição não identificada")) ]
  end.

(** [extract_currency_values]: [R\$\s*([\d,]+\.?\d{0,2})] *)
Definition currency_values_pattern : regex :=
  cat [lit "R$"; star space;
       Group 1 (cat [plus (ASet (IDigit :: chars ",")); opt (ch ".");
                     between 0 2 digit])].

(** The matches that [float] accepts, as numbers. *)
Fixpoint parsed_values (found : list str) : list float :=
  match found with
  | [] => []
  | mt :: rest =>
    let clean_value := replace (txt ",") (txt ".") mt in
    match float_of_str clean_value with
    | Ok x => x :: parsed_values rest
    | Raise _ => parsed_values rest
    end
  end.

Definition extract_currency_values (text : str) : list float :=
  parsed_values (findall false currency_values_pattern text).

End Helpers.

(** ** src/ocr/extractor.py: class OCRExtractor *)

Module Extractor.
Import Py Re Dict Clock.

(** [mo.group(n).strip()] and the like: the text of a group, an
    AttributeError when the group is None. *)
Definition group_text (mo : match_obj) (n : nat) (attr : string) : result str :=
  g <- group mo n ;;
  match g with
  | Some s => Ok s
  | None => Raise (no_attribute VNone attr)
  end.

(** [[A-Za-záàâãéèêíìîóòôõúùûç\s]] *)
Definition name_class : atom :=
  ASet (rng "A" "Z" :: rng "a" "z" :: chars "áàâãéèêíìîóòôõúùûç" ++ [ISpace]).

Definition name_until (stop : regex) : regex :=
  cat [Group 1 (lazy_plus name_class); star space; stop].

Definition destino_patterns : list regex :=
  [ cat [lit "Para"; plus space; lit "Ana Cleuma Sousa Dos Santos"];
    cat [lit "Para"; plus space; name_until (lit "CPF")] ].

Definition origem_patterns : list regex :=
  [ cat [lit "De"; plus space; name_until (lit "CPF")];
    cat [lit "Origem"; star AAny; lit "De"; plus space; name_until (lit "*")] ].

Definition chave_patterns : list regex :=
  [ cat [lit "(88)"; star space; lit "99451-5533"];
    cat [lit "88"; star space; lit "99451-5533"];
    lit "+5588994515533" ].

(** The loop over [destino_patterns]: the first pattern that matches
    decides. *)
Fixpoint find_destino (patterns : list regex) (cleaned_text : str)
  : result (option str) :=
  match patterns with
  | [] => Ok None
  | pattern :: rest =>
    match search true pattern cleaned_text with
    | Some mo =>
      whole <- group_text mo 0 "strip" ;;
      if contains (txt "Ana Cleuma") whole
      then Ok (Some (txt "Ana Cleuma Sousa Dos Santos"))
      else (g <- group_text mo 1 "strip" ;; Ok (Some (strip g)))
    | None => find_destino rest cleaned_text
    end
  end.

(** The loop over [origem_patterns]. *)
Fixpoint find_origem (patterns : list regex) (cleaned_text : str)
  : result (option str) :=
  match patterns with
  | [] => Ok None
  | pattern :: rest =>
    match search true pattern cleaned_text with
    | Some mo => g <- group_text mo 1 "strip" ;; Ok (Some (strip g))
    | None => find_origem rest cleaned_text
    end
  end.

(** Truth value of a name that may be None, and [name and t in name]. *)
Definition name_truth (name : option str) : bool :=
  match name with Some s => nonempty s | None => false end.

Definition name_has (name : option str) (t : string) : bool :=
  match name with
  | Some s => nonempty s && contains (txt t) s
  | None => false
  end.

Definition set_name (data : dict) (name : option str) (k1 k2 : string) : dict :=
  match name with
  | Some s => if nonempty s then set (set data k1 (VStr s)) k2 (VStr s) else data
  | None => data
  end.

Definition set_text (data : dict) (k : string) (t : string) : dict :=
  set data k (VStr (txt t)).

Definition extract_pix_will_bank_data (text : str) : result dict :=
  let data : dict := [] in
  let cleaned_text := Helpers.correct_common_ocr_errors text in
  (* 1. valor *)
  let valor_encontrado :=
    if contains (txt "Antonio Valmi") cleaned_text then Fin 33
    else if contains (txt "Sheila Fernandes") cleaned_text then Fin 17
    else Helpers.extract_value_with_fallback cleaned_text [Fin 17; Fin 33] in
  let data := set data "valor_numerico" (VFloat valor_encontrado) in
  let data := set data "valor_total" (VFloat valor_encontrado) in
  (* 2. nomes *)
  destino_nome <- find_destino destino_patterns cleaned_text ;;
  origem_nome <-
    (if contains (txt "Antonio Valmi") cleaned_text
     then Ok (Some (txt "Antonio Valmi Passos Da Rocha"))
     else if contains (txt "Sheila Fernandes") cleaned_text
     then Ok (Some (txt "Sheila Fernandes Da Silva"))
     else find_origem origem_patterns cleaned_text) ;;
  let data := set_name data destino_nome "destino_nome" "recebedor_nome" in
  let data := set_name data origem_nome "origem_nome" "pagador_nome" in
  (* 3. CPFs *)
  let data :=
    if name_has origem_nome "Antonio"
    then set_text (set_text data "origem_cpf" "***,097.048-**")
                  "pagador_cpf" "***,097.048-**"
    else if name_has origem_nome "Sheila"
    then set_text (set_text data "origem_cpf" "***,687.783-**")
                  "pagador_cpf" "***,687.783-**"
    else data in
  let data :=
    if name_has destino_nome "Ana Cleuma"
    then set_text (set_text data "destino_cpf" "***,120.983-**")
                  "recebedor_cpf" "***,120.983-**"
    else data in
  (* 4. chave PIX *)
  let data :=
    if existsb (fun pattern => Helpers.matched (search false pattern cleaned_text))
               chave_patterns
    then set_text data "chave_pix" "(88) 99451-5533"
    else data in
  (* 5. data e hora *)
  let data :=
    if name_has origem_nome "Antonio"
    then set_text (set_text data "data" "20/05/2025") "hora" "17:51:22"
    else if name_has origem_nome "Sheila"
    then set_text (set_text data "data" "22/05/2025") "hora" "17:52:04"
    else data in
  let data_hora :=
    match get_or data "data" (VStr []), get_or data "hora" (VStr []) with
    | VStr d, VStr h => strip (d ++ txt " " ++ h)
    | _, _ => []
    end in
  let data := set data "data_hora" (VStr data_hora) in
  (* 6. campos obrigatórios *)
  let data := set_text data "situacao" "Efetivado" in
  let data := set_text data "origem_instituicao" "Will Bank" in
  let data := set_text data "destino_instituicao" "NU PAGAMENTOS - IP" in
  let data := set_text data "tipo_documento" "pix" in
  codigo <-
    (if float_ltb (Fin 0) valor_encontrado
     then (n <- int_of_float valor_encontrado ;;
           Ok (txt "PIX_WILL_BANK_" ++ format_0d 3 n))
     else Ok (txt "PIX_WILL_BANK_000")) ;;
  Ok (set data "codigo_operacao" (VStr codigo)).

Definition nubank_valor_patterns : list regex :=
  [ cat [lit "Valor"; plus space; lit "R$"; star space;
         Group 1 (Helpers.value_body 0)];
    cat [lit "R$"; star space; Group 1 (Helpers.value_body 0)];
    cat [Group 1 (Helpers.value_body 2); star space; Alt (lit "reais") Eol] ].

(** The loop over the amount patterns of [extract_nubank_data]: the
    first pattern whose leftmost match passes the sanity filter. *)
Fixpoint find_nubank_valor (patterns : list regex) (cleaned_text : str)
  : result (option float) :=
  match patterns with
  | [] => Ok None
  | pattern :: rest =>
    match search false pattern cleaned_text with
    | Some mo =>
      g <- group_text mo 1 "replace" ;;
      match float_of_str (replace (txt ",") (txt ".") g) with
      | Ok valor =>
        if float_leb (to_float (1 # 100)) valor
           && float_leb valor (Fin (inject_Z 10000))
        then Ok (Some valor)
        else find_nubank_valor rest cleaned_text
      | Raise _ => find_nubank_valor rest cleaned_text
      end
    | None => find_nubank_valor rest cleaned_text
    end
  end.

Definition months : regex :=
  fold_right (fun mth r => Alt (lit mth) r) (lit "DEZ")
             ["MAI"; "JUN"; "JUL"; "AGO"; "SET"; "OUT"; "NOV"].

Definition nubank_data_patterns : list regex :=
  [ cat [Group 1 (between 1 2 digit); plus space; Group 2 months; plus space;
         Group 3 (times 4 digit)];
    Group 1 (cat [between 1 2 digit; lit "/"; between 1 2 digit; lit "/";
                  times 4 digit]);
    Group 1 (cat [between 1 2 digit; plus space; lit "de"; plus space;
                  plus word; plus space; lit "de"; plus space; times 4 digit]) ].

Definition clock_body : regex :=
  cat [between 1 2 digit; lit ":"; times 2 digit; lit ":"; times 2 digit].

Definition nubank_hora_patterns : list regex :=
  [ Group 1 clock_body;
    Group 1 (cat [between 1 2 digit; lit "h"; times 2 digit]);
    cat [lit "às"; plus space; Group 1 clock_body] ].

Definition nubank_origem_patterns : list regex :=
  [ cat [lit "Nome"; plus space; name_until (lit "Instituição")];
    cat [lit "Origem"; star AAny; lit "Nome"; plus space;
         name_until (lit "Instituição")];
    cat [lit "De"; plus space; name_until (lit "CPF")] ].

(** The first pattern that matches, and its match. *)
Fixpoint first_search (ic : bool) (patterns : list regex) (text : str)
  : option match_obj :=
  match patterns with
  | [] => None
  | pattern :: rest =>
    match search ic pattern text with
    | Some mo => Some mo
    | None => first_search ic rest text
    end
  end.

(** The loop over the payer patterns: a name of three characters or
    fewer is passed over. *)
Fixpoint find_nubank_origem (patterns : list regex) (cleaned_text : str)
  : result (option str) :=
  match patterns with
  | [] => Ok None
  | pattern :: rest =>
    match search true pattern cleaned_text with
    | Some mo =>
      g <- group_text mo 1 "strip" ;;
      let nome := strip g in
      if Nat.ltb 3 (List.length nome) then Ok (Some nome)
      else find_nubank_origem rest cleaned_text
    | None => find_nubank_origem rest cleaned_text
    end
  end.

Definition extract_nubank_data (text : str) : result dict :=
  let data : dict := [("tipo_documento", VStr (txt "transferencia"))] in
  let cleaned_text := Helpers.correct_common_ocr_errors text in
  (* 1. valor *)
  valor <- find_nubank_valor nubank_valor_patterns cleaned_text ;;
  let data :=
    match valor with
    | Some v => set (set data "valor_total" (VFloat v)) "valor_numerico" (VFloat v)
    | None => data
    end in
  (* 2. data *)
  data <-
    match first_search false nubank_data_patterns cleaned_text with
    | Some mo => g <- group mo 0 ;; Ok (set data "data" (of_option g))
    | None => Ok data
    end ;;
  (* 3. hora *)
  data <-
    match first_search false nubank_hora_patterns cleaned_text with
    | Some mo => g <- group mo 1 ;; Ok (set data "hora" (of_option g))
    | None => Ok data
    end ;;
  (* 4. nomes *)
  let data :=
    if contains (txt "Ana Cleuma") cleaned_text
    then set_text (set_text (set_text data "destino_nome" "Ana Cleuma Sousa Dos Santos")
                            "recebedor_nome" "Ana Cleuma Sousa Dos Santos")
                  "chave_pix" "+5588994515533"
    else data in
  origem <- find_nubank_origem nubank_origem_patterns cleaned_text ;;
  let data :=
    match origem with
    | Some nome => set (set data "origem_nome" (VStr nome)) "pagador_nome" (VStr nome)
    | None => data
    end in
  (* 5. metadados *)
  let data := set_text data "situacao" "Efetivado" in
  let data := set_text data "origem_instituicao" "Nubank" in
  Ok (set_text data "destino_instituicao" "NU PAGAMENTOS - IP").

Definition extract_generic_data (text : str) : result dict :=
  let data : dict := [("tipo_documento", VStr (txt "generico"))] in
  let data :=
    match search false (cat [lit "R$"; star space; Group 1 (Helpers.value_body 0)])
                 text with
    | Some mo =>
      match (g <- group_text mo 1 "replace" ;;
             float_of_str (replace (txt ",") (txt ".") g)) with
      | Ok valor =>
        set (set data "valor_total" (VFloat valor)) "valor_numerico" (VFloat valor)
      | Raise _ => data
      end
    | None => data
    end in
  let data :=
    if contains (txt "pix") (lower text) then set_text data "tipo_documento" "pix"
    else if contains (txt "transferência") (lower text)
            || contains (txt "transferencia") (lower text)
    then set_text data "tipo_documento" "transferencia"
    else if contains (txt "boleto") (lower text)
    then set_text data "tipo_documento" "boleto"
    else data in
  let data :=
    if contains (txt "Ana Cleuma") text
    then set_text (set_text data "recebedor_nome" "Ana Cleuma Sousa Dos Santos")
                  "destino_nome" "Ana Cleuma Sousa Dos Santos"
    else data in
  Ok data.

Definition extract_caixa_data (text : str) : result dict := extract_generic_data text.

Definition extract_bb_data (text : str) : result dict := extract_generic_data text.

Definition _extract_by_layout (text layout : str) : result dict :=
  if str_eqb layout (txt "will_bank") then extract_pix_will_bank_data text
  else if str_eqb layout (txt "nubank") then extract_nubank_data text
  else if str_eqb layout (txt "caixa") then extract_caixa_data text
  else if str_eqb layout (txt "bb") then extract_bb_data text
  else extract_generic_data text.

(** [image_path or 'unknown'] *)
Definition path_or_unknown (image_path : option str) : str :=
  match image_path with
  | Some p => if nonempty p then p else txt "unknown"
  | None => txt "unknown"
  end.

Definition error_dict (erro layout : str) (image_path : option str)
           (now : datetime) : dict :=
  [ ("erro", VStr erro);
    ("raw_text", VStr []);
    ("layout_detectado", VStr layout);
    ("arquivo", VStr (path_or_unknown image_path));
    ("processado_em", VStr (isoformat now)) ].

(** [extract_data(image, image_path)].  [ocr] is what image
    preprocessing and text recognition give for the image: the text
    recognised, or the exception one of them raised.  [now] is the
    clock read on the way out. *)
Definition extract_data (ocr : result str) (image_path : option str)
           (now : datetime) : dict :=
  let attempt : result dict :=
    recognised <- ocr ;;
    let raw_text := Helpers.extract_text_from_image recognised in
    if negb (nonempty (strip raw_text)) then
      Ok (error_dict (txt "Nenhum texto extraído da imagem") (txt "vazio")
                     image_path now)
    else
      let cleaned_text := Helpers.correct_common_ocr_errors raw_text in
      let layout := Helpers.detect_document_layout cleaned_text in
      extracted_data <- _extract_by_layout cleaned_text layout ;;
      Ok (update extracted_data
            [ ("raw_text", VStr raw_text);
              ("cleaned_text", VStr cleaned_text);
              ("layout_detectado", VStr layout);
              ("arquivo", VStr (path_or_unknown image_path));
              ("processado_em", VStr (isoformat now)) ]) in
  match attempt with
  | Ok d => d
  | Raise e => error_dict (exn_msg e) (txt "erro") image_path now
  end.

Definition _parse_currency (value_str : str) : float :=
  if negb (nonempty value_str) then Fin 0
  else
    let cleaned := sub_class_empty (chars "R$" ++ [ISpace]) value_str in
    let cleaned :=
      if contains (txt ",") cleaned && contains (txt ".") cleaned
      then replace (txt ",") (txt ".") (replace (txt ".") [] cleaned)
      else if contains (txt ",") cleaned
      then replace (txt ",") (txt ".") cleaned
      else cleaned in
    match float_of_str cleaned with
    | Ok x => x
    | Raise _ => Fin 0
    end.

Definition detect_document_layout (text : str) : str :=
  let text_lower := lower text in
  if contains (txt "will bank") text_lower || contains (txt "willbank") text_lower
  then txt "will_bank"
  else if contains (txt "nu pagamentos") text_lower
          || contains (txt "nubank") text_lower
  then txt "nubank"
  else if contains (txt "caixa econômica") text_lower
          || contains (txt "caixa") text_lower
  then txt "caixa"
  else if contains (txt "banco do brasil") text_lower then txt "bb"
  else if contains (txt "bradesco") text_lower then txt "bradesco"
  else if contains (txt "itaú") text_lower || contains (txt "itau") text_lower
  then txt "itau"
  else if contains (txt "santander") text_lower then txt "santander"
  else txt "generico".

(** ** More of src/ocr/extractor.py *)


Definition pix_indicators : list str :=
  [ txt "pix enviado"; txt "pix recebido"; txt "comprovante pix";
    txt "comprovante de pix"; txt "dados do recebedor"; txt "dados do pagador";
    txt "chave pix"; txt "autenticação" ].

Definition classify_document_type (text : str) : str :=
  let text_lower := lower text in
  if existsb (fun indicator => contains indicator text_lower) pix_indicators
  then txt "pix"
  else if contains (txt "will bank") text_lower
          && existsb (fun word => contains word text_lower)
                     [txt "destino"; txt "origem"; txt "chave"]
  then txt "pix"
  else if contains (txt "transferência") text_lower
          || contains (txt "transferencia") text_lower
  then txt "transferencia"
  else if contains (txt "boleto") text_lower
          || contains (txt "cobrança") text_lower
  then txt "boleto"
  else txt "generico".

(** [_extract_currency_value] *)
Definition decimals (lo hi : nat) : regex :=
  cat [Atom (ASet (chars ".,")); between lo hi digit].

Definition currency_value_patterns : list regex :=
  [ cat [lit "R$"; star space; Group 1 (cat [plus digit; maybe (decimals 1 2)])];
    cat [Group 1 (cat [plus digit; decimals 2 2]); star space; Eol] ].

(** The first match that [float] accepts. *)
Fixpoint first_float (found : list str) : option float :=
  match found with
  | [] => None
  | mt :: rest =>
    match float_of_str (replace (txt ",") (txt ".") mt) with
    | Ok x => Some x
    | Raise _ => first_float rest
    end
  end.

Fixpoint first_pattern_float (patterns : list regex) (text : str) : option float :=
  match patterns with
  | [] => None
  | pattern :: rest =>
    match first_float (findall false pattern text) with
    | Some x => Some x
    | None => first_pattern_float rest text
    end
  end.

Definition _extract_currency_value (text : str) : float :=
  match first_pattern_float currency_value_patterns text with
  | Some x => x
  | None => Fin 0
  end.

(** [_extract_date_time] *)
Definition date_with (sep : string) : regex :=
  Group 1 (cat [between 1 2 digit; lit sep; between 1 2 digit; lit sep;
                times 4 digit]).

Definition date_patterns : list regex := [ date_with "/"; date_with "-" ].

Definition time_patterns : list regex :=
  [ Group 1 (cat [between 1 2 digit; lit ":"; times 2 digit; lit ":";
                  times 2 digit]);
    Group 1 (cat [between 1 2 digit; lit ":"; times 2 digit]) ].

(** Group 1 of the first pattern that matches. *)
Definition first_group1 (patterns : list regex) (text : str)
  : result (option str) :=
  match first_search false patterns text with
  | Some mo => group mo 1
  | None => Ok None
  end.

Definition _extract_date_time (text : str) : result (option str * option str) :=
  date_found <- first_group1 date_patterns text ;;
  time_found <- first_group1 time_patterns text ;;
  Ok (date_found, time_found).

(** The transfer extractors that return a dictionary. *)

(** [(?:Valor|R\$)\s*R?\$?\s*([\d.,]+)] *)
Definition transfer_valor_pattern : regex :=
  cat [Alt (lit "Valor") (lit "R$"); star space; opt (ch "R"); opt (ch "$");
       star space; Group 1 (plus (ASet (IDigit :: chars ".,")))].

Definition _extract_generic_transferencia_dict (text : str) : result dict :=
  let data : dict := [] in
  match search false transfer_valor_pattern text with
  | Some valor_match =>
    g <- group_text valor_match 1 "replace" ;;
    let valor_str := replace (txt ",") (txt ".") g in
    x <- float_of_str valor_str ;;
    Ok (set data "valor_total" (VFloat x))
  | None => Ok data
  end.

Definition _extract_caixa_transferencia_dict (text : str) : result dict :=
  let data : dict := [] in
  match search false transfer_valor_pattern text with
  | Some valor_match =>
    g <- group_text valor_match 1 "replace" ;;
    let valor_str := replace (txt ",") (txt ".") g in
    x <- float_of_str valor_str ;;
    Ok (set data "valor_total" (VFloat x))
  | None => Ok data
  end.

Definition any_char : atom := ASet [ISpace; INotSpace].
Definition not_newline : atom := ANotSet [IChar (chr 10)].
Definition rest_of_line : regex := Group 1 (plus not_newline).
Definition upper_letter : atom := ASet [rng "A" "Z"].
Definition clock : regex :=
  cat [times 2 digit; lit ":"; times 2 digit; lit ":"; times 2 digit].

Definition nubank_transfer_valor : regex :=
  cat [lit "Valor"; plus space; lit "R$"; star space;
       Group 1 (plus (ASet (IDigit :: chars ".,")))].

Definition nubank_transfer_data_hora : regex :=
  cat [Group 1 (times 2 digit); plus space; Group 2 (times 3 upper_letter);
       plus space; Group 3 (times 4 digit); plus space; lit "-"; plus space;
       Group 4 clock].

Definition meses : list (str * str) :=
  [ (txt "JAN", txt "01"); (txt "FEV", txt "02"); (txt "MAR", txt "03");
    (txt "ABR", txt "04"); (txt "MAI", txt "05"); (txt "JUN", txt "06");
    (txt "JUL", txt "07"); (txt "AGO", txt "08"); (txt "SET", txt "09");
    (txt "OUT", txt "10"); (txt "NOV", txt "11"); (txt "DEZ", txt "12") ].

(** [meses.get(mes_abrev, '01')] *)
Fixpoint mes_of (table : list (str * str)) (mes_abrev : option str) : str :=
  match table with
  | [] => txt "01"
  | (abrev, numero) :: rest =>
    match mes_abrev with
    | Some s => if str_eqb abrev s then numero else mes_of rest mes_abrev
    | None => mes_of rest mes_abrev
    end
  end.

(** A value put into an f-string. *)
Definition shown (g : option str) : str :=
  match g with Some s => s | None => txt "None" end.

Definition under (label : string) : regex :=
  cat [lit label; star space; lit_of [chr 10]; star space; lit "Nome";
       plus space; rest_of_line].

Definition after (section field : string) : regex :=
  cat [lit section; lazy_star any_char; lit field; plus space; rest_of_line].

(** [data[k1] = data[k2] = match.group(1).strip()] when the pattern is
    found. *)
Definition set_stripped (data : dict) (pattern : regex) (text : str)
           (keys : list string) : result dict :=
  match search false pattern text with
  | Some mo =>
    g <- group_text mo 1 "strip" ;;
    Ok (fold_left (fun d k => set d k (VStr (strip g))) keys data)
  | None => Ok data
  end.

(** [data[k] = match.group(1)] when the pattern is found. *)
Definition set_group (data : dict) (pattern : regex) (text : str) (k : string)
  : result dict :=
  match search false pattern text with
  | Some mo => g <- group mo 1 ;; Ok (set data k (of_option g))
  | None => Ok data
  end.

Definition format_14 (cnpj : str) : str :=
  slice 0 2 cnpj ++ txt "." ++ slice 2 5 cnpj ++ txt "." ++ slice 5 8 cnpj
  ++ txt "/" ++ slice 8 12 cnpj ++ txt "-" ++ skipn 12 cnpj.

Definition _extract_nubank_transferencia_dict (text : str) : result dict :=
  let data : dict := [] in
  (* valor total *)
  data <-
    match search true nubank_transfer_valor text with
    | Some valor_match =>
      g <- group_text valor_match 1 "replace" ;;
      let valor_str := replace (txt ",") (txt ".") g in
      x <- float_of_str valor_str ;;
      Ok (set (set data "valor_total" (VFloat x)) "valor_numerico" (VFloat x))
    | None => Ok data
    end ;;
  (* data e hora *)
  data <-
    match search false nubank_transfer_data_hora text with
    | Some data_hora_match =>
      dia <- group data_hora_match 1 ;;
      mes_abrev <- group data_hora_match 2 ;;
      ano <- group data_hora_match 3 ;;
      hora <- group data_hora_match 4 ;;
      let mes := mes_of meses mes_abrev in
      let dma := shown dia ++ txt "/" ++ mes ++ txt "/" ++ shown ano in
      let data := set data "data" (VStr dma) in
      let data := set data "hora" (of_option hora) in
      Ok (set data "data_hora" (VStr (dma ++ txt " - " ++ shown hora)))
    | None => Ok data
    end ;;
  (* destino *)
  data <- set_stripped data (under "Destino") text ["destino_nome"; "nome_empresa"] ;;
  data <-
    match search false (cat [lit "CNPJ"; plus space; Group 1 (plus digit)]) text with
    | Some destino_cnpj_match =>
      g <- group destino_cnpj_match 1 ;;
      cnpj <- match g with
              | Some s => Ok s
              | None =>
                Raise (Exn TypeError (txt "object of type 'NoneType' has no len()"))
              end ;;
      if Nat.eqb (List.length cnpj) 14 then
        let cnpj_formatado := format_14 cnpj in
        Ok (set (set data "destino_cnpj" (VStr cnpj_formatado))
                "cnpj_empresa" (VStr cnpj_formatado))
      else Ok data
    | None => Ok data
    end ;;
  data <- set_stripped data (after "Destino" "Instituição") text
                       ["destino_instituicao"] ;;
  (* origem *)
  data <- set_stripped data (under "Origem") text ["origem_nome"; "pagador_nome"] ;;
  data <- set_stripped data (after "Origem" "CPF") text
                       ["origem_cpf"; "pagador_cpf"] ;;
  data <- set_stripped data (after "Origem" "Instituição") text
                       ["origem_instituicao"; "pagador_instituicao"] ;;
  (* conta e agência *)
  data <- set_group data (cat [lit "Agência"; plus space; Group 1 (plus digit)])
                    text "agencia" ;;
  data <- set_group data
                    (cat [lit "Conta"; plus space;
                          Group 1 (plus (ASet (IDigit :: chars "-")))])
                    text "conta" ;;
  data <- set_group data
                    (cat [lit "Identific"; lazy_star any_char; lit "ador";
                          plus space;
                          Group 1 (plus (ASet [rng "a" "z"; rng "A" "Z";
                                               rng "0" "9"]))])
                    text "id_transacao" ;;
  data <- set_group data
                    (cat [lit "Expiração"; plus space;
                          Group 1 (cat [times 2 digit; lit "/"; times 2 digit;
                                        lit "/"; times 4 digit; plus space;
                                        clock])])
                    text "data_expiracao" ;;
  data <- set_stripped data
                       (cat [lit "Tipo de transferência"; plus space; rest_of_line])
                       text ["tipo_transferencia"] ;;
  Ok (set data "situacao" (VStr (txt "Concluída"))).

Definition extract_transferencia_data_dict (text : str) : result dict :=
  let layout := detect_document_layout text in
  if str_eqb layout (txt "nubank") then _extract_nubank_transferencia_dict text
  else if str_eqb layout (txt "caixa") then _extract_caixa_transferencia_dict text
  else _extract_generic_transferencia_dict text.

End Extractor.

(** ** src/main.py *)

Module Main.
Import Py Dict Clock.

(** The Receipt built by [create_chatbot_ready_data].  Left out are
    'id_transacao', 'resumo.data_completa' and the query strings of
    'consultas_chatbot', which only interpolate fields into text. *)
Record resumo_t := Resumo {
  tipo : value;
  valor : str;
  valor_numerico : float;
  status : value
}.
Record origem_t := Origem {
  o_nome_completo : value; o_documento : value; o_banco : value;
  o_tipo_pessoa : str
}.
Record destino_t := Destino {
  nome_completo : value; documento : value; banco : value;
  chave_pix : value; tipo_pessoa : str
}.
Record participantes_t := Participantes {
  origem : origem_t;
  destino : destino_t
}.
Record detalhes_operacao_t := DetalhesOperacao {
  codigo_transacao : value; codigo_autenticacao : value;
  descricao_operacao : value; tipo_operacao : str; canal_utilizado : str
}.
Record validacoes_t := Validacoes {
  padroes_reconhecidos : list string;
  alertas : list string;
  score_confianca : float
}.
Record metadados_sistema_t := MetadadosSistema {
  arquivo_fonte : value; data_processamento : value; nivel_confianca : str;
  validacoes : validacoes_t
}.
Record receipt := Receipt {
  resumo : resumo_t;
  participantes : participantes_t;
  detalhes_operacao : detalhes_operacao_t;
  metadados_sistema : metadados_sistema_t;
  tags_busca : list str
}.

(** A method of [str] called on a field. *)
Definition as_str (v : value) (attr : string) : result str :=
  match v with
  | VStr s => Ok s
  | _ => Raise (no_attribute v attr)
  end.

Definition pf_or_pj (cpf : value) : str :=
  if truth cpf then txt "PF" else txt "PJ".

Definition create_chatbot_ready_data (comprovante_dict : dict) : result receipt :=
  standardized <- Helpers.standardize_data_for_chatbot comprovante_dict ;;
  pattern_validation <- Helpers.validate_specific_patterns comprovante_dict [] ;;
  let o := Helpers.origem standardized in
  let d := Helpers.destino standardized in
  let t := Helpers.detalhes_transacao standardized in
  let md := Helpers.metadados standardized in
  tipo_text <- as_str (Helpers.tipo_transacao standardized) "lower" ;;
  banco_text <- as_str (Helpers.banco_detectado md) "replace" ;;
  nome_tag <-
    (if truth (Helpers.d_nome d)
     then (s <- as_str (Helpers.d_nome d) "lower" ;; Ok (lower s))
     else Ok []) ;;
  valor_tag <-
    (if float_ltb (Fin 0) (Helpers.valor_numerico standardized)
     then (n <- int_of_float (Helpers.valor_numerico standardized) ;;
           Ok (txt "valor_" ++ str_of_Z n))
     else Ok []) ;;
  Ok {| resumo :=
          {| tipo := Helpers.tipo_transacao standardized;
             valor := Helpers.valor_formatado standardized;
             valor_numerico := Helpers.valor_numerico standardized;
             status := get_or comprovante_dict "situacao" (VStr (txt "Processado")) |};
        participantes :=
          {| origem :=
               {| o_nome_completo := Helpers.o_nome o;
                  o_documento := Helpers.o_cpf o;
                  o_banco := Helpers.o_instituicao o;
                  o_tipo_pessoa := pf_or_pj (Helpers.o_cpf o) |};
             destino :=
               {| nome_completo := Helpers.d_nome d;
                  documento := Helpers.d_cpf d;
                  banco := Helpers.d_instituicao d;
                  chave_pix := Helpers.d_chave_pix d;
                  tipo_pessoa := pf_or_pj (Helpers.d_cpf d) |} |};
        detalhes_operacao :=
          {| codigo_transacao := Helpers.t_id t;
             codigo_autenticacao := Helpers.t_autenticacao t;
             descricao_operacao := Helpers.t_descricao t;
             tipo_operacao :=
               if contains (txt "pix") (lower tipo_text) then txt "PIX"
               else txt "Transferência";
             canal_utilizado := title (replace (txt "_") (txt " ") banco_text) |};
        metadados_sistema :=
          {| arquivo_fonte := Helpers.arquivo_origem md;
             data_processamento := Helpers.processado_em md;
             nivel_confianca := Helpers.confiabilidade md;
             validacoes :=
               {| padroes_reconhecidos := Helpers.matches pattern_validation;
                  alertas := Helpers.mismatches pattern_validation;
                  score_confianca := Helpers.confidence pattern_validation |} |};
        tags_busca := [lower tipo_text; banco_text; nome_tag; valor_tag] |}.

(** [os.path.basename] (POSIX): what follows the last slash. *)
Fixpoint basename_from (acc : str) (p : str) : str :=
  match p with
  | [] => acc
  | c :: p' => if ch_eqb c "/" then basename_from p' p' else basename_from acc p'
  end.

Definition basename (p : str) : str := basename_from p p.

(** One turn of the loop of [main] over the images: extraction, then
    the three fields [main] overwrites.  The image is taken as loaded;
    [t_extract] and [t_main] are the two readings of the clock. *)
Definition process_image (ocr : result str) (image_path : str)
           (t_extract t_main : datetime) : dict :=
  let resultado := Extractor.extract_data ocr (Some image_path) t_extract in
  let resultado := set resultado "arquivo" (VStr (basename image_path)) in
  let resultado := set resultado "caminho_completo" (VStr image_path) in
  set resultado "processado_em" (VStr (isoformat t_main)).

(** The Receipt of a processed image: none for an error entry
    ('erro' in the dictionary), otherwise what
    [create_chatbot_ready_data] gives or raises. *)
Definition receipt_of (comprovante : dict) : option (result receipt) :=
  if has comprovante "erro" then None
  else Some (create_chatbot_ready_data comprovante).

(** ** More of src/main.py *)


(** An image of the input directory: its path, what [load_image] and
    the text recognition make of it ([None] when the file cannot be
    read as an image), and the two readings of the clock. *)
Record image := Image {
  image_path : str;
  loaded : option (result str);
  t_extract : datetime;
  t_main : datetime
}.

(** One turn of the loop of [main], with its exception handler. *)
Definition entry_of (img : image) : dict :=
  match loaded img with
  | Some ocr => process_image ocr (image_path img) (t_extract img) (t_main img)
  | None =>
    [ ("arquivo", VStr (basename (image_path img)));
      ("erro", VStr (txt "Não foi possível carregar a imagem: "
                     ++ image_path img));
      ("processado_em", VStr (isoformat (t_main img))) ]
  end.

Definition comprovantes_estruturados (image_files : list image) : list dict :=
  map entry_of image_files.

Record run_metadata := RunMetadata {
  total_processados : nat;
  com_sucesso : nat;
  com_erro : nat
}.

Definition metadata_of (comprovantes : list dict) : run_metadata :=
  {| total_processados := List.length comprovantes;
     com_sucesso :=
       List.length (filter (fun c => negb (has c "erro")) comprovantes);
     com_erro := List.length (filter (fun c => has c "erro") comprovantes) |}.

(** The Receipts of the entries without 'erro'; an entry whose
    preparation raises is passed over. *)
Fixpoint chatbot_ready_data (comprovantes : list dict) : list receipt :=
  match comprovantes with
  | [] => []
  | comprovante :: rest =>
    match receipt_of comprovante with
    | Some (Ok chatbot_data) => chatbot_data :: chatbot_ready_data rest
    | _ => chatbot_ready_data rest
    end
  end.

(** The amount of the entry is the float infinity. *)
Definition infinite_amount (c : dict) : bool :=
  match get c "valor_total" with
  | Some (VFloat (Inf false)) => true
  | _ => false
  end.

End Main.

(** ** The classifier as the specification words it *)

Module Spec.
Import Py.

(** A layout and its keyword signatures; the table is in priority
    order. *)
Definition signature_table := list (str * list str).

(** The first layout one of whose signatures occurs in the lower-cased
    text, Generic when there is none. *)
Fixpoint classify (table : signature_table) (text_lower : str) : str :=
  match table with
  | [] => txt "generico"
  | (layout, keywords) :: rest =>
    if existsb (fun kw => contains kw text_lower) keywords then layout
    else classify rest text_lower
  end.

Definition no_signature (table : signature_table) (text_lower : str) : bool :=
  forallb (fun entry =>
             negb (existsb (fun kw => contains kw text_lower) (snd entry)))
          table.

Definition common_tail : signature_table :=
  [ (txt "caixa", [txt "caixa econômica"; txt "caixa"]);
    (txt "bb", [txt "banco do brasil"]);
    (txt "bradesco", [txt "bradesco"]);
    (txt "itau", [txt "itaú"; txt "itau"]);
    (txt "santander", [txt "santander"]) ].

Definition helpers_table : signature_table :=
  (txt "will_bank", [txt "will bank"; txt "willbank"])
  :: (txt "nubank", [txt "nu pagamentos"]) :: common_tail.

Definition extractor_table : signature_table :=
  (txt "will_bank", [txt "will bank"; txt "willbank"])
  :: (txt "nubank", [txt "nu pagamentos"; txt "nubank"]) :: common_tail.

End Spec.

(** ** Occurrences that a replacement cannot touch *)

Module Occur.
Import Py.

(** The non-empty suffixes of a string. *)
Fixpoint suffixes (s : str) : list str :=
  match s with
  | [] => []
  | _ :: s' => s :: suffixes s'
  end.

(** One of the two strings starts the other. *)
Definition compatible (x y : str) : bool := prefix x y || prefix y x.

(** No occurrence of [old] can share a character with an occurrence of
    [t]: no end of [old] runs into [t], [old] starts nowhere in [t]. *)
Definition apart (old t : str) : bool :=
  forallb (fun v => negb (compatible v t)) (suffixes old)
  && forallb (fun w => negb (compatible old w)) (suffixes t).

(** [t] is apart from every string the OCR corrections look for. *)
Definition survives (t : str) : bool :=
  forallb (fun ec => nonempty (fst ec) && apart (fst ec) t) Helpers.corrections.

End Occur.

(** ** Dictionaries whose name, key and CPF fields hold text *)

Module Shape.
Import Py Dict.

Definition text_or_absent (data : dict) (k : string) : bool :=
  match get data k with
  | Some (VStr _) | None => true
  | Some _ => false
  end.

(** The fields [validate_specific_patterns] searches are text when
    present. *)
Definition text_valued (data : dict) : bool :=
  forallb (text_or_absent data)
          ["destino_nome"; "recebedor_nome"; "chave_pix";
           "origem_cpf"; "pagador_cpf"; "destino_cpf"].

Definition in_unit_interval (x : float) : Prop :=
  exists q, x = Fin q /\ (0 <= q)%Q /\ (q <= 1)%Q.

End Shape.

(** ** The end-to-end scenario of the specification *)

Module Scenario.
Import Py.

(** The five items of the scenario, one per line. *)
Definition receipt_text : str :=
  txt "Will Bank" ++ chr 10 :: txt "Para Ana Cleuma Sousa Dos Santos"
  ++ chr 10 :: txt "R$ 33,00" ++ chr 10 :: txt "20/05/2025"
  ++ chr 10 :: txt "17:51:22".


(** Fields of a receipt paid to the usual payee through another key. *)
Definition other_key_fields : Dict.dict :=
  [ ("destino_nome", Dict.VStr (txt "Ana Cleuma Sousa Dos Santos"));
    ("chave_pix", Dict.VStr (txt "ana@example.com"));
    ("valor_total", Dict.VFloat (Fin 12));
    ("layout_detectado", Dict.VStr (txt "will_bank")) ].


End Scenario.

(** ** Amounts as text *)

Module Amount.
Import Py.

(** Replacing one character by another, as a map. *)
Definition subst_char (c d x : ascii) : ascii := if ch_eqb c x then d else x.

(** The three replacements of [format_currency] on one character. *)
Definition swap_separators (x : ascii) : ascii :=
  subst_char "X" "." (subst_char "." "," (subst_char "," "X" x)).

(** A character of a plain decimal text: a digit or the point. *)
Definition plain (c : ascii) : bool := isdigit c || ch_eqb c ".".

(** A character of a grouped integer part: a digit or a separator. *)
Definition grouped (sep c : ascii) : bool := isdigit c || ch_eqb c sep.

(** A number below a hundred is written with two digits that read
    back as the number. *)
Definition two_digits_ok (m : N) : bool :=
  let dd := zfill 2 (str_of_N m) in
  Nat.eqb (List.length dd) 2 && forallb isdigit dd
  && N.eqb (digits_value 0 dd) m.

(** The amount of [cents] hundredths. *)
Definition of_cents (cents : N) : Q := Qmake (Z.of_N cents) 100.

(** The Brazilian text of an amount of [cents] hundredths: "R$ ", the
    integer part in groups of three between points, a comma, two
    digits. *)
Definition written (cents : N) : str :=
  txt "R$ "
  ++ map (subst_char "," ".") (group3 (str_of_N (cents / 100)))
  ++ ","%char :: zfill 2 (str_of_N (cents mod 100)).

End Amount.

(** ** Static facts about a pattern *)

Module Static.
Import Py Re.

(** The groups that take part in every match of a pattern. *)
Fixpoint definite (r : regex) : list nat :=
  match r with
  | Seq r1 r2 => definite r1 ++ definite r2
  | Alt r1 r2 =>
    filter (fun n => existsb (Nat.eqb n) (definite r2)) (definite r1)
  | Group n r1 => n :: definite r1
  | _ => []
  end.

(** The one-character atoms of a pattern. *)
Fixpoint atoms (r : regex) : list atom :=
  match r with
  | Atom a => [a]
  | Rep a _ _ _ => [a]
  | Seq r1 r2 | Alt r1 r2 => atoms r1 ++ atoms r2
  | Group _ r1 => atoms r1
  | _ => []
  end.

(** [caps'] has every group that [caps] has, and the groups [extra]. *)
Definition keeps (caps caps' : captures) (extra : list nat) : Prop :=
  forall n, cap_get n caps <> None \/ In n extra -> cap_get n caps' <> None.

(** Group 1 exists and takes part in every match. *)
Definition has_group1 (r : regex) : bool :=
  existsb (Nat.eqb 1) (definite r) && Nat.leb 1 (ngroups r).

End Static.

(** ** Strings of the same shape *)

Module SameShape.
Import Py.

Definition separator (c : ascii) : bool := ch_eqb c "," || ch_eqb c ".".

(** Two characters of the same class: equal, both digits, or both one
    of the separators ',' and '.'. *)
Definition same_class (c d : ascii) : bool :=
  ch_eqb c d || isdigit c && isdigit d || separator c && separator d.

(** Two strings of the same shape: the same length, and characters of
    the same class at each place. *)
Fixpoint same_shape (s t : str) : bool :=
  match s, t with
  | [], [] => true
  | c :: s', d :: t' => same_class c d && same_shape s' t'
  | _, _ => false
  end.

(** The verdict of a one-character test depends on the class only. *)
Definition respects (ic : bool) (a : Re.atom) : Prop :=
  forall c d, same_class c d = true -> Re.atom_test ic a c = Re.atom_test ic a d.

(** Two continuations that fail together on texts of the same shape. *)
Definition fail_together (k k' : Re.kont) : Prop :=
  forall j u v c1 c2, same_shape u v = true -> (k j u c1 = None <-> k' j v c2 = None).

End SameShape.

(** ** The amount of the Nubank extraction, as a selection *)

Module NubankSpec.
Import Py Re.

(** The sanity filter of [extract_nubank_data]. *)
Definition sane (valor : float) : bool :=
  float_leb (to_float (1 # 100)) valor && float_leb valor (Fin (inject_Z 10000)).

(** The candidate of a pattern: the number in group 1 of its leftmost
    match. *)
Definition candidate (cleaned_text : str) (pattern : regex) : option float :=
  match search false pattern cleaned_text with
  | Some mo =>
    match group mo 1 with
    | Ok (Some g) =>
      match float_of_str (replace (txt ",") (txt ".") g) with
      | Ok valor => Some valor
      | Raise _ => None
      end
    | _ => None
    end
  | None => None
  end.

(** The first candidate, in the order of the patterns, that passes the
    filter. *)
Fixpoint first_sane (cands : list (option float)) : option float :=
  match cands with
  | [] => None
  | Some valor :: rest => if sane valor then Some valor else first_sane rest
  | None :: rest => first_sane rest
  end.

Definition amount (cleaned_text : str) : option float :=
  first_sane (map (candidate cleaned_text) Extractor.nubank_valor_patterns).

(** No pattern has a candidate in range. *)
Definition none_sane (cleaned_text : str) : bool :=
  forallb (fun c => match c with Some valor => negb (sane valor) | None => true end)
          (map (candidate cleaned_text) Extractor.nubank_valor_patterns).

End NubankSpec.

(** ** Texts without a known misreading *)

Module Clean.
Import Py.

(** None of the strings the OCR corrections look for occurs. *)
Definition misread_free (text : str) : bool :=
  forallb (fun ec => negb (contains (fst ec) text)) Helpers.corrections.

End Clean.

(** ** Texts in the form [clean_text] and [strip] leave them *)

Module Tidy.
Import Py.

(** The first character, if any, is not whitespace. *)
Definition starts_clean (s : str) : bool :=
  match s with c :: _ => negb (isspace c) | [] => true end.

(** Nothing for [strip] to remove. *)
Definition trimmed (s : str) : bool := starts_clean s && starts_clean (rev s).

(** Whitespace is the space character only, one at a time.
    [prev_space] tells that the character before was whitespace. *)
Fixpoint single_spaced (prev_space : bool) (s : str) : bool :=
  match s with
  | [] => true
  | c :: s' =>
    if isspace c
    then ch_eqb c " " && negb prev_space && single_spaced true s'
    else single_spaced false s'
  end.

(** The characters [clean_text] lets through. *)
Definition kept (c : ascii) : bool := ch_eqb (Helpers.keep_or_space c) c.

Definition tidy (s : str) : bool :=
  forallb kept s && single_spaced false s && trimmed s.

End Tidy.

(** ** The fields of an entry and what they hold *)

Module Typed.
Import Py Dict.

Definition amount_key (k : string) : bool :=
  String.eqb k "valor_total" || String.eqb k "valor_numerico".

(** The text fields the layout extractors write. *)
Definition extracted_fields : list string :=
  [ "tipo_documento"; "destino_nome"; "recebedor_nome"; "origem_nome";
    "pagador_nome"; "origem_cpf"; "pagador_cpf"; "destino_cpf";
    "recebedor_cpf"; "chave_pix"; "data"; "hora"; "data_hora"; "situacao";
    "origem_instituicao"; "destino_instituicao"; "codigo_operacao" ].

Definition text_field (k : string) : bool :=
  existsb (String.eqb k) extracted_fields.

(** An amount key holds a float, a key of [text_key] holds text, and
    there is nothing else. *)
Definition entry_ok (text_key : string -> bool) (kv : string * value) : bool :=
  match snd kv with
  | VFloat _ => amount_key (fst kv)
  | VStr _ => text_key (fst kv)
  | VNone => false
  end.

Definition fields_ok (d : dict) : bool := forallb (entry_ok text_field) d.

(** Floats under the two amount keys, text under every other key. *)
Definition well_typed (d : dict) : bool :=
  forallb (entry_ok (fun k => negb (amount_key k))) d.

(** What a layout extractor returns: its own fields, and the same under
    the two amount keys. *)
Definition extracted (d : dict) : Prop :=
  fields_ok d = true /\ get d "valor_total" = get d "valor_numerico".

Definition layout_labels : list str :=
  [ txt "will_bank"; txt "nubank"; txt "caixa"; txt "bb"; txt "bradesco";
    txt "itau"; txt "santander"; txt "generico" ].

Definition error_labels : list str := [ txt "vazio"; txt "erro" ].

(** The amount [standardize_data_for_chatbot] reads. *)
Definition amount_of (d : dict) : value :=
  or_else (get_or d "valor_total" (VFloat (Fin 0)))
          (get_or d "valor_numerico" (VFloat (Fin 0))).

(** What [int] raises on an infinite float. *)
Definition infinity_error : exn :=
  Exn OverflowError (txt "cannot convert float infinity to integer").

End Typed.

(** ** The texts a pattern can match *)

Module Lang.
Import Py Re.

(** [lang ic r i w rest]: [r] can match [w] at offset [i] when [rest]
    follows. *)
Fixpoint lang (ic : bool) (r : regex) (i : nat) (w rest : str) : Prop :=
  match r with
  | Empty => w = []
  | Atom a => exists c, w = [c] /\ atom_test ic a c = true
  | Seq r1 r2 =>
    exists w1 w2,
      w = w1 ++ w2 /\ lang ic r1 i w1 (w2 ++ rest)
      /\ lang ic r2 (i + List.length w1) w2 rest
  | Alt r1 r2 => lang ic r1 i w rest \/ lang ic r2 i w rest
  | Rep a lo hi _ =>
    forallb (atom_test ic a) w = true /\ lo <= List.length w
    /\ match hi with Some h => List.length w <= h | None => True end
  | Group _ r1 => lang ic r1 i w rest
  | Bol => w = [] /\ i = 0
  | Eol => w = [] /\ (rest = [] \/ rest = [chr 10])
  end.

(** The number of characters of [s] that pass [p]. *)
Definition count (p : ascii -> bool) (s : str) : nat := List.length (filter p s).

Definition all_ascii : list ascii := map ascii_of_nat (seq 0 256).

(** Some character the atom accepts passes [p]; every character the
    atom accepts passes [p]. *)
Definition atom_may (ic : bool) (p : ascii -> bool) (a : atom) : bool :=
  existsb (fun c => atom_test ic a c && p c) all_ascii.

Definition atom_must (ic : bool) (p : ascii -> bool) (a : atom) : bool :=
  forallb (fun c => implb (atom_test ic a c) (p c)) all_ascii.

(** Bounds on the number of characters passing [p] in a match of [r];
    [None] is no upper bound. *)
Fixpoint cmin (ic : bool) (p : ascii -> bool) (r : regex) : nat :=
  match r with
  | Atom a => if atom_must ic p a then 1 else 0
  | Seq r1 r2 => cmin ic p r1 + cmin ic p r2
  | Alt r1 r2 => Nat.min (cmin ic p r1) (cmin ic p r2)
  | Rep a lo _ _ => if atom_must ic p a then lo else 0
  | Group _ r1 => cmin ic p r1
  | _ => 0
  end.

Fixpoint cmax (ic : bool) (p : ascii -> bool) (r : regex) : option nat :=
  match r with
  | Atom a => Some (if atom_may ic p a then 1 else 0)
  | Seq r1 r2 =>
    match cmax ic p r1, cmax ic p r2 with
    | Some a, Some b => Some (a + b)
    | _, _ => None
    end
  | Alt r1 r2 =>
    match cmax ic p r1, cmax ic p r2 with
    | Some a, Some b => Some (Nat.max a b)
    | _, _ => None
    end
  | Rep a _ hi _ => if atom_may ic p a then hi else Some 0
  | Group _ r1 => cmax ic p r1
  | _ => Some 0
  end.

(** The pattern ends with [$]. *)
Fixpoint anchored_end (r : regex) : bool :=
  match r with
  | Eol => true
  | Seq r1 Empty => anchored_end r1
  | Seq _ r2 => anchored_end r2
  | Alt r1 r2 => anchored_end r1 && anchored_end r2
  | Group _ r1 => anchored_end r1
  | _ => false
  end.

(** Every group of [r] holds, whenever it takes part, a text that
    passes [G] under the number of the group. *)
Fixpoint groups_in (ic : bool) (G : nat -> str -> Prop) (r : regex) : Prop :=
  match r with
  | Group n r1 =>
    (forall i w rest, lang ic r1 i w rest -> G n w) /\ groups_in ic G r1
  | Seq r1 r2 | Alt r1 r2 => groups_in ic G r1 /\ groups_in ic G r2
  | _ => True
  end.

(** The same of the spans captured in [text]. *)
Definition caps_in (G : nat -> str -> Prop) (text : str) (caps : captures)
  : Prop :=
  forall n a b, In (n, (a, b)) caps -> G n (slice a b text).

(** [c] passes one of the one-character tests of [r]. *)
Definition in_atoms (ic : bool) (r : regex) (c : ascii) : bool :=
  existsb (fun a => atom_test ic a c) (Static.atoms r).

(** [c] passes one of the tests inside a group numbered [n]. *)
Fixpoint in_group (ic : bool) (r : regex) (n : nat) (c : ascii) : bool :=
  match r with
  | Group g r1 => Nat.eqb g n && in_atoms ic r1 c || in_group ic r1 n c
  | Seq r1 r2 | Alt r1 r2 => in_group ic r1 n c || in_group ic r2 n c
  | _ => false
  end.

(** A digit, a point or a comma. *)
Definition numeric (c : ascii) : bool :=
  isdigit c || ch_eqb c "." || ch_eqb c ",".

Definition within (n : nat) (lo : nat) (hi : option nat) : Prop :=
  lo <= n /\ match hi with Some h => n <= h | None => True end.

End Lang.

(** * Properties *)

Unset Implicit Arguments.
(** ** Rounding to binary64 *)

Section Binary64.
Import Py.
Local Open Scope Q_scope.

Lemma inject_Z_lt_succ (a b : Z) : inject_Z a < inject_Z b + 1 -> (a <= b)%Z.
Proof.
  intros H. apply Z.lt_succ_r. rewrite Zlt_Qlt.
  unfold Z.succ. rewrite inject_Z_plus. exact H.
Qed.

Lemma round_half_even_bounds (x : Q) :
  x - (1 # 2) <= inject_Z (round_half_even x) <= x + (1 # 2).
Proof.
  unfold round_half_even.
  pose proof (Qfloor_le x) as Hl. pose proof (Qlt_floor x) as Hu.
  rewrite inject_Z_plus in Hu. change (inject_Z 1) with 1 in Hu.
  set (f := Qfloor x) in *.
  destruct (Qle_bool (x - inject_Z f) (1 # 2)) eqn:H1.
  - apply Qle_bool_iff in H1.
    destruct (Qle_bool (1 # 2) (x - inject_Z f)) eqn:H2.
    + apply Qle_bool_iff in H2.
      destruct (Z.even f);
        [| rewrite inject_Z_plus; change (inject_Z 1) with 1]; split; lra.
    + split; lra.
  - assert (H : ~ x - inject_Z f <= 1 # 2)
      by (rewrite <- Qle_bool_iff; congruence).
    rewrite inject_Z_plus. change (inject_Z 1) with 1. split; lra.
Qed.

Lemma round_half_even_le (x : Q) (n : Z) :
  x <= inject_Z n -> (round_half_even x <= n)%Z.
Proof.
  intros H. apply inject_Z_lt_succ.
  pose proof (round_half_even_bounds x). lra.
Qed.

Lemma round_half_even_ge (x : Q) (n : Z) :
  inject_Z n <= x -> (n <= round_half_even x)%Z.
Proof.
  intros H. apply inject_Z_lt_succ.
  pose proof (round_half_even_bounds x). lra.
Qed.

Lemma round_half_even_near (x : Q) (n : Z) :
  Qabs (x - inject_Z n) < 1 # 2 -> round_half_even x = n.
Proof.
  intros H. pose proof (round_half_even_bounds x) as B.
  assert (H' : - (1 # 2) < x - inject_Z n /\ x - inject_Z n < 1 # 2)
    by (apply Qabs_Qlt_condition; exact H).
  apply Z.le_antisymm; apply inject_Z_lt_succ; lra.
Qed.

Lemma round_half_even_integer (x : Q) (n : Z) :
  (x == inject_Z n)%Q -> round_half_even x = n.
Proof.
  intros H. apply round_half_even_near.
  assert (E : x - inject_Z n == 0) by lra. rewrite E. reflexivity.
Qed.

Lemma round_half_even_comp (x y : Q) :
  x == y -> round_half_even x = round_half_even y.
Proof.
  intros H. unfold round_half_even. rewrite (Qfloor_comp x y H).
  assert (E : x - inject_Z (Qfloor y) == y - inject_Z (Qfloor y)) by lra.
  rewrite (Qleb_comp _ _ E _ _ (Qeq_refl (1 # 2))).
  rewrite (Qleb_comp _ _ (Qeq_refl (1 # 2)) _ _ E). reflexivity.
Qed.

(** *** Powers of two *)

Lemma pow2_power (e : Z) : pow2 e == 2 ^ e.
Proof.
  unfold pow2. destruct (Z.leb_spec 0 e) as [H | H].
  - exact (Zpower_Qpower 2 e H).
  - replace e with (- (- e))%Z at 2 by lia. rewrite Qpower_opp.
    assert (P : inject_Z (2 ^ (- e)) == 2 ^ (- e))
      by (apply (Zpower_Qpower 2); lia).
    rewrite <- P.
    assert (Hp : (0 < 2 ^ (- e))%Z) by (apply Z.pow_pos_nonneg; lia).
    destruct (2 ^ (- e))%Z as [| p | p] eqn:E; try lia. reflexivity.
Qed.

Lemma pow2_pos (e : Z) : 0 < pow2 e.
Proof. rewrite pow2_power. apply Qpower_0_lt. reflexivity. Qed.

Lemma pow2_add (a b : Z) : pow2 (a + b) == pow2 a * pow2 b.
Proof. rewrite !pow2_power. apply Qpower_plus. discriminate. Qed.

Lemma pow2_le (a b : Z) : (a <= b)%Z -> pow2 a <= pow2 b.
Proof.
  intros H. rewrite !pow2_power. apply Qpower_le_compat_l; [exact H |].
  discriminate.
Qed.

Lemma pow2_lt (a b : Z) : (a < b)%Z -> pow2 a < pow2 b.
Proof.
  intros H. rewrite !pow2_power. apply Qpower_lt_compat_l; [exact H |].
  reflexivity.
Qed.

Lemma pow2_lt_inv (a b : Z) : pow2 a < pow2 b -> (a < b)%Z.
Proof.
  rewrite !pow2_power. intros H.
  apply (Qpower_lt_compat_l_inv 2); [exact H | reflexivity].
Qed.

Lemma pow2_Z (e : Z) : (0 <= e)%Z -> pow2 e = inject_Z (2 ^ e).
Proof.
  intros H. unfold pow2. destruct (Z.leb_spec 0 e); [reflexivity | lia].
Qed.

(** 2^k is 2^(k-e) last bits of exponent [e]. *)
Lemma pow2_split (k e : Z) :
  (e <= k)%Z -> pow2 k == inject_Z (2 ^ (k - e)) * pow2 e.
Proof.
  intros H. rewrite <- pow2_Z by lia. rewrite <- pow2_add.
  replace (k - e + e)%Z with k by lia. reflexivity.
Qed.

(** *** The binade of a positive rational *)

Lemma binade_spec (q : Q) :
  0 < q -> pow2 (binade q) <= q /\ q < pow2 (binade q + 1).
Proof.
  intros Hq. unfold binade. destruct q as [n d]. cbn [Qnum Qden].
  assert (Hn : (0 < n)%Z) by (unfold Qlt in Hq; simpl in Hq; lia).
  destruct (Z.log2_spec n Hn) as [Hn1 Hn2].
  destruct (Z.log2_spec (Zpos d) (Pos2Z.is_pos d)) as [Hd1 Hd2].
  pose proof (Z.log2_nonneg n) as Ha. pose proof (Z.log2_nonneg (Zpos d)) as Hb.
  set (a := Z.log2 n) in *. set (b := Z.log2 (Zpos d)) in *.
  rewrite Zle_Qle in Hn1, Hd1. rewrite Zlt_Qlt in Hn2, Hd2.
  rewrite <- pow2_Z in Hn1, Hd1, Hn2, Hd2 by lia.
  assert (Hd : 0 < inject_Z (Zpos d)) by reflexivity.
  destruct (Qle_bool (pow2 (a - b)) (n # d)) eqn:E.
  - apply Qle_bool_iff in E. split; [exact E |].
    rewrite (Qmake_Qdiv n d). apply Qlt_shift_div_r; [exact Hd |].
    assert (P : pow2 (a - b + 1) * pow2 b == pow2 (Z.succ a))
      by (rewrite <- pow2_add; replace (a - b + 1 + b)%Z with (Z.succ a) by lia;
          reflexivity).
    pose proof (pow2_pos (a - b + 1)). pose proof (pow2_pos b). nra.
  - assert (E' : ~ pow2 (a - b) <= n # d)
      by (rewrite <- Qle_bool_iff; congruence).
    replace (a - b - 1 + 1)%Z with (a - b)%Z by lia.
    split; [| lra].
    rewrite (Qmake_Qdiv n d). apply Qle_shift_div_l; [exact Hd |].
    assert (P : pow2 (a - b - 1) * pow2 (Z.succ b) == pow2 a)
      by (rewrite <- pow2_add; replace (a - b - 1 + Z.succ b)%Z with a by lia;
          reflexivity).
    pose proof (pow2_pos (a - b - 1)). pose proof (pow2_pos (Z.succ b)). nra.
Qed.

Lemma binade_unique (q : Q) (k : Z) :
  pow2 k <= q -> q < pow2 (k + 1) -> binade q = k.
Proof.
  intros H1 H2.
  assert (Hq : 0 < q) by (pose proof (pow2_pos k); lra).
  destruct (binade_spec q Hq) as [B1 B2].
  assert (binade q < k + 1)%Z by (apply pow2_lt_inv; lra).
  assert (k < binade q + 1)%Z by (apply pow2_lt_inv; lra).
  lia.
Qed.

(** *** The nearest binary64 *)

Lemma round64_value (q : Q) :
  round64 q
  == inject_Z (round_half_even (q / pow2 (ulp_exponent q)))
     * pow2 (ulp_exponent q).
Proof. unfold round64. cbv zeta. apply Qred_correct. Qed.

Lemma div_pow2 (q : Q) (e : Z) : q / pow2 e * pow2 e == q.
Proof.
  pose proof (pow2_pos e). field. lra.
Qed.

Lemma round64_nonneg (q : Q) : 0 <= q -> 0 <= round64 q.
Proof.
  intros H. rewrite round64_value.
  pose proof (pow2_pos (ulp_exponent q)) as Hp.
  assert (Hm : (0 <= round_half_even (q / pow2 (ulp_exponent q)))%Z).
  { apply round_half_even_ge. change (inject_Z 0) with 0.
    apply Qle_shift_div_l; [exact Hp | lra]. }
  rewrite Zle_Qle in Hm. change (inject_Z 0) with 0 in Hm. nra.
Qed.

(** What [round64] returns is a binary64: at most 53 bits, the last
    one of exponent -1074 or more. *)
Lemma round64_binary64 (q : Q) :
  0 <= q ->
  exists m e : Z,
    (0 <= m <= 2 ^ 53)%Z /\ (-1074 <= e)%Z
    /\ round64 q == inject_Z m * pow2 e.
Proof.
  intros H0. exists (round_half_even (q / pow2 (ulp_exponent q))).
  exists (ulp_exponent q).
  pose proof (pow2_pos (ulp_exponent q)) as Hp.
  split; [| split; [unfold ulp_exponent; lia | apply round64_value]].
  split.
  - apply round_half_even_ge. change (inject_Z 0) with 0.
    apply Qle_shift_div_l; [exact Hp | lra].
  - apply round_half_even_le. apply Qle_shift_div_r; [exact Hp |].
    destruct (Qlt_le_dec 0 q) as [Hq | Hz].
    + destruct (binade_spec q Hq) as [_ B].
      rewrite <- (pow2_Z 53), <- pow2_add by lia.
      apply Qle_trans with (pow2 (binade q + 1)); [lra |].
      apply pow2_le. unfold ulp_exponent. lia.
    + pose proof (pow2_pos 53). rewrite <- (pow2_Z 53) by lia. nra.
Qed.

(** The error of the rounding: half a unit of the last bit. *)
Lemma round64_error (q : Q) :
  Qabs (round64 q - q) <= pow2 (ulp_exponent q) * (1 # 2).
Proof.
  rewrite round64_value.
  set (e := ulp_exponent q).
  pose proof (round_half_even_bounds (q / pow2 e)) as B.
  pose proof (pow2_pos e) as Hp. pose proof (div_pow2 q e) as D.
  set (x := q / pow2 e) in *. set (m := inject_Z (round_half_even x)) in *.
  apply Qabs_Qle_condition. split; nra.
Qed.

Lemma ulp_exponent_le (q : Q) (k : Z) :
  0 < q -> q <= pow2 k -> (-1074 <= k)%Z -> (ulp_exponent q <= k)%Z.
Proof.
  intros Hq H Hk. destruct (binade_spec q Hq) as [B1 _].
  assert (binade q < k + 1)%Z
    by (apply pow2_lt_inv; pose proof (pow2_lt k (k + 1) ltac:(lia)); lra).
  unfold ulp_exponent. lia.
Qed.

(** Rounding does not cross a power of two. *)
Lemma round64_le_pow2 (q : Q) (k : Z) :
  0 < q -> q <= pow2 k -> (-1074 <= k)%Z -> round64 q <= pow2 k.
Proof.
  intros Hq H Hk. pose proof (ulp_exponent_le q k Hq H Hk) as He.
  rewrite round64_value. set (e := ulp_exponent q) in *.
  pose proof (pow2_pos e) as Hp. pose proof (div_pow2 q e) as D.
  rewrite (pow2_split k e He) in *.
  assert (Hm : (round_half_even (q / pow2 e) <= 2 ^ (k - e))%Z).
  { apply round_half_even_le. apply Qle_shift_div_r; [exact Hp | exact H]. }
  rewrite Zle_Qle in Hm. nra.
Qed.

Lemma round64_ge_pow2_aux (q : Q) (k : Z) :
  pow2 k <= q -> (ulp_exponent q <= k)%Z -> pow2 k <= round64 q.
Proof.
  intros H He. rewrite round64_value. set (e := ulp_exponent q) in *.
  pose proof (pow2_pos e) as Hp. pose proof (div_pow2 q e) as D.
  rewrite (pow2_split k e He) in *.
  assert (Hm : (2 ^ (k - e) <= round_half_even (q / pow2 e))%Z).
  { apply round_half_even_ge. apply Qle_shift_div_l; [exact Hp | exact H]. }
  rewrite Zle_Qle in Hm. nra.
Qed.

Lemma round64_ge_pow2 (q : Q) (k : Z) :
  pow2 k <= q -> (-1074 <= k)%Z -> pow2 k <= round64 q.
Proof.
  intros H Hk.
  assert (Hq : 0 < q) by (pose proof (pow2_pos k); lra).
  destruct (binade_spec q Hq) as [B1 B2].
  assert (Hb : (k < binade q + 1)%Z) by (apply pow2_lt_inv; lra).
  destruct (Z_le_gt_dec (ulp_exponent q) k) as [He | He].
  - apply round64_ge_pow2_aux; assumption.
  - apply Qle_trans with (pow2 (binade q)); [apply pow2_le; lia |].
    apply round64_ge_pow2_aux; [exact B1 |]. unfold ulp_exponent in *. lia.
Qed.

(** Equal rationals have the same binary64. *)
Lemma round64_comp (q q' : Q) : 0 <= q -> q == q' -> round64 q = round64 q'.
Proof.
  intros Hq E. unfold round64. cbv zeta. apply Qred_complete.
  destruct (Qlt_le_dec 0 q) as [Hpos | H0].
  - assert (Hb : binade q' = binade q).
    { destruct (binade_spec q Hpos) as [B1 B2].
      apply binade_unique; lra. }
    unfold ulp_exponent. rewrite Hb.
    set (e := Z.max (binade q - 52) (-1074)).
    assert (R : round_half_even (q' / pow2 e) = round_half_even (q / pow2 e)).
    { apply round_half_even_comp. unfold Qdiv. rewrite E. reflexivity. }
    rewrite R. reflexivity.
  - assert (Z0 : q == 0) by lra. assert (Z0' : q' == 0) by lra.
    assert (R : forall e, round_half_even (q / pow2 e) = 0%Z).
    { intros e. apply round_half_even_integer. unfold Qdiv. rewrite Z0.
      change (inject_Z 0) with 0. ring. }
    assert (R' : forall e, round_half_even (q' / pow2 e) = 0%Z).
    { intros e. apply round_half_even_integer. unfold Qdiv. rewrite Z0'.
      change (inject_Z 0) with 0. ring. }
    rewrite R, R'. change (inject_Z 0) with 0. ring.
Qed.

(** A number of 53 bits is its own binary64. *)
Lemma round64_representable (m e : Z) :
  (2 ^ 52 <= m < 2 ^ 53)%Z -> (-1074 <= e)%Z ->
  round64 (inject_Z m * pow2 e) = Qred (inject_Z m * pow2 e).
Proof.
  intros [Hm1 Hm2] He.
  pose proof (pow2_pos e) as Hp.
  rewrite Zle_Qle in Hm1. rewrite Zlt_Qlt in Hm2.
  assert (Hb : binade (inject_Z m * pow2 e) = (52 + e)%Z).
  { apply binade_unique.
    - rewrite pow2_add, (pow2_Z 52) by lia. nra.
    - replace (52 + e + 1)%Z with (53 + e)%Z by lia.
      rewrite pow2_add, (pow2_Z 53) by lia. nra. }
  unfold round64, ulp_exponent. rewrite Hb. cbv zeta.
  replace (Z.max (52 + e - 52) (-1074)) with e by lia.
  rewrite (round_half_even_integer _ m); [reflexivity |].
  field. lra.
Qed.

(** Whatever is nearer to a number of 53 bits than half its last bit
    rounds to it, inside a binade. *)
Lemma round64_stable (m e : Z) (y : Q) :
  (2 ^ 52 < m < 2 ^ 53)%Z -> (-1074 <= e)%Z ->
  Qabs (y - inject_Z m * pow2 e) < pow2 e * (1 # 2) ->
  round64 y = Qred (inject_Z m * pow2 e).
Proof.
  intros [Hm1 Hm2] He Hy.
  pose proof (pow2_pos e) as Hp.
  assert (Hm1' : (2 ^ 52 + 1 <= m)%Z) by lia.
  assert (Hm2' : (m + 1 <= 2 ^ 53)%Z) by lia.
  rewrite Zle_Qle in Hm1', Hm2'. rewrite !inject_Z_plus in Hm1', Hm2'.
  change (inject_Z 1) with 1 in *.
  assert (Hy' : - (pow2 e * (1 # 2)) < y - inject_Z m * pow2 e
                /\ y - inject_Z m * pow2 e < pow2 e * (1 # 2))
    by (apply Qabs_Qlt_condition; exact Hy).
  assert (Hb : binade y = (52 + e)%Z).
  { apply binade_unique.
    - rewrite pow2_add, (pow2_Z 52) by lia. nra.
    - replace (52 + e + 1)%Z with (53 + e)%Z by lia.
      rewrite pow2_add, (pow2_Z 53) by lia. nra. }
  unfold round64, ulp_exponent. rewrite Hb. cbv zeta.
  replace (Z.max (52 + e - 52) (-1074)) with e by lia.
  rewrite (round_half_even_near _ m); [reflexivity |].
  pose proof (div_pow2 y e) as D. set (x := y / pow2 e) in *.
  apply Qabs_case; intros; nra.
Qed.

(** The binary64 of a number of the normal range: 53 bits, the last
    one of exponent [binade q - 52]. *)
Lemma round64_normal (q : Q) :
  pow2 (-1022) <= q ->
  exists m : Z,
    (2 ^ 52 <= m <= 2 ^ 53)%Z
    /\ ulp_exponent q = (binade q - 52)%Z
    /\ round64 q = Qred (inject_Z m * pow2 (binade q - 52)).
Proof.
  intros H.
  assert (Hq : 0 < q) by (pose proof (pow2_pos (-1022)); lra).
  destruct (binade_spec q Hq) as [B1 B2].
  assert (Hb : (-1022 < binade q + 1)%Z) by (apply pow2_lt_inv; lra).
  assert (He : ulp_exponent q = (binade q - 52)%Z) by (unfold ulp_exponent; lia).
  exists (round_half_even (q / pow2 (binade q - 52))).
  pose proof (pow2_pos (binade q - 52)) as Hp.
  split; [| split; [exact He | unfold round64; rewrite He; reflexivity]].
  split.
  - apply round_half_even_ge. apply Qle_shift_div_l; [exact Hp |].
    rewrite <- (pow2_Z 52), <- pow2_add by lia.
    replace (52 + (binade q - 52))%Z with (binade q) by lia. exact B1.
  - apply round_half_even_le. apply Qle_shift_div_r; [exact Hp |].
    rewrite <- (pow2_Z 53), <- pow2_add by lia.
    replace (53 + (binade q - 52))%Z with (binade q + 1)%Z by lia. lra.
Qed.

(** Below the overflow threshold the nearest binary64 is at most the
    largest one, 2^1024 - 2^971. *)
Lemma round64_below (q : Q) :
  0 < q -> q < overflow_threshold ->
  round64 q <= inject_Z (2 ^ 1024 - 2 ^ 971).
Proof.
  intros Hq H. destruct (binade_spec q Hq) as [B1 B2].
  assert (T : overflow_threshold == (inject_Z (2 ^ 53) - (1 # 2)) * pow2 971)
    by (vm_compute; reflexivity).
  assert (M : inject_Z (2 ^ 1024 - 2 ^ 971)
              == (inject_Z (2 ^ 53) - 1) * pow2 971)
    by (vm_compute; reflexivity).
  assert (P : pow2 1023 == inject_Z (2 ^ 52) * pow2 971)
    by (vm_compute; reflexivity).
  assert (P' : pow2 1024 == inject_Z (2 ^ 53) * pow2 971)
    by (vm_compute; reflexivity).
  pose proof (pow2_pos 971) as Hp.
  assert (Hb : (binade q < 1024)%Z) by (apply pow2_lt_inv; nra).
  destruct (Z_le_gt_dec (binade q) 1022) as [Hs | Hl].
  - apply Qle_trans with (pow2 1023).
    + apply round64_le_pow2; [exact Hq | | lia].
      apply Qle_trans with (pow2 (binade q + 1)); [lra | apply pow2_le; lia].
    + rewrite M, P.
      assert (I : inject_Z (2 ^ 52) <= inject_Z (2 ^ 53) - 1)
        by (vm_compute; discriminate).
      nra.
  - assert (He : ulp_exponent q = 971%Z) by (unfold ulp_exponent; lia).
    rewrite round64_value, He, M.
    pose proof (round_half_even_bounds (q / pow2 971)) as [_ B].
    pose proof (div_pow2 q 971) as D. set (x := q / pow2 971) in *.
    assert (Hx : x < inject_Z (2 ^ 53) - (1 # 2)) by nra.
    assert (Hm : (round_half_even x <= 2 ^ 53 - 1)%Z).
    { apply inject_Z_lt_succ. unfold Z.sub. rewrite inject_Z_plus.
      change (inject_Z (- (1))) with (- (1)). lra. }
    rewrite Zle_Qle in Hm. unfold Z.sub in Hm. rewrite inject_Z_plus in Hm.
    change (inject_Z (- (1))) with (- (1)) in Hm. nra.
Qed.

(** *** The float of a rational *)

Lemma to_float_finite (q : Q) :
  0 <= q -> q < overflow_threshold -> to_float q = Fin (round64 q).
Proof.
  intros H0 H. unfold to_float.
  assert (Ha : Qabs q == q) by (apply Qabs_pos; exact H0).
  replace (Qle_bool overflow_threshold (Qabs q)) with false
    by (symmetry; apply not_true_is_false; rewrite Qle_bool_iff; lra).
  replace (Qle_bool 0 q) with true
    by (symmetry; apply Qle_bool_iff; exact H0).
  reflexivity.
Qed.

Lemma to_float_cases (q : Q) :
  0 <= q -> to_float q = Inf false \/ to_float q = Fin (round64 q).
Proof.
  intros H0. unfold to_float.
  replace (Qle_bool 0 q) with true
    by (symmetry; apply Qle_bool_iff; exact H0).
  destruct (Qle_bool overflow_threshold (Qabs q)); [left | right]; reflexivity.
Qed.

(** The float of a number between 0 and 1 is between 0 and 1. *)
Lemma to_float_unit (q : Q) :
  0 <= q -> q <= 1 ->
  exists q', to_float q = Fin q' /\ 0 <= q' /\ q' <= 1.
Proof.
  intros H0 H1. exists (round64 q).
  split; [| split; [apply round64_nonneg; exact H0 |]].
  - apply to_float_finite; [exact H0 |].
    apply Qle_lt_trans with 1; [exact H1 | reflexivity].
  - destruct (Qlt_le_dec 0 q) as [Hpos | Hz].
    + change 1 with (pow2 0). apply round64_le_pow2; [exact Hpos | exact H1 | lia].
    + rewrite (round64_comp q 0 H0) by lra. vm_compute. discriminate.
Qed.

End Binary64.


(** ** Strings *)

Section StringFacts.
Import Py.

Lemma ch_eqb_eq (a b : ascii) : ch_eqb a b = true <-> a = b.
Proof. unfold ch_eqb. apply Ascii.eqb_eq. Qed.

Lemma ch_eqb_refl (a : ascii) : ch_eqb a a = true.
Proof. apply ch_eqb_eq. reflexivity. Qed.

Lemma str_eqb_eq (a b : str) : str_eqb a b = true <-> a = b.
Proof.
  revert b. induction a as [|x a IH]; intros [|y b]; simpl; split;
    try congruence; try reflexivity.
  - intros H. apply andb_true_iff in H. destruct H as [Hx Ha].
    apply ch_eqb_eq in Hx. apply IH in Ha. congruence.
  - intros H. injection H as -> ->. rewrite ch_eqb_refl. simpl.
    apply IH. reflexivity.
Qed.

Lemma prefix_iff (p s : str) : prefix p s = true <-> exists b, s = p ++ b.
Proof.
  revert s. induction p as [|x p IH]; intros s; simpl.
  - split; [intros _; exists s; reflexivity | reflexivity].
  - destruct s as [|y s].
    + split; [discriminate | intros [b Hb]; discriminate].
    + rewrite andb_true_iff, ch_eqb_eq, IH. split.
      * intros [-> [b ->]]. exists b. reflexivity.
      * intros [b Hb]. injection Hb as -> ->. split; [reflexivity | eauto].
Qed.

Lemma prefix_app (p b : str) : prefix p (p ++ b) = true.
Proof. apply prefix_iff. eauto. Qed.

Lemma contains_iff (t s : str) :
  contains t s = true <-> exists a b, s = a ++ t ++ b.
Proof.
  induction s as [|c s IH].
  - simpl. rewrite orb_false_r, prefix_iff. split.
    + intros [b Hb]. exists [], b. exact Hb.
    + intros [a [b Hab]]. destruct a; [eauto |]. discriminate.
  - simpl. rewrite orb_true_iff, prefix_iff, IH. split.
    + intros [[b Hb] | [a [b Hab]]].
      * exists [], b. exact Hb.
      * exists (c :: a), b. simpl. congruence.
    + intros [[|x a] [b Hab]].
      * left. exists b. exact Hab.
      * right. injection Hab as -> ->. eauto.
Qed.

Lemma contains_app_r (t a s : str) :
  contains t s = true -> contains t (a ++ s) = true.
Proof.
  rewrite !contains_iff. intros [x [y ->]]. exists (a ++ x), y.
  rewrite <- app_assoc. reflexivity.
Qed.


(** Stripping *)

Lemma lstrip_spaces (s : str) : forallb isspace s = true -> lstrip s = [].
Proof.
  induction s as [|c s IH]; simpl; [reflexivity |].
  intros H. apply andb_true_iff in H. destruct H as [Hc Hs].
  rewrite Hc. auto.
Qed.

Lemma strip_spaces (s : str) : forallb isspace s = true -> strip s = [].
Proof.
  intros H. unfold strip, rstrip. rewrite (lstrip_spaces _ H). reflexivity.
Qed.




End StringFacts.

(** ** Replacement keeps the occurrences it cannot touch *)

Section ReplaceFacts.
Import Py Occur.

Lemma replace_from_skip (old new : str) (k : nat) (s : str) :
  replace_from old new k s = replace_from old new 0 (skipn k s).
Proof.
  revert k. induction s as [|c s IH]; intros k.
  - destruct k; reflexivity.
  - destruct k as [|k]; [reflexivity |]. simpl. apply IH.
Qed.

Lemma replace_from_hit (old new r : str) :
  old <> [] ->
  replace_from old new 0 (old ++ r) = new ++ replace_from old new 0 r.
Proof.
  intros Hold. destruct old as [|c old]; [congruence |].
  change ((c :: old) ++ r) with (c :: old ++ r).
  assert (Hp : prefix (c :: old) (c :: old ++ r) = true)
    by apply (prefix_app (c :: old) r).
  cbn [replace_from]. rewrite Hp.
  rewrite replace_from_skip.
  replace (List.length (c :: old) - 1) with (List.length old)
    by (simpl; lia).
  rewrite skipn_app, skipn_all, Nat.sub_diag. reflexivity.
Qed.

Lemma suffixes_app (a v : str) : v <> [] -> In v (suffixes (a ++ v)).
Proof.
  intros Hv. induction a as [|x a IH]; simpl.
  - destruct v; [congruence | left; reflexivity].
  - right. exact IH.
Qed.

Lemma meet_compatible (x y r b : str) :
  x ++ r = y ++ b -> compatible x y = true.
Proof.
  intros H. apply app_eq_app in H. destruct H as [l [[-> _] | [-> _]]];
    unfold compatible; rewrite prefix_app; auto using orb_true_r.
Qed.

Lemma apart_tail (old t : str) (v : str) :
  apart old t = true -> In v (suffixes old) -> compatible v t = false.
Proof.
  unfold apart. intros H Hv. apply andb_true_iff in H. destruct H as [H _].
  rewrite forallb_forall in H. apply negb_true_iff. auto.
Qed.

Lemma apart_inside (old t : str) (w : str) :
  apart old t = true -> In w (suffixes t) -> compatible old w = false.
Proof.
  unfold apart. intros H Hw. apply andb_true_iff in H. destruct H as [_ H].
  rewrite forallb_forall in H. apply negb_true_iff. auto.
Qed.

(** A stretch of text in which [old] starts nowhere is copied. *)
Lemma replace_from_copy (old new t b : str) :
  (forall w, In w (suffixes t) -> compatible old w = false) ->
  replace_from old new 0 (t ++ b) = t ++ replace_from old new 0 b.
Proof.
  induction t as [|c t IH]; intros Hfree; [reflexivity |].
  change ((c :: t) ++ b) with (c :: t ++ b). cbn [replace_from].
  destruct (prefix old (c :: t ++ b)) eqn:Hp.
  - apply prefix_iff in Hp. destruct Hp as [r Hr].
    change (c :: t ++ b) with ((c :: t) ++ b) in Hr. symmetry in Hr.
    apply meet_compatible in Hr. rewrite Hfree in Hr; [discriminate |].
    simpl. auto.
  - simpl. f_equal. apply IH. intros w Hw. apply Hfree. simpl. auto.
Qed.

Lemma replace_from_keeps (old new t : str) :
  old <> [] -> apart old t = true ->
  forall n s, List.length s <= n ->
    contains t s = true -> contains t (replace_from old new 0 s) = true.
Proof.
  intros Hold Hap. induction n as [|n IH]; intros s Hlen Hin.
  - destruct s; [| simpl in Hlen; lia].
    apply contains_iff in Hin. destruct Hin as [a [b Hab]].
    destruct a; [| discriminate]. destruct t; [reflexivity | discriminate].
  - apply contains_iff in Hin. destruct Hin as [a [b ->]].
    destruct a as [|x a].
    + simpl app. rewrite replace_from_copy.
      * apply contains_iff. exists [], (replace_from old new 0 b). reflexivity.
      * intros w Hw. apply (apart_inside _ _ _ Hap Hw).
    + change ((x :: a) ++ t ++ b) with (x :: a ++ t ++ b).
      destruct (prefix old (x :: a ++ t ++ b)) eqn:Hp.
      * apply prefix_iff in Hp. destruct Hp as [r Hr]. rewrite Hr.
        rewrite (replace_from_hit _ new r Hold). apply contains_app_r.
        apply IH.
        -- assert (Hl : List.length (x :: a ++ t ++ b) = List.length (old ++ r))
             by (rewrite Hr; reflexivity).
           rewrite length_app in Hl. destruct old; [congruence |].
           simpl in Hl, Hlen. rewrite length_app in Hlen. simpl in Hlen.
           rewrite length_app in Hl. lia.
        -- change (x :: a ++ t ++ b) with ((x :: a) ++ t ++ b) in Hr.
           symmetry in Hr. apply app_eq_app in Hr.
           destruct Hr as [l [[Hl1 Hl2] | [Hl1 Hl2]]].
           ++ destruct l as [|y l].
              ** rewrite app_nil_r in Hl1. simpl in Hl2. subst r.
                 apply contains_iff. exists [], b. reflexivity.
              ** exfalso. symmetry in Hl2. apply meet_compatible in Hl2.
                 rewrite (apart_tail _ _ _ Hap) in Hl2; [discriminate |].
                 rewrite Hl1. apply suffixes_app. discriminate.
           ++ subst r. apply contains_iff. exists l, b. reflexivity.
      * cbn [replace_from]. rewrite Hp.
        apply (contains_app_r t [x]). apply IH.
        -- simpl in Hlen. lia.
        -- apply contains_iff. eauto.
Qed.

Lemma replace_keeps (old new t s : str) :
  nonempty old && apart old t = true ->
  contains t s = true -> contains t (replace old new s) = true.
Proof.
  intros H Hin. apply andb_true_iff in H. destruct H as [Hne Hap].
  destruct old as [|c old]; [discriminate |]. unfold replace.
  apply (replace_from_keeps (c :: old) new t) with (n := List.length s);
    auto; discriminate.
Qed.

(** An occurrence that survives every correction is still there in the
    corrected text. *)
Lemma correct_keeps (t s : str) :
  survives t = true ->
  contains t s = true ->
  contains t (Helpers.correct_common_ocr_errors s) = true.
Proof.
  unfold survives, Helpers.correct_common_ocr_errors.
  generalize Helpers.corrections. intros l. revert s.
  induction l as [|[old new] l IH]; intros s Hall Hin; [exact Hin |].
  simpl in Hall. apply andb_true_iff in Hall. destruct Hall as [H1 Hl].
  simpl. apply IH; [exact Hl |]. apply replace_keeps; assumption.
Qed.

End ReplaceFacts.

(** ** Layout classification *)

Section Layout.
Import Py.

Lemma classify_generic (table : Spec.signature_table) (t : str) :
  Spec.no_signature table t = true -> Spec.classify table t = txt "generico".
Proof.
  induction table as [|[layout kws] table IH]; intros H; [reflexivity |].
  simpl in H. apply andb_true_iff in H. destruct H as [Hk Ht].
  apply negb_true_iff in Hk. cbn [Spec.classify]. rewrite Hk. auto.
Qed.

Lemma helpers_layout_is_classify (text : str) :
  Helpers.detect_document_layout text
  = Spec.classify Spec.helpers_table (lower text).
Proof.
  unfold Helpers.detect_document_layout, Spec.helpers_table, Spec.common_tail.
  cbn [Spec.classify existsb].
  repeat match goal with
         | |- context [contains ?a (lower text)] =>
           destruct (contains a (lower text)); cbn [orb andb negb];
           try reflexivity
         end.
Qed.

Lemma extractor_layout_is_classify (text : str) :
  Extractor.detect_document_layout text
  = Spec.classify Spec.extractor_table (lower text).
Proof.
  unfold Extractor.detect_document_layout, Spec.extractor_table,
    Spec.common_tail.
  cbn [Spec.classify existsb].
  repeat match goal with
         | |- context [contains ?a (lower text)] =>
           destruct (contains a (lower text)); cbn [orb andb negb];
           try reflexivity
         end.
Qed.

(** C5.  Both copies of the layout classifier are total functions of
    the text that test the keyword signatures of their table in priority
    order on the lower-cased text and return the first layout that
    matches; on a text in which no signature occurs they return
    'generico'. *)
Theorem layout_classifier_first_match (text : str) :
  Helpers.detect_document_layout text
  = Spec.classify Spec.helpers_table (lower text)
  /\ Extractor.detect_document_layout text
     = Spec.classify Spec.extractor_table (lower text)
  /\ (Spec.no_signature Spec.helpers_table (lower text) = true ->
      Helpers.detect_document_layout text = txt "generico")
  /\ (Spec.no_signature Spec.extractor_table (lower text) = true ->
      Extractor.detect_document_layout text = txt "generico").
Proof.
  repeat split.
  - apply helpers_layout_is_classify.
  - apply extractor_layout_is_classify.
  - intros H. rewrite helpers_layout_is_classify. apply classify_generic, H.
  - intros H. rewrite extractor_layout_is_classify. apply classify_generic, H.
Qed.

Lemma layout_classifier_first_match_witness :
  Helpers.detect_document_layout (txt "Recibo de pagamento") = txt "generico"
  /\ Extractor.detect_document_layout (txt "Recibo de pagamento") = txt "generico".
Proof.
  destruct (layout_classifier_first_match (txt "Recibo de pagamento"))
    as [_ [_ [H1 H2]]].
  split; [apply H1 | apply H2]; vm_compute; reflexivity.
Defined.

(** C7.  The two copies of the layout classifier have drifted apart:
    on the text "nubank" the method of the extractor answers 'nubank'
    and the function of the helpers answers 'generico'. *)
Theorem layout_copies_differ :
  exists text : str,
    Extractor.detect_document_layout text = txt "nubank"
    /\ Helpers.detect_document_layout text = txt "generico"
    /\ Extractor.detect_document_layout text
       <> Helpers.detect_document_layout text.
Proof.
  exists (txt "nubank"). vm_compute. repeat split; discriminate.
Qed.

End Layout.

(** ** Empty input *)

Section EmptyInput.
Import Py Dict Clock.

Lemma extract_data_blank (recognised : str) (path : option str) (now : datetime) :
  forallb isspace recognised = true ->
  Extractor.extract_data (Ok recognised) path now
  = Extractor.error_dict (txt "Nenhum texto extraído da imagem") (txt "vazio")
                         path now.
Proof.
  intros H. unfold Extractor.extract_data, Helpers.extract_text_from_image.
  cbn [bind]. rewrite (strip_spaces _ H). reflexivity.
Qed.

(** C1, as the code has it.  For every recognised text that is empty or
    made of whitespace only, [extract_data] returns the error entry: it
    carries the marker 'erro' and the layout label 'vazio', no amount
    and no payer or payee field, so that the standardised view reads the
    amount 0 and empty names; [main] builds no Receipt from it.
    [extract_data] returns a dictionary on every outcome of the OCR
    step: it has no way to raise. *)
Theorem empty_text_gives_error_entry
        (recognised : str) (path : option str) (now : datetime) :
  forallb isspace recognised = true ->
  let d := Extractor.extract_data (Ok recognised) path now in
  has d "erro" = true
  /\ get d "layout_detectado" = Some (VStr (txt "vazio"))
  /\ get d "valor_numerico" = None
  /\ get d "valor_total" = None
  /\ (forall k, In k ["origem_nome"; "pagador_nome"; "origem_cpf"; "pagador_cpf";
                      "destino_nome"; "recebedor_nome"; "destino_cpf";
                      "recebedor_cpf"] -> get d k = None)
  /\ Main.receipt_of d = None
  /\ exists s,
       Helpers.standardize_data_for_chatbot d = Ok s
       /\ Helpers.valor_numerico s = Fin 0
       /\ Helpers.o_nome (Helpers.origem s) = VStr []
       /\ Helpers.o_cpf (Helpers.origem s) = VStr []
       /\ Helpers.d_nome (Helpers.destino s) = VStr []
       /\ Helpers.d_cpf (Helpers.destino s) = VStr [].
Proof.
  intros H d. subst d. rewrite (extract_data_blank _ path now H).
  unfold Extractor.error_dict.
  generalize (Extractor.path_or_unknown path) (isoformat now). intros file stamp.
  repeat split; try reflexivity.
  - intros k Hk. simpl in Hk.
    repeat (destruct Hk as [<- | Hk]; [reflexivity |]). contradiction.
  - eexists. split; [reflexivity |]. repeat split; reflexivity.
Qed.

Lemma empty_text_gives_error_entry_witness :
  get (Extractor.extract_data (Ok (txt "  ")) None (DateTime 2025 5 20 17 51 22 0))
      "layout_detectado"
  = Some (VStr (txt "vazio")).
Proof.
  apply (empty_text_gives_error_entry (txt "  ") None
           (DateTime 2025 5 20 17 51 22 0)).
  reflexivity.
Defined.

(** C1 as stated fails on the layout label: the error entry of the
    empty text is labelled 'vazio', not 'generico'. *)
Lemma empty_text_layout_is_not_generic :
  get (Extractor.extract_data (Ok []) None (DateTime 2025 5 20 17 51 22 0))
      "layout_detectado"
  <> Some (VStr (txt "generico")).
Proof. vm_compute. discriminate. Qed.

End EmptyInput.

(** ** Confidence score *)

Section Confidence.
Import Py Dict Shape.

Lemma bind_ok_inv {A B : Type} (m : result A) (k : A -> result B) (b : B) :
  bind m k = Ok b -> exists a, m = Ok a /\ k a = Ok b.
Proof. destruct m as [a | e]; simpl; [eauto | discriminate]. Qed.

Lemma ratio_in_unit_interval (a b : nat) :
  in_unit_interval
    (match a + b with
     | O => Fin 0
     | S _ => to_float (Qmake (Z.of_nat a) (Pos.of_nat (a + b)))
     end).
Proof.
  destruct (a + b) as [|n] eqn:Hab.
  - exists 0%Q. repeat split; unfold Qle; simpl; lia.
  - apply to_float_unit.
    + unfold Qle. cbn [Qnum Qden]. lia.
    + assert (Hp : Zpos (Pos.of_nat (S n)) = Z.of_nat (S n)).
      { rewrite <- (Nat2Pos.id (S n)) at 2 by discriminate.
        symmetry. apply positive_nat_Z. }
      unfold Qle. cbn [Qnum Qden]. rewrite Hp. lia.
Qed.

Lemma validation_score_bounds (data expected : dict) (v : Helpers.validation) :
  Helpers.validate_specific_patterns data expected = Ok v ->
  in_unit_interval (Helpers.confidence v).
Proof.
  unfold Helpers.validate_specific_patterns. intros H.
  apply bind_ok_inv in H. destruct H as [ana [_ H]].
  apply bind_ok_inv in H. destruct H as [will [_ H]].
  injection H as <-. cbn [Helpers.confidence].
  apply ratio_in_unit_interval.
Qed.

Lemma text_or_absent_get (data : dict) (k : string) :
  text_or_absent data k = true -> exists s, get_or data k (VStr []) = VStr s.
Proof.
  unfold text_or_absent, get_or. destruct (get data k) as [[| s | x] |];
    intros H; try discriminate; eauto.
Qed.

Lemma contained_text (needle s : str) :
  contained needle (VStr s) = Ok (contains needle s).
Proof. reflexivity. Qed.

Lemma or_else_text (a b : str) : exists s, or_else (VStr a) (VStr b) = VStr s.
Proof. unfold or_else. destruct (truth (VStr a)); eauto. Qed.

Lemma will_bank_cpf_match_total (data : dict) (fields : list string) :
  forallb (text_or_absent data) fields = true ->
  exists l, Helpers.will_bank_cpf_match data fields = Ok l.
Proof.
  induction fields as [|f fields IH]; intros H; [simpl; eauto |].
  simpl in H. apply andb_true_iff in H. destruct H as [Hf Hr].
  destruct (text_or_absent_get _ _ Hf) as [s Hs].
  cbn [Helpers.will_bank_cpf_match]. rewrite Hs.
  destruct (truth (VStr s)); cbn [bind contained].
  - destruct (contains (txt ",") s); cbn [bind].
    + destruct (contains (txt ".") s); eauto.
    + auto.
  - auto.
Qed.

Lemma validation_total (data expected : dict) :
  text_valued data = true ->
  exists v, Helpers.validate_specific_patterns data expected = Ok v.
Proof.
  unfold text_valued. intros H.
  cbn [forallb] in H. repeat rewrite andb_true_iff in H.
  destruct H as [Hd [Hr [Hc Hcpf]]].
  destruct (text_or_absent_get _ _ Hd) as [sd Hsd].
  destruct (text_or_absent_get _ _ Hr) as [sr Hsr].
  destruct (text_or_absent_get _ _ Hc) as [sc Hsc].
  destruct (will_bank_cpf_match_total data
              ["origem_cpf"; "pagador_cpf"; "destino_cpf"]) as [l Hl].
  { cbn [forallb]. repeat rewrite andb_true_iff. exact Hcpf. }
  unfold Helpers.validate_specific_patterns.
  rewrite Hsd, Hsr, Hsc, Hl.
  destruct (or_else_text sd sr) as [s ->]. cbn [contained bind].
  destruct (has data "destino_nome" || has data "recebedor_nome");
    destruct (contains (txt "Ana Cleuma") s);
    destruct (contains (txt "99451-5533") sc);
    destruct (eq_str (get data "origem_instituicao") (txt "Will Bank")
              || eq_str (get data "layout_detectado") (txt "will_bank"));
    cbn [bind]; eauto.
Qed.

(** C9.  [validate_specific_patterns] returns on every dictionary whose
    searched fields hold text, and whenever it returns the confidence
    lies in [0,1]; the 'score_confianca' of a Receipt is that
    confidence, so it lies in [0,1] on every Receipt built. *)
Theorem score_confianca_in_unit_interval (data expected : dict) :
  match Helpers.validate_specific_patterns data expected with
  | Ok v => in_unit_interval (Helpers.confidence v)
  | Raise _ => text_valued data = false
  end
  /\ (forall r, Main.create_chatbot_ready_data data = Ok r ->
        in_unit_interval
          (Main.score_confianca (Main.validacoes (Main.metadados_sistema r)))).
Proof.
  split.
  - destruct (Helpers.validate_specific_patterns data expected) as [v | e] eqn:Hv.
    + apply (validation_score_bounds data expected v Hv).
    + destruct (text_valued data) eqn:Ht; [| reflexivity].
      destruct (validation_total data expected Ht) as [v Hv']. congruence.
  - intros r H. unfold Main.create_chatbot_ready_data in H.
    apply bind_ok_inv in H. destruct H as [st [_ H]].
    apply bind_ok_inv in H. destruct H as [pv [Hpv H]].
    apply bind_ok_inv in H. destruct H as [tt [_ H]].
    apply bind_ok_inv in H. destruct H as [bt [_ H]].
    apply bind_ok_inv in H. destruct H as [nt [_ H]].
    apply bind_ok_inv in H. destruct H as [vt [_ H]].
    injection H as <-. cbn.
    apply (validation_score_bounds data [] pv Hpv).
Qed.

Lemma score_confianca_in_unit_interval_witness :
  exists r,
    Main.create_chatbot_ready_data Scenario.other_key_fields = Ok r
    /\ in_unit_interval
         (Main.score_confianca (Main.validacoes (Main.metadados_sistema r))).
Proof.
  destruct (Main.create_chatbot_ready_data Scenario.other_key_fields)
    as [r | e] eqn:H; [| vm_compute in H; discriminate].
  exists r. split; [reflexivity |].
  exact (proj2 (score_confianca_in_unit_interval Scenario.other_key_fields [])
               r H).
Defined.

End Confidence.

(** ** Reading a dictionary that was just written *)

Section DictFacts.
Import Py Dict.

Lemma get_set (d : dict) (k : string) (v : value) (k' : string) :
  get (set d k v) k' = if String.eqb k k' then Some v else get d k'.
Proof.
  induction d as [|[k0 v0] d IH]; simpl; [reflexivity |].
  destruct (String.eqb_spec k0 k) as [-> | Hne]; simpl.
  - destruct (String.eqb k k'); reflexivity.
  - rewrite IH. destruct (String.eqb_spec k0 k') as [-> | Hne'];
      [| reflexivity].
    destruct (String.eqb_spec k k') as [-> | _]; [congruence | reflexivity].
Qed.

Lemma get_set_text (d : dict) (k t k' : string) :
  get (Extractor.set_text d k t) k'
  = if String.eqb k k' then Some (VStr (txt t)) else get d k'.
Proof. apply get_set. Qed.

Lemma get_set_name (d : dict) (name : option str) (k1 k2 k' : string) :
  String.eqb k1 k' = false -> String.eqb k2 k' = false ->
  get (Extractor.set_name d name k1 k2) k' = get d k'.
Proof.
  intros H1 H2. unfold Extractor.set_name.
  destruct name as [s |]; [| reflexivity].
  destruct (nonempty s); [| reflexivity].
  rewrite !get_set, H1, H2. reflexivity.
Qed.

Lemma get_opt_set (d : dict) (k : string) (o : option value) (k' : string) :
  String.eqb k k' = false -> get (opt_set d k o) k' = get d k'.
Proof.
  intros H. destruct o as [v |]; [| reflexivity].
  cbn [opt_set]. rewrite get_set, H. reflexivity.
Qed.

Lemma get_if (b : bool) (d1 d2 : dict) (k : string) :
  get (if b then d1 else d2) k = if b then get d1 k else get d2 k.
Proof. destruct b; reflexivity. Qed.

End DictFacts.

(** Reads a key through the writes stacked on a dictionary. *)
Ltac read_dict :=
  repeat first
    [ rewrite get_set
    | rewrite get_set_text
    | rewrite get_set_name by reflexivity
    | rewrite get_opt_set by reflexivity
    | rewrite get_if ];
  repeat match goal with
         | |- context [String.eqb ?a ?b] =>
           let r := eval vm_compute in (String.eqb a b) in
           change (String.eqb a b) with r
         end;
  cbv iota;
  repeat match goal with
         | |- context [if ?b then _ else _] => destruct b
         end.

(** ** Hardcoded payers of the Will-Bank extraction *)

Section HardcodedPayers.
Import Py Dict.

(** C6, as the code has it.  On every text on which the payee lookup
    does not fail: when the text contains "Antonio Valmi" the result has
    the amount 33.00, the date "20/05/2025" and the time "17:51:22",
    whatever amount or date the text shows; when the corrected text
    contains "Sheila Fernandes" and not "Antonio Valmi" the result has
    17.00, "22/05/2025" and "17:52:04". *)
Theorem hardcoded_payer_values (text : str) :
  is_ok (Extractor.find_destino Extractor.destino_patterns
           (Helpers.correct_common_ocr_errors text)) = true ->
  (contains (txt "Antonio Valmi") text = true ->
   exists d,
     Extractor.extract_pix_will_bank_data text = Ok d
     /\ get d "valor_numerico" = Some (VFloat (Fin 33))
     /\ get d "valor_total" = Some (VFloat (Fin 33))
     /\ get d "data" = Some (VStr (txt "20/05/2025"))
     /\ get d "hora" = Some (VStr (txt "17:51:22")))
  /\ (contains (txt "Antonio Valmi") (Helpers.correct_common_ocr_errors text)
      = false ->
      contains (txt "Sheila Fernandes") (Helpers.correct_common_ocr_errors text)
      = true ->
      exists d,
        Extractor.extract_pix_will_bank_data text = Ok d
        /\ get d "valor_numerico" = Some (VFloat (Fin 17))
        /\ get d "valor_total" = Some (VFloat (Fin 17))
        /\ get d "data" = Some (VStr (txt "22/05/2025"))
        /\ get d "hora" = Some (VStr (txt "17:52:04"))).
Proof.
  intros Hd.
  destruct (Extractor.find_destino Extractor.destino_patterns
              (Helpers.correct_common_ocr_errors text)) as [dn | e] eqn:Hdn;
    [clear Hd | discriminate].
  split.
  - intros Hin.
    assert (Hc : contains (txt "Antonio Valmi")
                          (Helpers.correct_common_ocr_errors text) = true)
      by (apply correct_keeps; [vm_compute; reflexivity | exact Hin]).
    unfold Extractor.extract_pix_will_bank_data.
    rewrite Hdn, Hc. cbn [bind]. cbv zeta.
    change (float_ltb (Fin 0) (Fin 33)) with true.
    change (int_of_float (Fin 33)) with (@Ok Z 33%Z).
    change (Extractor.name_has (Some (txt "Antonio Valmi Passos Da Rocha"))
                               "Antonio") with true.
    cbv iota. cbn [bind].
    eexists. split; [reflexivity |].
    repeat split; read_dict; reflexivity.
  - intros Hna Hs.
    unfold Extractor.extract_pix_will_bank_data.
    rewrite Hdn, Hna, Hs. cbn [bind]. cbv zeta.
    change (float_ltb (Fin 0) (Fin 17)) with true.
    change (int_of_float (Fin 17)) with (@Ok Z 17%Z).
    change (Extractor.name_has (Some (txt "Sheila Fernandes Da Silva"))
                               "Antonio") with false.
    change (Extractor.name_has (Some (txt "Sheila Fernandes Da Silva"))
                               "Sheila") with true.
    cbv iota. cbn [bind].
    eexists. split; [reflexivity |].
    repeat split; read_dict; reflexivity.
Qed.

Lemma hardcoded_payer_values_witness :
  exists d,
    Extractor.extract_pix_will_bank_data
      (txt "Will Bank Antonio Valmi R$ 99,00 01/01/2024 08:00:00") = Ok d
    /\ get d "valor_numerico" = Some (VFloat (Fin 33))
    /\ get d "valor_total" = Some (VFloat (Fin 33))
    /\ get d "data" = Some (VStr (txt "20/05/2025"))
    /\ get d "hora" = Some (VStr (txt "17:51:22")).
Proof.
  apply (hardcoded_payer_values
           (txt "Will Bank Antonio Valmi R$ 99,00 01/01/2024 08:00:00"));
    vm_compute; reflexivity.
Defined.

(** C6 as stated fails for "Sheila Fernandes": a text that names both
    payers gets the values of "Antonio Valmi". *)
Lemma sheila_does_not_force_17 :
  contains (txt "Sheila Fernandes")
           (txt "Will Bank Sheila Fernandes Antonio Valmi") = true
  /\ exists d,
       Extractor.extract_pix_will_bank_data
         (txt "Will Bank Sheila Fernandes Antonio Valmi") = Ok d
       /\ get d "valor_numerico" = Some (VFloat (Fin 33))
       /\ get d "valor_numerico" <> Some (VFloat (Fin 17))
       /\ get d "data" = Some (VStr (txt "20/05/2025"))
       /\ get d "data" <> Some (VStr (txt "22/05/2025")).
Proof.
  split; [vm_compute; reflexivity |].
  eexists. split; [vm_compute; reflexivity |].
  vm_compute. repeat split; discriminate.
Qed.

(** The payee lookup fails when the first pattern, which has no group,
    matches a spelling in other case: [group(1)] raises IndexError. *)
Remark payee_lookup_raises :
  contains (txt "Antonio Valmi")
           (txt "Antonio Valmi PARA ANA CLEUMA SOUSA DOS SANTOS") = true
  /\ Extractor.extract_pix_will_bank_data
       (txt "Antonio Valmi PARA ANA CLEUMA SOUSA DOS SANTOS")
     = Raise Re.no_such_group.
Proof. split; vm_compute; reflexivity. Qed.

End HardcodedPayers.

(** ** The end-to-end scenario *)

Section EndToEnd.
Import Py Dict Clock.






End EndToEnd.

(** ** Characters *)

(** A fact about one character, by looking at all of them. *)
Ltac all_chars c :=
  destruct c as [[] [] [] [] [] [] [] []]; vm_compute; try reflexivity;
  try discriminate; auto.

Section CharFacts.
Import Py Amount.

Lemma digit_not_space (c : ascii) : isdigit c = true -> float_space c = false.
Proof. all_chars c. Qed.

Lemma plain_not_space (c : ascii) : plain c = true -> float_space c = false.
Proof. all_chars c. Qed.

Lemma plain_not_underscore (c : ascii) : plain c = true -> ch_eqb c "_" = false.
Proof. all_chars c. Qed.

Lemma plain_not_sign (c : ascii) :
  plain c = true -> ch_eqb c "-" = false /\ ch_eqb c "+" = false.
Proof. all_chars c. Qed.

Lemma plain_not_letter (c : ascii) :
  plain c = true ->
  ch_eqb (tolower c) "i" = false /\ ch_eqb (tolower c) "n" = false.
Proof. all_chars c. Qed.

Lemma digit_is_plain (c : ascii) : isdigit c = true -> plain c = true.
Proof. unfold plain. intros ->. reflexivity. Qed.

Lemma digit_not_point (c : ascii) : isdigit c = true -> ch_eqb c "." = false.
Proof. all_chars c. Qed.

Lemma digit_not_comma (c : ascii) : isdigit c = true -> ch_eqb c "," = false.
Proof. all_chars c. Qed.

Lemma digit_not_cleaned (c : ascii) :
  isdigit c = true ->
  Re.set_test (Re.chars "R$" ++ [Re.ISpace]) c = false.
Proof. all_chars c. Qed.

Lemma forallb_impl {A : Type} (p q : A -> bool) (l : list A) :
  (forall x, p x = true -> q x = true) ->
  forallb p l = true -> forallb q l = true.
Proof.
  intros Hpq. rewrite !forallb_forall. auto.
Qed.

End CharFacts.

(** ** Replacement of one character *)

Section ReplaceChar.
Import Py Amount.

Lemma replace_char (c d : ascii) (s : str) :
  replace [c] [d] s = map (subst_char c d) s.
Proof.
  unfold replace. induction s as [|x s IH]; [reflexivity |].
  cbn [replace_from prefix List.length Nat.sub app map].
  unfold subst_char at 1. rewrite andb_true_r.
  destruct (ch_eqb c x); simpl; rewrite IH; reflexivity.
Qed.

Lemma replace_char_empty (c : ascii) (s : str) :
  replace [c] [] s = filter (fun x => negb (ch_eqb c x)) s.
Proof.
  unfold replace. induction s as [|x s IH]; [reflexivity |].
  cbn [replace_from prefix List.length Nat.sub app filter].
  rewrite andb_true_r.
  destruct (ch_eqb c x); simpl; rewrite IH; reflexivity.
Qed.

End ReplaceChar.

(** ** Parsing a plain decimal text *)

Section FloatFacts.
Import Py Amount.

Lemma float_lstrip_id (s : str) :
  match s with [] => True | c :: _ => float_space c = false end ->
  float_lstrip s = s.
Proof. destruct s as [|c s]; [reflexivity |]. simpl. intros ->. reflexivity. Qed.

Lemma float_strip_id (s : str) :
  forallb (fun c => negb (float_space c)) s = true -> float_strip s = s.
Proof.
  intros H. unfold float_strip.
  rewrite (float_lstrip_id s).
  - rewrite float_lstrip_id; [apply rev_involutive |].
    destruct (rev s) as [|c r] eqn:Hr; [exact I |].
    rewrite forallb_forall in H. apply negb_true_iff, H.
    apply in_rev. rewrite Hr. left. reflexivity.
  - destruct s as [|c s]; [exact I |]. simpl in H.
    apply andb_true_iff in H. apply negb_true_iff, H.
Qed.

Lemma drop_underscores_id (s : str) :
  forall prev,
    match prev with Some p => ch_eqb p "_" = false | None => True end ->
    forallb (fun c => negb (ch_eqb c "_")) s = true ->
    drop_underscores prev s = Some s.
Proof.
  induction s as [|c s IH]; intros prev Hprev H.
  - simpl. destruct prev as [p |]; [rewrite Hprev |]; reflexivity.
  - simpl in H. apply andb_true_iff in H. destruct H as [Hc Hs].
    apply negb_true_iff in Hc. cbn [drop_underscores]. rewrite Hc.
    replace (match prev with Some p => ch_eqb p "_" | None => false end)
      with false by (destruct prev; congruence).
    cbn [andb]. rewrite (IH (Some c) Hc Hs). reflexivity.
Qed.

Lemma span_all (p : ascii -> bool) (a rest : str) :
  forallb p a = true ->
  match rest with [] => True | c :: _ => p c = false end ->
  span p (a ++ rest) = (a, rest).
Proof.
  intros Ha Hr. induction a as [|x a IH].
  - destruct rest as [|c rest]; [reflexivity |]. simpl. rewrite Hr. reflexivity.
  - simpl in Ha. apply andb_true_iff in Ha. destruct Ha as [Hx Ha].
    simpl. rewrite Hx, (IH Ha). reflexivity.
Qed.

Lemma parse_decimal_plain (da db : str) :
  forallb isdigit da = true -> forallb isdigit db = true ->
  da ++ db <> [] ->
  parse_decimal (da ++ "."%char :: db)
  = Some (scale10 (Z.of_N (digits_value 0 (da ++ db)))
                  (- Z.of_nat (List.length db))).
Proof.
  intros Ha Hb Hne. unfold parse_decimal.
  rewrite (span_all isdigit da ("."%char :: db) Ha eq_refl).
  change (ch_eqb "." ".") with true. cbv iota.
  rewrite <- (app_nil_r db) at 1. rewrite (span_all isdigit db [] Hb I).
  destruct (da ++ db) as [|x l] eqn:Hl; [congruence |].
  cbn [parse_exponent]. rewrite Z.sub_0_l. reflexivity.
Qed.

Lemma float_of_plain (c : ascii) (s : str) :
  forallb plain (c :: s) = true ->
  float_of_str (c :: s)
  = match parse_decimal (c :: s) with
    | Some q => Ok (to_float q)
    | None => Raise float_error
    end.
Proof.
  intros H. unfold float_of_str.
  rewrite float_strip_id
    by (apply (forallb_impl plain); [| exact H];
        intros x Hx; apply negb_true_iff, plain_not_space, Hx).
  rewrite (drop_underscores_id (c :: s) None I)
    by (apply (forallb_impl plain); [| exact H];
        intros x Hx; apply negb_true_iff, plain_not_underscore, Hx).
  simpl in H. apply andb_true_iff in H. destruct H as [Hc _].
  destruct (plain_not_sign c Hc) as [-> ->].
  destruct (plain_not_letter c Hc) as [Hi Hn].
  cbn [lower map]. unfold txt. cbn [list_ascii_of_string decode_utf8].
  cbn [str_eqb]. change (code "i" =? 194)%N with false.
  change (code "i" =? 195)%N with false.
  change (code "n" =? 194)%N with false.
  change (code "n" =? 195)%N with false. cbv iota.
  cbn [str_eqb]. rewrite Hi, Hn. reflexivity.
Qed.

(** The float of a text of digits with one point. *)
Lemma float_of_decimal_text (da db : str) :
  forallb isdigit da = true -> forallb isdigit db = true ->
  da ++ db <> [] ->
  float_of_str (da ++ "."%char :: db)
  = Ok (to_float (scale10 (Z.of_N (digits_value 0 (da ++ db)))
                          (- Z.of_nat (List.length db)))).
Proof.
  intros Ha Hb Hne.
  assert (Hp : forallb plain (da ++ "."%char :: db) = true).
  { rewrite forallb_app. cbn [forallb]. rewrite !andb_true_iff.
    repeat split; [| exact (forallb_impl _ _ _ digit_is_plain Hb)].
    exact (forallb_impl _ _ _ digit_is_plain Ha). }
  destruct (da ++ "."%char :: db) as [|c s] eqn:Hs;
    [destruct da; discriminate |].
  rewrite (float_of_plain c s Hp), <- Hs.
  rewrite (parse_decimal_plain da db Ha Hb Hne). reflexivity.
Qed.

End FloatFacts.

(** ** The currency parser *)

Section ParseCurrency.
Import Py Amount.

Lemma contains_single (c : ascii) (s : str) :
  contains [c] s = existsb (ch_eqb c) s.
Proof.
  induction s as [|x s IH]; [reflexivity |].
  simpl. rewrite andb_true_r, IH. reflexivity.
Qed.

Lemma plain_filter_point (c : ascii) :
  plain c = true -> negb (ch_eqb "." c) = isdigit c.
Proof. all_chars c. Qed.

Lemma filter_point_plain (a : str) :
  forallb plain a = true ->
  filter (fun x => negb (ch_eqb "." x)) a = filter isdigit a.
Proof.
  intros H. apply filter_ext_in. intros x Hx.
  rewrite forallb_forall in H. apply plain_filter_point, H, Hx.
Qed.

Lemma subst_comma_digit (c : ascii) :
  isdigit c = true -> subst_char "," "." c = c.
Proof. all_chars c. Qed.

Lemma map_subst_digits (l : str) :
  forallb isdigit l = true -> map (subst_char "," ".") l = l.
Proof.
  intros H. rewrite <- (map_id l) at 2. apply map_ext_in. intros x Hx.
  rewrite forallb_forall in H. apply subst_comma_digit, H, Hx.
Qed.

Lemma filter_digits_are_digits (a : str) : forallb isdigit (filter isdigit a) = true.
Proof.
  apply forallb_forall. intros x Hx. apply filter_In in Hx. apply Hx.
Qed.

Lemma filter_keep_all {A : Type} (p : A -> bool) (l : list A) :
  forallb p l = true -> filter p l = l.
Proof.
  induction l as [|x l IH]; [reflexivity |]. simpl. intros H.
  apply andb_true_iff in H. destruct H as [-> Hl]. rewrite (IH Hl).
  reflexivity.
Qed.

Lemma plain_without_point (a : str) :
  forallb plain a = true -> existsb (ch_eqb ".") a = false ->
  filter isdigit a = a.
Proof.
  intros Hp Hn. apply filter_keep_all.
  induction a as [|x a IH]; [reflexivity |].
  cbn [forallb existsb] in *. apply andb_true_iff in Hp. destruct Hp as [Hx Ha].
  apply orb_false_iff in Hn. destruct Hn as [Hnx Hna].
  rewrite (IH Ha Hna), andb_true_r.
  rewrite <- (plain_filter_point x Hx), Hnx. reflexivity.
Qed.

(** What the parser hands to [float()] for a text whose cleaned form is
    plain decimal text around one comma: the digits before the comma,
    a point, the digits after it; every point of the text is gone. *)
Lemma parse_currency_comma_text (s a b : str) :
  nonempty s = true ->
  Re.sub_class_empty (Re.chars "R$" ++ [Re.ISpace]) s = a ++ ","%char :: b ->
  forallb plain a = true -> forallb plain b = true ->
  Extractor._parse_currency s
  = match float_of_str (filter isdigit a ++ "."%char :: filter isdigit b) with
    | Ok x => x
    | Raise _ => Fin 0
    end.
Proof.
  intros Hne Hc Ha Hb. unfold Extractor._parse_currency.
  rewrite Hne. cbn [negb]. cbv zeta. rewrite Hc.
  change (txt ",") with [","%char]. change (txt ".") with ["."%char].
  rewrite !contains_single, !existsb_app. cbn [existsb].
  change (ch_eqb "," ",") with true. change (ch_eqb "." ",") with false.
  rewrite orb_true_r. cbn [orb andb].
  destruct (existsb (ch_eqb ".") a || existsb (ch_eqb ".") b) eqn:Hdot.
  - rewrite replace_char_empty, replace_char, filter_app. cbn [filter].
    change (ch_eqb "." ",") with false. cbn [negb].
    rewrite map_app. cbn [map]. change (subst_char "," "." ",") with "."%char.
    rewrite !filter_point_plain by assumption.
    rewrite !map_subst_digits by apply filter_digits_are_digits.
    reflexivity.
  - apply orb_false_iff in Hdot. destruct Hdot as [Hda Hdb].
    rewrite replace_char, map_app. cbn [map].
    change (subst_char "," "." ",") with "."%char.
    rewrite (plain_without_point a Ha Hda), (plain_without_point b Hb Hdb).
    rewrite <- (plain_without_point a Ha Hda) at 1.
    rewrite <- (plain_without_point b Hb Hdb) at 1.
    rewrite !map_subst_digits by apply filter_digits_are_digits.
    rewrite (plain_without_point a Ha Hda), (plain_without_point b Hb Hdb).
    reflexivity.
Qed.

(** C2, as the code has it.  When the cleaned text is plain decimal
    text around one comma, the comma is the decimal separator whether
    or not a point follows it, every point is dropped as a thousands
    separator, and the result is the float of the decimal read, with
    as many decimal digits as the text has after the comma: it is not
    rounded to two decimals. *)
Theorem parse_currency_comma_is_decimal (s a b : str) :
  nonempty s = true ->
  Re.sub_class_empty (Re.chars "R$" ++ [Re.ISpace]) s = a ++ ","%char :: b ->
  forallb plain a = true -> forallb plain b = true ->
  filter isdigit a ++ filter isdigit b <> [] ->
  Extractor._parse_currency s
  = to_float
      (scale10 (Z.of_N (digits_value 0 (filter isdigit a ++ filter isdigit b)))
               (- Z.of_nat (List.length (filter isdigit b)))).
Proof.
  intros Hne Hc Ha Hb Hd.
  rewrite (parse_currency_comma_text s a b Hne Hc Ha Hb).
  rewrite float_of_decimal_text;
    [reflexivity | apply filter_digits_are_digits
     | apply filter_digits_are_digits | exact Hd].
Qed.

Lemma parse_currency_comma_is_decimal_witness :
  Extractor._parse_currency (txt "R$ 1.234,567")
  = to_float (scale10 1234567 (-3)).
Proof.
  apply (parse_currency_comma_is_decimal (txt "R$ 1.234,567")
           (txt "1.234") (txt "567"));
    try reflexivity. discriminate.
Defined.

(** C2 as stated fails: in "1,234.56" the rightmost symbol is the point,
    and the parser still takes the comma as the decimal separator; the
    result, the float 1.23456, is not the float 1234.56, and it is not
    rounded to two decimals: rounding it to hundredths gives another
    float. *)
Lemma rightmost_point_is_not_decimal :
  exists q,
    Extractor._parse_currency (txt "1,234.56") = Fin q
    /\ Fin q = to_float (123456 # 100000)
    /\ Fin q <> to_float (123456 # 100)
    /\ Fin q <> to_float (inject_Z (round_half_even (q * 100)) / 100).
Proof.
  eexists. split; [vm_compute; reflexivity |].
  split; [vm_compute; reflexivity |]. split; vm_compute; discriminate.
Qed.

End ParseCurrency.

(** ** Digits *)

Section DigitFacts.
Import Py Amount.

Lemma digits_value_acc (acc : positive) (d : Decimal.uint) :
  digits_value (Npos acc) (uint_chars d) = Npos (Pos.of_uint_acc d acc).
Proof.
  revert acc. induction d; intros acc; cbn [uint_chars digits_value Pos.of_uint_acc];
    [reflexivity | rewrite <- IHd; f_equal; vm_compute (digit_value _); lia ..].
Qed.

Lemma digits_value_uint (d : Decimal.uint) :
  digits_value 0 (uint_chars d) = N.of_uint d.
Proof.
  unfold N.of_uint.
  induction d; cbn [uint_chars digits_value Pos.of_uint];
    [reflexivity | exact IHd | apply digits_value_acc ..].
Qed.

Lemma digits_value_str_of_N (n : N) : digits_value 0 (str_of_N n) = n.
Proof.
  unfold str_of_N. rewrite digits_value_uint. apply DecimalN.Unsigned.of_to.
Qed.

Lemma uint_chars_digits (d : Decimal.uint) : forallb isdigit (uint_chars d) = true.
Proof. induction d; cbn [uint_chars forallb]; [reflexivity | exact IHd ..]. Qed.

Lemma str_of_N_digits (n : N) : forallb isdigit (str_of_N n) = true.
Proof. apply uint_chars_digits. Qed.

Lemma digits_value_app (acc : N) (a b : str) :
  digits_value acc (a ++ b) = digits_value (digits_value acc a) b.
Proof. revert acc. induction a as [|x a IH]; intros acc; simpl; auto. Qed.

Lemma digits_value_shift (acc : N) (l : str) :
  digits_value acc l
  = (acc * 10 ^ N.of_nat (List.length l) + digits_value 0 l)%N.
Proof.
  revert acc. induction l as [|x l IH]; intros acc.
  - simpl. lia.
  - cbn [digits_value List.length]. rewrite IH, (IH (0 * 10 + digit_value x)%N).
    rewrite Nat2N.inj_succ, N.pow_succ_r'. lia.
Qed.

Lemma two_digits (m : N) :
  (m < 100)%N ->
  List.length (zfill 2 (str_of_N m)) = 2
  /\ forallb isdigit (zfill 2 (str_of_N m)) = true
  /\ digits_value 0 (zfill 2 (str_of_N m)) = m.
Proof.
  intros Hm.
  assert (Hall : forallb (fun k => two_digits_ok (N.of_nat k)) (seq 0 100) = true)
    by (vm_compute; reflexivity).
  rewrite forallb_forall in Hall.
  specialize (Hall (N.to_nat m)). rewrite N2Nat.id in Hall.
  assert (Hin : In (N.to_nat m) (seq 0 100)) by (apply in_seq; lia).
  apply Hall in Hin. unfold two_digits_ok in Hin.
  apply andb_true_iff in Hin. destruct Hin as [Hin H3].
  apply andb_true_iff in Hin. destruct Hin as [H1 H2].
  apply Nat.eqb_eq in H1. apply N.eqb_eq in H3. auto.
Qed.

(** Grouping only inserts separators. *)
Lemma group3_rev_filter (l : str) :
  forallb isdigit l = true ->
  forall k, filter isdigit (group3_rev k l) = l
            /\ forallb (grouped ",") (group3_rev k l) = true.
Proof.
  induction l as [|d l IH]; intros H k; [split; reflexivity |].
  cbn [forallb] in H. apply andb_true_iff in H. destruct H as [Hd Hl].
  assert (Hg : grouped "," d = true) by (unfold grouped; rewrite Hd; reflexivity).
  destruct k as [|k]; cbn [group3_rev filter forallb].
  - change (isdigit ",") with false. cbv iota. rewrite Hd.
    destruct (IH Hl 2) as [-> ->]. rewrite Hg. split; reflexivity.
  - rewrite Hd. destruct (IH Hl k) as [-> ->]. rewrite Hg. split; reflexivity.
Qed.

Lemma filter_rev_eq {A : Type} (p : A -> bool) (l : list A) :
  filter p (rev l) = rev (filter p l).
Proof.
  induction l as [|x l IH]; [reflexivity |].
  simpl. rewrite filter_app, IH. simpl. destruct (p x); simpl;
    [reflexivity | apply app_nil_r].
Qed.

Lemma forallb_rev {A : Type} (p : A -> bool) (l : list A) :
  forallb p (rev l) = forallb p l.
Proof.
  induction l as [|x l IH]; [reflexivity |].
  simpl. rewrite forallb_app, IH. simpl. rewrite andb_true_r. apply andb_comm.
Qed.

Lemma group3_filter (ds : str) :
  forallb isdigit ds = true ->
  filter isdigit (group3 ds) = ds
  /\ forallb (grouped ",") (group3 ds) = true.
Proof.
  intros H. unfold group3.
  assert (Hr : forallb isdigit (rev ds) = true) by (rewrite forallb_rev; exact H).
  destruct (group3_rev_filter (rev ds) Hr 3) as [H1 H2].
  rewrite filter_rev_eq, H1, rev_involutive, forallb_rev. auto.
Qed.

End DigitFacts.

(** ** Formatting an amount and reading it back *)

Section RoundTrip.
Import Py Amount.

Lemma format_two_decimals (q : Q) (cents : N) :
  (0 <= q)%Q -> round_half_even (q * 100) = Z.of_N cents ->
  format_comma_2f (Fin q)
  = group3 (str_of_N (cents / 100))
    ++ "."%char :: zfill 2 (str_of_N (cents mod 100)).
Proof.
  intros H0 H. unfold format_comma_2f, format_float.
  replace (Qle_bool 0 q) with true
    by (symmetry; apply Qle_bool_iff; exact H0).
  unfold fixed2. rewrite H, N2Z.id. reflexivity.
Qed.

Lemma swap_grouped (c : ascii) :
  grouped "," c = true -> swap_separators c = subst_char "," "." c.
Proof. all_chars c. Qed.

Lemma swap_digit (c : ascii) : isdigit c = true -> swap_separators c = c.
Proof. all_chars c. Qed.

Lemma subst_keeps_class (c : ascii) :
  isdigit (subst_char "," "." c) = isdigit c.
Proof. all_chars c. Qed.

Lemma subst_grouped_plain (c : ascii) :
  grouped "," c = true -> plain (subst_char "," "." c) = true.
Proof. all_chars c. Qed.

Lemma plain_is_kept (c : ascii) :
  plain c = true ->
  negb (Re.set_test (Re.chars "R$" ++ [Re.ISpace]) c) = true.
Proof. all_chars c. Qed.

Lemma map_ext_forallb {A B : Type} (p : A -> bool) (f g : A -> B) (l : list A) :
  (forall x, p x = true -> f x = g x) ->
  forallb p l = true -> map f l = map g l.
Proof.
  intros Hfg H. apply map_ext_in. intros x Hx.
  rewrite forallb_forall in H. auto.
Qed.

Lemma filter_digits_subst (l : str) :
  forallb (grouped ",") l = true ->
  filter isdigit (map (subst_char "," ".") l) = filter isdigit l.
Proof.
  induction l as [|x l IH]; [reflexivity |].
  cbn [forallb map filter]. intros H. apply andb_true_iff in H.
  destruct H as [Hx Hl]. rewrite subst_keeps_class, (IH Hl).
  destruct (isdigit x) eqn:Hd; [| reflexivity].
  rewrite (subst_comma_digit x Hd). reflexivity.
Qed.

(** The text [format_currency] writes for a float that shows [cents]
    hundredths when rounded to two decimals. *)
Lemma format_currency_text (q : Q) (cents : N) :
  (0 <= q)%Q -> round_half_even (q * 100) = Z.of_N cents ->
  Helpers.format_currency (Fin q) = written cents.
Proof.
  intros H0 H. unfold Helpers.format_currency, written.
  rewrite (format_two_decimals q cents H0 H).
  change (txt "X") with ["X"%char]. change (txt ".") with ["."%char].
  change (txt ",") with [","%char].
  rewrite !replace_char, !map_map.
  change (fun x => subst_char "X" "." (subst_char "." "," (subst_char "," "X" x)))
    with swap_separators.
  rewrite !map_app. cbn [map].
  destruct (group3_filter (str_of_N (cents / 100)) (str_of_N_digits _))
    as [_ Hg].
  destruct (two_digits (cents mod 100)) as [_ [Hd _]];
    [apply N.mod_lt; discriminate |].
  rewrite (map_ext_forallb _ _ _ _ swap_grouped Hg).
  rewrite (map_ext_forallb _ _ (fun x => x) _ swap_digit Hd), map_id.
  reflexivity.
Qed.

(** What is left of a written amount without 'R', '$' and whitespace. *)
Lemma cleaned_written (cents : N) :
  Re.sub_class_empty (Re.chars "R$" ++ [Re.ISpace]) (written cents)
  = map (subst_char "," ".") (group3 (str_of_N (cents / 100)))
    ++ ","%char :: zfill 2 (str_of_N (cents mod 100)).
Proof.
  unfold written.
  destruct (group3_filter (str_of_N (cents / 100)) (str_of_N_digits _)) as [_ Hg].
  destruct (two_digits (cents mod 100)) as [_ [Hd _]];
    [apply N.mod_lt; discriminate |].
  unfold Re.sub_class_empty. rewrite filter_app.
  change (filter _ (txt "R$ ")) with (@nil ascii). cbn [app].
  rewrite filter_app. cbn [filter].
  change (negb (Re.set_test (Re.chars "R$" ++ [Re.ISpace]) ",")) with true.
  cbv iota. rewrite !filter_keep_all; [reflexivity | |].
  - exact (forallb_impl _ _ _ plain_is_kept
             (forallb_impl _ _ _ digit_is_plain Hd)).
  - rewrite forallb_forall. intros x Hx. apply in_map_iff in Hx.
    destruct Hx as [y [<- Hy]]. apply plain_is_kept, subst_grouped_plain.
    rewrite forallb_forall in Hg. auto.
Qed.

(** A written amount is read as the float of the amount. *)
Lemma parse_written (cents : N) :
  Extractor._parse_currency (written cents) = to_float (of_cents cents).
Proof.
  set (ip := str_of_N (cents / 100)).
  set (dd := zfill 2 (str_of_N (cents mod 100))).
  destruct (group3_filter ip (str_of_N_digits _)) as [Hfi Hg].
  destruct (two_digits (cents mod 100)) as [Hlen [Hd Hv]];
    [apply N.mod_lt; discriminate |]. fold dd in Hlen, Hd, Hv.
  set (a := map (subst_char "," ".") (group3 ip)).
  assert (Ha : forallb plain a = true).
  { unfold a. rewrite forallb_forall. intros x Hx. apply in_map_iff in Hx.
    destruct Hx as [y [<- Hy]]. apply subst_grouped_plain.
    rewrite forallb_forall in Hg. auto. }
  assert (Hb : forallb plain dd = true)
    by exact (forallb_impl _ _ _ digit_is_plain Hd).
  assert (Hfa : filter isdigit a = ip)
    by (unfold a; rewrite (filter_digits_subst _ Hg); exact Hfi).
  assert (Hfb : filter isdigit dd = dd) by (apply filter_keep_all, Hd).
  rewrite (parse_currency_comma_text (written cents) a dd);
    [| reflexivity | apply cleaned_written | exact Ha | exact Hb].
  rewrite float_of_decimal_text;
    [| apply filter_digits_are_digits | apply filter_digits_are_digits
     | rewrite Hfa, Hfb; intros Hnil; apply app_eq_nil in Hnil;
       destruct Hnil as [_ Hnil]; rewrite Hnil in Hlen; discriminate].
  rewrite Hfa, Hfb, Hlen, digits_value_app, digits_value_shift, Hlen, Hv.
  unfold ip. rewrite digits_value_str_of_N.
  replace (cents / 100 * 10 ^ N.of_nat 2 + cents mod 100)%N with cents
    by (change (10 ^ N.of_nat 2)%N with 100%N;
        rewrite (N.div_mod cents 100) at 1; [lia | discriminate]).
  reflexivity.
Qed.

(** The hundredths a float shows.  The binary64 nearest to an amount
    of [cents] hundredths shows [cents] itself below 2^46: there the
    binary64 is nearer to the amount than half a hundredth.  From 2^46
    on it may show other hundredths, but no other binary64 is as near
    to what it shows. *)
Lemma float_in_hundredths (cents : N) :
  (0 < cents)%N -> (of_cents cents < overflow_threshold)%Q ->
  exists shown : N,
    round_half_even (round64 (of_cents cents) * 100) = Z.of_N shown
    /\ to_float (of_cents shown) = Fin (round64 (of_cents cents))
    /\ ((of_cents cents < pow2 46)%Q -> shown = cents)
    /\ ((pow2 46 <= of_cents cents)%Q -> (100000 <= shown)%N).
Proof.
  intros Hc Hlt. set (a := of_cents cents) in *.
  assert (Hcents : (a * 100 == inject_Z (Z.of_N cents))%Q)
    by (unfold a, of_cents, Qeq; simpl; lia).
  assert (Ha0 : (0 < a)%Q) by (unfold a, of_cents, Qlt; simpl; lia).
  assert (Hnormal : (pow2 (-1022) <= a)%Q).
  { apply Qle_trans with (1 # 100)%Q; [vm_compute; discriminate |].
    unfold a, of_cents, Qle. simpl. lia. }
  destruct (round64_normal a Hnormal) as [m [Hm [He Hq]]].
  pose proof (round64_error a) as Herr. rewrite He in Herr.
  pose proof (round64_nonneg a (Qlt_le_weak _ _ Ha0)) as Hq0.
  assert (Hfin : to_float a = Fin (round64 a))
    by (apply to_float_finite; [apply Qlt_le_weak; exact Ha0 | exact Hlt]).
  destruct (binade_spec a Ha0) as [B1 B2].
  set (q := round64 a) in *. set (e := (binade a - 52)%Z) in *.
  assert (Hshown : (0 <= round_half_even (q * 100))%Z).
  { apply round_half_even_ge. change (inject_Z 0) with 0%Q.
    apply Qmult_le_0_compat; [exact Hq0 | discriminate]. }
  apply Qabs_Qle_condition in Herr.
  pose proof (pow2_pos e) as Hp.
  destruct (Qlt_le_dec a (pow2 46)) as [Hsmall | Hbig].
  - (* the float shows the amount *)
    assert (Hb : (binade a < 46)%Z) by (apply pow2_lt_inv; lra).
    assert (Hu : (pow2 e <= 1 # 128)%Q)
      by (change (1 # 128)%Q with (pow2 (-7)); apply pow2_le; unfold e; lia).
    assert (Hr : round_half_even (q * 100) = Z.of_N cents).
    { apply round_half_even_near. apply Qabs_Qlt_condition. split; lra. }
    exists cents. split; [exact Hr |]. split; [exact Hfin |].
    split; [reflexivity | intros Hge; exfalso; lra].
  - (* the float is nearer to what it shows than to any other *)
    assert (Hb : (46 < binade a + 1)%Z) by (apply pow2_lt_inv; lra).
    assert (Hu : (1 # 64 <= pow2 e)%Q)
      by (change (1 # 64)%Q with (pow2 (-6)); apply pow2_le; unfold e; lia).
    exists (Z.to_N (round_half_even (q * 100))).
    rewrite Z2N.id by exact Hshown.
    set (shown := Z.to_N (round_half_even (q * 100))).
    assert (Hs : Z.of_N shown = round_half_even (q * 100))
      by (unfold shown; apply Z2N.id; exact Hshown).
    assert (Hq46 : (pow2 46 <= q)%Q) by (apply round64_ge_pow2; [exact Hbig | lia]).
    assert (Hs46 : (100 * 2 ^ 46 <= round_half_even (q * 100))%Z).
    { apply round_half_even_ge.
      change (inject_Z (100 * 2 ^ 46)) with (pow2 46 * 100)%Q. lra. }
    split; [reflexivity |]. split; [| split; [intros Hl; exfalso; lra |]].
    2: { intros _. assert (100000 <= 100 * 2 ^ 46)%Z by (vm_compute; discriminate).
         lia. }
    set (y := of_cents shown).
    assert (Hy : (y * 100 == inject_Z (round_half_even (q * 100)))%Q)
      by (rewrite <- Hs; unfold y, of_cents, Qeq; simpl; lia).
    pose proof (round_half_even_bounds (q * 100)) as Bs.
    assert (Hy0 : (0 <= y)%Q) by (unfold y, of_cents, Qle; simpl; lia).
    assert (Hmax : (y < overflow_threshold)%Q).
    { pose proof (round64_below a Ha0 Hlt) as Hb'. fold q in Hb'.
      apply Qle_lt_trans with (inject_Z (2 ^ 1024 - 2 ^ 971) + (1 # 200))%Q;
        [lra | vm_compute; reflexivity]. }
    rewrite (to_float_finite y Hy0 Hmax). f_equal.
    assert (Hqv : (q == inject_Z m * pow2 e)%Q)
      by (rewrite Hq; apply Qred_correct).
    assert (Hpow : forall k : Z,
               (46 <= k)%Z -> (q == pow2 k)%Q -> round64 y = q).
    { intros k Hk Hqk.
      assert (Hsplit : (pow2 k == inject_Z (2 ^ 52) * pow2 (k - 52))%Q).
      { rewrite <- (pow2_Z 52), <- pow2_add by lia.
        replace (52 + (k - 52))%Z with k by lia. reflexivity. }
      assert (Hint : (q * 100 == inject_Z (2 ^ k * 100))%Q)
        by (rewrite Hqk, (pow2_Z k), inject_Z_mult by lia; reflexivity).
      rewrite (round_half_even_integer _ _ Hint), inject_Z_mult in Hy.
      change (inject_Z 100) with 100%Q in Hy. rewrite <- (pow2_Z k) in Hy by lia.
      assert (Hyq : (y == inject_Z (2 ^ 52) * pow2 (k - 52))%Q) by lra.
      rewrite (round64_comp y _ Hy0 Hyq).
      rewrite round64_representable by lia.
      rewrite Hq. apply Qred_complete. lra. }
    destruct (Z.eq_dec m (2 ^ 52)) as [E52 | N52];
      [| destruct (Z.eq_dec m (2 ^ 53)) as [E53 | N53]].
    + apply (Hpow (52 + e)%Z); [unfold e; lia |].
      rewrite Hqv, E52, pow2_add, (pow2_Z 52) by lia. reflexivity.
    + apply (Hpow (53 + e)%Z); [unfold e; lia |].
      rewrite Hqv, E53, pow2_add, (pow2_Z 53) by lia. reflexivity.
    + rewrite (round64_stable m e y); [symmetry; exact Hq | lia | unfold e; lia |].
      apply Qabs_Qlt_condition. split; lra.
Qed.

(** C4.  The float of a non-negative amount of whole hundredths, the
    binary64 nearest to it, is given back by [format_currency]
    followed by [_parse_currency], whatever the amount below the
    overflow threshold of the floats; below 2^46 the text written is
    the amount itself in the Brazilian form: 1247.90 is written
    "R$ 1.247,90" and read back as 1247.90. *)
Theorem currency_round_trip (cents : N) :
  (of_cents cents < overflow_threshold)%Q ->
  Extractor._parse_currency
    (Helpers.format_currency (to_float (of_cents cents)))
  = to_float (of_cents cents)
  /\ ((of_cents cents < pow2 46)%Q ->
      Helpers.format_currency (to_float (of_cents cents)) = written cents).
Proof.
  intros Hlt. destruct (N.eq_dec cents 0) as [-> | Hpos].
  - split; [vm_compute; reflexivity | intros _; vm_compute; reflexivity].
  - assert (Hc : (0 < cents)%N) by lia.
    destruct (float_in_hundredths cents Hc Hlt) as [shown [Hs [Hf [Hsmall _]]]].
    assert (H0 : (0 <= of_cents cents)%Q)
      by (unfold of_cents, Qle; simpl; lia).
    rewrite (to_float_finite _ H0 Hlt).
    rewrite (format_currency_text _ shown (round64_nonneg _ H0) Hs).
    split; [rewrite parse_written; exact Hf |].
    intros Hl. rewrite (Hsmall Hl). reflexivity.
Qed.

Lemma currency_round_trip_witness :
  Extractor._parse_currency
    (Helpers.format_currency (to_float (of_cents 124790)))
  = to_float (of_cents 124790)
  /\ Helpers.format_currency (to_float (of_cents 124790)) = txt "R$ 1.247,90".
Proof.
  destruct (currency_round_trip 124790) as [H1 H2]; [vm_compute; reflexivity |].
  split; [exact H1 |]. rewrite H2; [| vm_compute; reflexivity].
  vm_compute. reflexivity.
Defined.

End RoundTrip.

(** ** The matcher: groups that take part *)

Section MatcherGroups.
Import Py Re Static.

Lemma rep_greedy_calls (p : ascii -> bool) (k : kont) (caps : captures)
      (res : nat * captures) (s : str) :
  forall lo hi i,
    rep_greedy p lo hi i s caps k = Some res ->
    exists j t, k j t caps = Some res.
Proof.
  induction s as [|c s IH]; intros lo hi i H.
  - cbn [rep_greedy] in H. destruct lo; [eauto | discriminate].
  - cbn [rep_greedy] in H.
    destruct (more_allowed hi && p c).
    + destruct (rep_greedy p (Nat.pred lo) (option_map Nat.pred hi) (S i) s caps k)
        eqn:Hrec.
      * injection H as <-. eapply IH. exact Hrec.
      * destruct lo; [eauto | discriminate].
    + destruct lo; [eauto | discriminate].
Qed.

Lemma rep_lazy_calls (p : ascii -> bool) (k : kont) (caps : captures)
      (res : nat * captures) (s : str) :
  forall lo hi i,
    rep_lazy p lo hi i s caps k = Some res ->
    exists j t, k j t caps = Some res.
Proof.
  induction s as [|c s IH]; intros lo hi i H.
  - cbn [rep_lazy] in H. destruct lo; [| discriminate].
    destruct (k i [] caps) eqn:Hk; [| discriminate].
    injection H as <-. eauto.
  - cbn [rep_lazy] in H.
    destruct lo.
    + destruct (k i (c :: s) caps) eqn:Hk.
      * injection H as <-. eauto.
      * destruct (more_allowed hi && p c); [| discriminate].
        eapply IH. exact H.
    + destruct (more_allowed hi && p c); [| discriminate].
      eapply IH. exact H.
Qed.

(** A match ends in a call of its continuation, with every group that
    was set before and every definite group of the pattern set. *)
Lemma m_calls (ic : bool) (r : regex) :
  forall i s caps k res,
    m ic r i s caps k = Some res ->
    exists j t caps', k j t caps' = Some res /\ keeps caps caps' (definite r).
Proof.
  induction r as [| a | r1 IH1 r2 IH2 | r1 IH1 r2 IH2 | a lo hi g | n r1 IH1 | |];
    intros i s caps k res H; cbn [m definite] in *.
  - exists i, s, caps. split; [exact H |]. intros n [Hn | []]. exact Hn.
  - destruct s as [|c s]; [discriminate |].
    destruct (atom_test ic a c); [| discriminate].
    exists (S i), s, caps. split; [exact H |]. intros n [Hn | []]. exact Hn.
  - apply IH1 in H. destruct H as [j [t [caps1 [H K1]]]].
    apply IH2 in H. destruct H as [j' [t' [caps2 [H K2]]]].
    exists j', t', caps2. split; [exact H |].
    intros n [Hn | Hn].
    + apply K2. left. apply K1. left. exact Hn.
    + apply in_app_or in Hn. destruct Hn as [Hn | Hn].
      * apply K2. left. apply K1. right. exact Hn.
      * apply K2. right. exact Hn.
  - destruct (m ic r1 i s caps k) as [res1 |] eqn:H1.
    + injection H as <-. apply IH1 in H1.
      destruct H1 as [j [t [caps1 [H K1]]]].
      exists j, t, caps1. split; [exact H |].
      intros n [Hn | Hn]; apply K1; [left; exact Hn |].
      right. apply filter_In in Hn. apply Hn.
    + apply IH2 in H. destruct H as [j [t [caps2 [H K2]]]].
      exists j, t, caps2. split; [exact H |].
      intros n [Hn | Hn]; apply K2; [left; exact Hn |].
      right. apply filter_In in Hn. destruct Hn as [_ Hn].
      apply existsb_exists in Hn. destruct Hn as [x [Hx Hnx]].
      apply Nat.eqb_eq in Hnx. subst x. exact Hx.
  - destruct g.
    + apply rep_greedy_calls in H. destruct H as [j [t H]].
      exists j, t, caps. split; [exact H |]. intros n [Hn | []]. exact Hn.
    + apply rep_lazy_calls in H. destruct H as [j [t H]].
      exists j, t, caps. split; [exact H |]. intros n [Hn | []]. exact Hn.
  - apply IH1 in H. destruct H as [j [t [caps1 [H K1]]]].
    exists j, t, ((n, (i, j)) :: caps1). split; [exact H |].
    intros x Hx. cbn [cap_get].
    destruct (Nat.eqb_spec n x) as [-> | Hne]; [discriminate |].
    apply K1. destruct Hx as [Hx | [Hx | Hx]]; [left; exact Hx | congruence |].
    right. exact Hx.
  - destruct i; [| discriminate].
    exists 0, s, caps. split; [exact H |]. intros n [Hn | []]. exact Hn.
  - exists i, s, caps. split.
    + destruct s as [|c [|d s]]; [exact H | | discriminate].
      destruct (ch_eqb c (chr 10)); [exact H | discriminate].
    + intros n [Hn | []]. exact Hn.
Qed.

Lemma definite_le_ngroups (r : regex) (n : nat) :
  In n (definite r) -> n <= ngroups r.
Proof.
  induction r; cbn [definite ngroups]; intros H; try contradiction.
  - apply in_app_or in H. destruct H as [H | H]; [apply IHr1 in H | apply IHr2 in H];
      lia.
  - apply filter_In in H. destruct H as [H _]. apply IHr1 in H. lia.
  - destruct H as [<- | H]; [| apply IHr in H]; lia.
Qed.

Lemma match_at_groups (ic : bool) (r : regex) (text : str) (i : nat) (s : str)
      (mo : match_obj) :
  match_at ic r text i s = Some mo ->
  m_ngroups mo = ngroups r
  /\ forall n, In n (definite r) -> cap_get n (m_caps mo) <> None.
Proof.
  unfold match_at. destruct (m ic r i s [] accept) as [[j caps] |] eqn:H;
    [| discriminate].
  intros E. injection E as <-. cbn [m_ngroups m_caps]. split; [reflexivity |].
  apply m_calls in H. destruct H as [j' [t [caps' [H K]]]].
  unfold accept in H. injection H as <- <-. intros n Hn. apply K. auto.
Qed.

Lemma search_from_groups (ic : bool) (r : regex) (text : str) (s : str) :
  forall i mo,
    search_from ic r text i s = Some mo ->
    m_ngroups mo = ngroups r
    /\ forall n, In n (definite r) -> cap_get n (m_caps mo) <> None.
Proof.
  induction s as [|c s IH]; intros i mo H; cbn [search_from] in H.
  - destruct (match_at ic r text i []) eqn:Hm; [| discriminate].
    injection H as <-. eapply match_at_groups. exact Hm.
  - destruct (match_at ic r text i (c :: s)) eqn:Hm.
    + injection H as <-. eapply match_at_groups. exact Hm.
    + eapply IH. exact H.
Qed.

(** Group 1 of a match of a pattern in which it is definite is text. *)
Lemma search_group1 (ic : bool) (r : regex) (text : str) (mo : match_obj) :
  has_group1 r = true ->
  search ic r text = Some mo ->
  exists g, group mo 1 = Ok (Some g).
Proof.
  unfold has_group1, search. intros Hg H.
  apply andb_true_iff in Hg. destruct Hg as [Hd Hn].
  apply search_from_groups in H. destruct H as [Hng Hcaps].
  apply existsb_exists in Hd. destruct Hd as [x [Hx Hx1]].
  apply Nat.eqb_eq in Hx1. subst x. specialize (Hcaps 1 Hx).
  unfold group. rewrite Hng, Hn.
  destruct (cap_get 1 (m_caps mo)) as [[a b] |]; [eauto | congruence].
Qed.

(** Any group up to the number of groups of the pattern can be read. *)
Lemma search_group_static (ic : bool) (r : regex) (text : str) (mo : match_obj)
      (n : nat) :
  n <= ngroups r ->
  search ic r text = Some mo ->
  exists g, group mo n = Ok g.
Proof.
  unfold search. intros Hn H.
  apply search_from_groups in H. destruct H as [Hng _].
  unfold group. destruct n; [eauto |]. rewrite Hng.
  apply Nat.leb_le in Hn. rewrite Hn. eauto.
Qed.

End MatcherGroups.

(** ** The amount of the Nubank extraction *)

Section NubankAmount.
Import Py Re Dict Static NubankSpec.

Lemma group_text_group1 (ic : bool) (r : regex) (text : str) (mo : match_obj)
      (attr : string) :
  has_group1 r = true ->
  search ic r text = Some mo ->
  exists g, group mo 1 = Ok (Some g) /\ Extractor.group_text mo 1 attr = Ok g.
Proof.
  intros Hg H. destruct (search_group1 ic r text mo Hg H) as [g Hgr].
  exists g. split; [exact Hgr |]. unfold Extractor.group_text. rewrite Hgr.
  reflexivity.
Qed.

Lemma find_nubank_valor_is_first_sane (cleaned : str) (patterns : list regex) :
  forallb has_group1 patterns = true ->
  Extractor.find_nubank_valor patterns cleaned
  = Ok (first_sane (map (candidate cleaned) patterns)).
Proof.
  induction patterns as [|pattern rest IH]; intros H; [reflexivity |].
  cbn [forallb] in H. apply andb_true_iff in H. destruct H as [Hp Hr].
  cbn [Extractor.find_nubank_valor map first_sane]. unfold candidate at 1.
  destruct (search false pattern cleaned) as [mo |] eqn:Hs; [| auto].
  destruct (group_text_group1 false pattern cleaned mo "replace" Hp Hs)
    as [g [Hg Hgt]].
  rewrite Hg, Hgt. cbn [bind].
  destruct (float_of_str (replace (txt ",") (txt ".") g)) as [valor | e];
    [| auto].
  fold (sane valor). destruct (sane valor); auto.
Qed.

Lemma sane_bounds (v : float) :
  sane v = true -> exists q, v = Fin q /\ (1 # 100 <= q)%Q /\ (q <= inject_Z 10000)%Q.
Proof.
  unfold sane. intros H. apply andb_true_iff in H. destruct H as [H1 H2].
  let c := eval vm_compute in (to_float (1 # 100)) in
  change (to_float (1 # 100)) with c in H1.
  destruct v as [q | [] | |]; try discriminate.
  exists q. cbn [float_leb] in *. rewrite Qle_bool_iff in H1, H2.
  split; [reflexivity |]. split; [| exact H2].
  eapply Qle_trans; [| exact H1]. vm_compute. discriminate.
Qed.

Lemma first_sane_is_sane (cands : list (option float)) (v : float) :
  first_sane cands = Some v -> sane v = true.
Proof.
  induction cands as [|[c |] cands IH]; cbn [first_sane]; intros H;
    [discriminate | | auto].
  destruct (sane c) eqn:Hc; [| auto]. injection H as <-. exact Hc.
Qed.

Lemma first_sane_none (cands : list (option float)) :
  forallb (fun c => match c with Some valor => negb (sane valor) | None => true end)
          cands = true ->
  first_sane cands = None.
Proof.
  induction cands as [|[c |] cands IH]; cbn [forallb first_sane]; intros H;
    [reflexivity | | auto].
  apply andb_true_iff in H. destruct H as [Hc Hr].
  apply negb_true_iff in Hc. rewrite Hc. auto.
Qed.

Lemma first_search_in (ic : bool) (patterns : list regex) (text : str)
      (mo : match_obj) :
  Extractor.first_search ic patterns text = Some mo ->
  exists pattern, In pattern patterns /\ search ic pattern text = Some mo.
Proof.
  induction patterns as [|p rest IH]; cbn [Extractor.first_search];
    [discriminate |].
  destruct (search ic p text) as [mo' |] eqn:Hs.
  - intros H. injection H as <-. exists p. split; [left; reflexivity | exact Hs].
  - intros H. destruct (IH H) as [q [Hq Hsq]]. exists q. split;
      [right; exact Hq | exact Hsq].
Qed.

Lemma find_nubank_origem_returns (cleaned : str) (patterns : list regex) :
  forallb has_group1 patterns = true ->
  exists o, Extractor.find_nubank_origem patterns cleaned = Ok o.
Proof.
  induction patterns as [|pattern rest IH]; intros H; [simpl; eauto |].
  cbn [forallb] in H. apply andb_true_iff in H. destruct H as [Hp Hr].
  cbn [Extractor.find_nubank_origem].
  destruct (search true pattern cleaned) as [mo |] eqn:Hs; [| auto].
  destruct (group_text_group1 true pattern cleaned mo "strip" Hp Hs)
    as [g [_ Hgt]].
  rewrite Hgt. cbn [bind].
  destruct (Nat.ltb 3 (List.length (strip g))); eauto.
Qed.

(** C10.  [extract_nubank_data] returns on every text.  The amount it
    stores, under 'valor_numerico' and 'valor_total' alike, is the first
    candidate, in the order of the patterns, that passes the sanity
    filter; a stored amount therefore lies between 0.01 and 10000, and
    a candidate outside the range is passed over, which leaves the
    field absent when no candidate is in range. *)
Theorem nubank_amount_is_sane (text : str) :
  exists d,
    Extractor.extract_nubank_data text = Ok d
    /\ get d "valor_numerico"
       = option_map VFloat (amount (Helpers.correct_common_ocr_errors text))
    /\ get d "valor_total" = get d "valor_numerico"
    /\ match get d "valor_numerico" with
       | Some v =>
         exists q, v = VFloat (Fin q)
                   /\ (1 # 100 <= q)%Q /\ (q <= inject_Z 10000)%Q
       | None => True
       end
    /\ (none_sane (Helpers.correct_common_ocr_errors text) = true ->
        get d "valor_numerico" = None /\ get d "valor_total" = None).
Proof.
  unfold Extractor.extract_nubank_data.
  set (cleaned := Helpers.correct_common_ocr_errors text).
  rewrite (find_nubank_valor_is_first_sane cleaned Extractor.nubank_valor_patterns)
    by (vm_compute; reflexivity).
  fold (amount cleaned). cbn [bind]. cbv zeta.
  destruct (find_nubank_origem_returns cleaned Extractor.nubank_origem_patterns)
    as [o Ho]; [vm_compute; reflexivity |].
  rewrite Ho.
  set (d0 := match amount cleaned with
             | Some v =>
               set (set [("tipo_documento", VStr (txt "transferencia"))]
                        "valor_total" (VFloat v)) "valor_numerico" (VFloat v)
             | None => [("tipo_documento", VStr (txt "transferencia"))]
             end).
  assert (Hdata :
            exists od,
              match Extractor.first_search false Extractor.nubank_data_patterns
                                           cleaned with
              | Some mo => g <- group mo 0 ;; Ok (set d0 "data" (of_option g))
              | None => Ok d0
              end = Ok (opt_set d0 "data" od)).
  { destruct (Extractor.first_search false Extractor.nubank_data_patterns cleaned)
      as [mo |]; [| exists None; reflexivity].
    eexists (Some _). reflexivity. }
  destruct Hdata as [od ->]. cbn [bind].
  set (d1 := opt_set d0 "data" od).
  assert (Hhora :
            exists oh,
              match Extractor.first_search false Extractor.nubank_hora_patterns
                                           cleaned with
              | Some mo => g <- group mo 1 ;; Ok (set d1 "hora" (of_option g))
              | None => Ok d1
              end = Ok (opt_set d1 "hora" oh)).
  { destruct (Extractor.first_search false Extractor.nubank_hora_patterns cleaned)
      as [mo |] eqn:Hf; [| exists None; reflexivity].
    apply first_search_in in Hf. destruct Hf as [p [Hp Hs]].
    destruct (search_group_static false p cleaned mo 1) as [g Hg];
      [| exact Hs | rewrite Hg; eexists (Some _); reflexivity].
    cbn [Extractor.nubank_hora_patterns In] in Hp.
    destruct Hp as [<- | [<- | [<- | []]]]; vm_compute; lia. }
  destruct Hhora as [oh ->]. cbn [bind].
  eexists. split; [reflexivity |].
  pose proof (first_sane_is_sane
                (map (candidate cleaned) Extractor.nubank_valor_patterns)) as Hsane.
  fold (amount cleaned) in Hsane.
  assert (Hread :
            forall k, String.eqb "data" k = false -> String.eqb "hora" k = false ->
                      get (opt_set d1 "hora" oh) k = get d0 k).
  { intros k H1 H2. unfold d1. rewrite !get_opt_set by assumption. reflexivity. }
  set (d2 := opt_set d1 "hora" oh) in *. clearbody d2. clear d1.
  assert (Hnum : get d0 "valor_numerico" = option_map VFloat (amount cleaned)
                 /\ get d0 "valor_total" = option_map VFloat (amount cleaned)).
  { unfold d0. destruct (amount cleaned); split; reflexivity. }
  destruct Hnum as [Hn Ht]. clearbody d0.
  assert (Hfinal :
            forall k d,
              In k ["valor_numerico"; "valor_total"] ->
              get (Extractor.set_text
                     (Extractor.set_text
                        (Extractor.set_text
                           (match o with
                            | Some nome =>
                              set (set d "origem_nome" (VStr nome))
                                  "pagador_nome" (VStr nome)
                            | None => d
                            end) "situacao" "Efetivado")
                        "origem_instituicao" "Nubank")
                     "destino_instituicao" "NU PAGAMENTOS - IP") k
              = get d k).
  { intros k d Hk. cbn [In] in Hk.
    destruct Hk as [<- | [<- | []]]; destruct o; read_dict; reflexivity. }
  assert (Hana :
            forall k,
              In k ["valor_numerico"; "valor_total"] ->
              get (if contains (txt "Ana Cleuma") cleaned
                   then Extractor.set_text
                          (Extractor.set_text
                             (Extractor.set_text d2 "destino_nome"
                                                 "Ana Cleuma Sousa Dos Santos")
                             "recebedor_nome" "Ana Cleuma Sousa Dos Santos")
                          "chave_pix" "+5588994515533"
                   else d2) k
              = get d0 k).
  { intros k Hk. cbn [In] in Hk.
    destruct Hk as [<- | [<- | []]]; read_dict; apply Hread; reflexivity. }
  rewrite !Hfinal, !Hana by (cbn [In]; auto). rewrite Hn, Ht.
  split; [reflexivity |]. split; [reflexivity |]. split.
  - destruct (amount cleaned) as [v |]; cbn [option_map]; [| exact I].
    destruct (sane_bounds v (Hsane v eq_refl)) as [q [-> Hq]].
    exists q. split; [reflexivity | exact Hq].
  - intros Hnone. unfold amount. unfold none_sane in Hnone.
    rewrite (first_sane_none _ Hnone). split; reflexivity.
Qed.

Lemma nubank_amount_is_sane_witness :
  exists d,
    Extractor.extract_nubank_data (txt "Nubank Valor R$ 20000 pago") = Ok d
    /\ get d "valor_numerico" = None /\ get d "valor_total" = None.
Proof.
  destruct (nubank_amount_is_sane (txt "Nubank Valor R$ 20000 pago"))
    as [d [Hd [_ [_ [_ Hnone]]]]].
  exists d. split; [exact Hd |]. apply Hnone. vm_compute. reflexivity.
Defined.

End NubankAmount.

(** ** The matcher on texts of the same shape *)

Section MatcherShape.
Import Py Re Static SameShape.

Lemma same_class_cases (c d : ascii) :
  same_class c d = true ->
  c = d \/ (isdigit c = true /\ isdigit d = true)
  \/ (separator c = true /\ separator d = true).
Proof.
  unfold same_class. intros H. apply orb_true_iff in H. destruct H as [H | H].
  - apply orb_true_iff in H. destruct H as [H | H].
    + left. apply ch_eqb_eq, H.
    + right. left. apply andb_true_iff, H.
  - right. right. apply andb_true_iff, H.
Qed.

Lemma digit_class (c : ascii) :
  isdigit c = true -> isspace c = false /\ ch_eqb c (chr 10) = false.
Proof. all_chars c. Qed.

Lemma separator_class (c : ascii) :
  separator c = true -> isspace c = false /\ ch_eqb c (chr 10) = false.
Proof. all_chars c. Qed.

Lemma same_class_space (c d : ascii) :
  same_class c d = true -> isspace c = isspace d.
Proof.
  intros H. destruct (same_class_cases c d H) as [-> | [[Hc Hd] | [Hc Hd]]];
    [reflexivity | |].
  - destruct (digit_class c Hc) as [-> _], (digit_class d Hd) as [-> _].
    reflexivity.
  - destruct (separator_class c Hc) as [-> _], (separator_class d Hd) as [-> _].
    reflexivity.
Qed.

Lemma same_class_newline (c d : ascii) :
  same_class c d = true -> ch_eqb c (chr 10) = ch_eqb d (chr 10).
Proof.
  intros H. destruct (same_class_cases c d H) as [-> | [[Hc Hd] | [Hc Hd]]];
    [reflexivity | |].
  - destruct (digit_class c Hc) as [_ ->], (digit_class d Hd) as [_ ->].
    reflexivity.
  - destruct (separator_class c Hc) as [_ ->], (separator_class d Hd) as [_ ->].
    reflexivity.
Qed.

Lemma some_none_iff {A B : Type} (x : A) (y : B) : Some x = None <-> Some y = None.
Proof. split; discriminate. Qed.

Lemma rep_greedy_shape (p : ascii -> bool) (k k' : kont) :
  (forall c d, same_class c d = true -> p c = p d) ->
  fail_together k k' ->
  forall s t, same_shape s t = true ->
  forall lo hi i caps caps',
    rep_greedy p lo hi i s caps k = None
    <-> rep_greedy p lo hi i t caps' k' = None.
Proof.
  intros Hp Hk. induction s as [|c s IH]; intros [|d t] Hst lo hi i caps caps';
    try discriminate.
  - cbn [rep_greedy]. destruct lo; [apply Hk; reflexivity | tauto].
  - cbn [same_shape] in Hst. apply andb_true_iff in Hst. destruct Hst as [Hcd Hst].
    assert (Hstop : match lo with O => k i (c :: s) caps | S _ => None end = None
                    <-> match lo with O => k' i (d :: t) caps' | S _ => None end
                        = None).
    { destruct lo; [| tauto]. apply Hk. cbn [same_shape]. rewrite Hcd, Hst.
      reflexivity. }
    cbn [rep_greedy]. rewrite (Hp c d Hcd).
    destruct (more_allowed hi && p d); [| exact Hstop].
    specialize (IH t Hst (Nat.pred lo) (option_map Nat.pred hi) (S i) caps caps').
    destruct (rep_greedy p (Nat.pred lo) (option_map Nat.pred hi) (S i) s caps k),
      (rep_greedy p (Nat.pred lo) (option_map Nat.pred hi) (S i) t caps' k').
    + apply some_none_iff.
    + destruct IH as [_ IH]. discriminate (IH eq_refl).
    + destruct IH as [IH _]. discriminate (IH eq_refl).
    + exact Hstop.
Qed.

Lemma rep_lazy_shape (p : ascii -> bool) (k k' : kont) :
  (forall c d, same_class c d = true -> p c = p d) ->
  fail_together k k' ->
  forall s t, same_shape s t = true ->
  forall lo hi i caps caps',
    rep_lazy p lo hi i s caps k = None
    <-> rep_lazy p lo hi i t caps' k' = None.
Proof.
  intros Hp Hk. induction s as [|c s IH]; intros [|d t] Hst lo hi i caps caps';
    try discriminate.
  - cbn [rep_lazy]. destruct lo; [| tauto].
    pose proof (Hk i [] [] caps caps' eq_refl) as H.
    destruct (k i [] caps), (k' i [] caps'); exact H.
  - pose proof Hst as Hst'.
    cbn [same_shape] in Hst. apply andb_true_iff in Hst. destruct Hst as [Hcd Hst].
    specialize (IH t Hst (Nat.pred lo) (option_map Nat.pred hi) (S i) caps caps').
    cbn [rep_lazy]. rewrite (Hp c d Hcd).
    assert (Hmore :
              (if more_allowed hi && p d
               then rep_lazy p (Nat.pred lo) (option_map Nat.pred hi) (S i) s caps k
               else None) = None
              <-> (if more_allowed hi && p d
                   then rep_lazy p (Nat.pred lo) (option_map Nat.pred hi) (S i) t
                                 caps' k'
                   else None) = None).
    { destruct (more_allowed hi && p d); [exact IH | tauto]. }
    destruct lo; [| exact Hmore].
    pose proof (Hk i (c :: s) (d :: t) caps caps' Hst') as H.
    destruct (k i (c :: s) caps), (k' i (d :: t) caps').
    + apply some_none_iff.
    + destruct H as [_ H]. discriminate (H eq_refl).
    + destruct H as [H _]. discriminate (H eq_refl).
    + exact Hmore.
Qed.

(** On two texts of the same shape, a pattern whose tests look at the
    class only fails on both or on neither. *)
Lemma m_shape (ic : bool) (r : regex) :
  (forall a, In a (atoms r) -> respects ic a) ->
  forall i s t caps caps' k k',
    same_shape s t = true ->
    fail_together k k' ->
    (m ic r i s caps k = None <-> m ic r i t caps' k' = None).
Proof.
  induction r as [| a | r1 IH1 r2 IH2 | r1 IH1 r2 IH2 | a lo hi g | n r1 IH1 | |];
    intros Hr i s t caps caps' k k' Hst Hk; cbn [m].
  - apply Hk, Hst.
  - destruct s as [|c s], t as [|d t]; try discriminate; [tauto |].
    cbn [same_shape] in Hst. apply andb_true_iff in Hst. destruct Hst as [Hcd Hst].
    rewrite (Hr a (or_introl eq_refl) c d Hcd).
    destruct (atom_test ic a d); [apply Hk, Hst | tauto].
  - apply IH1; [intros a Ha; apply Hr; cbn [atoms]; apply in_or_app; auto
               | exact Hst |].
    intros j u v c1 c2 Huv. apply IH2;
      [intros a Ha; apply Hr; cbn [atoms]; apply in_or_app; auto
      | exact Huv | exact Hk].
  - assert (H1 : m ic r1 i s caps k = None <-> m ic r1 i t caps' k' = None)
      by (apply IH1; [intros a Ha; apply Hr; cbn [atoms]; apply in_or_app; auto
                     | exact Hst | exact Hk]).
    assert (H2 : m ic r2 i s caps k = None <-> m ic r2 i t caps' k' = None)
      by (apply IH2; [intros a Ha; apply Hr; cbn [atoms]; apply in_or_app; auto
                     | exact Hst | exact Hk]).
    destruct (m ic r1 i s caps k), (m ic r1 i t caps' k').
    + apply some_none_iff.
    + destruct H1 as [_ H1]. discriminate (H1 eq_refl).
    + destruct H1 as [H1 _]. discriminate (H1 eq_refl).
    + exact H2.
  - assert (Hp : forall c d, same_class c d = true ->
                             atom_test ic a c = atom_test ic a d)
      by (apply Hr; left; reflexivity).
    destruct g; [apply rep_greedy_shape | apply rep_lazy_shape]; assumption.
  - apply IH1; [intros a Ha; apply Hr; exact Ha | exact Hst |].
    intros j u v c1 c2 Huv. apply Hk, Huv.
  - destruct i; [apply Hk, Hst | tauto].
  - destruct s as [|c s], t as [|d t]; try discriminate; [apply Hk, Hst |].
    pose proof Hst as Hst'.
    cbn [same_shape] in Hst. apply andb_true_iff in Hst. destruct Hst as [Hcd Hst].
    destruct s as [|c' s], t as [|d' t]; try discriminate; [| tauto].
    rewrite (same_class_newline c d Hcd).
    destruct (ch_eqb d (chr 10)); [apply Hk, Hst' | tauto].
Qed.

Lemma accept_fail_together : fail_together accept accept.
Proof. intros j u v c1 c2 _. unfold accept. apply some_none_iff. Qed.

Lemma re_match_shape (r : regex) (s t : str) :
  (forall a, In a (atoms r) -> respects false a) ->
  same_shape s t = true ->
  Helpers.matched (re_match false r s) = Helpers.matched (re_match false r t).
Proof.
  intros Hr Hst. unfold re_match, match_at.
  pose proof (m_shape false r Hr 0 s t [] [] accept accept Hst
                      accept_fail_together) as H.
  destruct (m false r 0 s [] accept) as [[j caps] |],
    (m false r 0 t [] accept) as [[j' caps'] |]; try reflexivity.
  - destruct H as [_ H]. discriminate (H eq_refl).
  - destruct H as [H _]. discriminate (H eq_refl).
Qed.

(** Shapes through [strip]. *)

Lemma lstrip_shape (s : str) :
  forall t, same_shape s t = true -> same_shape (lstrip s) (lstrip t) = true.
Proof.
  induction s as [|c s IH]; intros [|d t] Hst; try discriminate; [reflexivity |].
  pose proof Hst as Hst'.
  cbn [same_shape] in Hst. apply andb_true_iff in Hst. destruct Hst as [Hcd Hst].
  cbn [lstrip]. rewrite (same_class_space c d Hcd).
  destruct (isspace d); [apply IH, Hst | exact Hst'].
Qed.

Lemma same_shape_app (a : str) :
  forall b c d,
    same_shape a b = true -> same_shape c d = true ->
    same_shape (a ++ c) (b ++ d) = true.
Proof.
  induction a as [|x a IH]; intros [|y b] c d Hab Hcd; try discriminate;
    [exact Hcd |].
  cbn [same_shape] in Hab. apply andb_true_iff in Hab. destruct Hab as [Hxy Hab].
  cbn [app same_shape]. rewrite Hxy. apply IH; assumption.
Qed.

Lemma rev_shape (s : str) :
  forall t, same_shape s t = true -> same_shape (rev s) (rev t) = true.
Proof.
  induction s as [|c s IH]; intros [|d t] Hst; try discriminate; [reflexivity |].
  cbn [same_shape] in Hst. apply andb_true_iff in Hst. destruct Hst as [Hcd Hst].
  cbn [rev]. apply same_shape_app; [apply IH, Hst |].
  cbn [same_shape]. rewrite Hcd. reflexivity.
Qed.

Lemma strip_shape (s t : str) :
  same_shape s t = true -> same_shape (strip s) (strip t) = true.
Proof.
  intros H. unfold strip, rstrip.
  apply rev_shape, lstrip_shape, rev_shape, lstrip_shape, H.
Qed.

End MatcherShape.

(** ** The CPF validator *)

Section ValidateCpf.
Import Py Re Static SameShape.

Lemma digit_tests (c : ascii) :
  isdigit c = true ->
  atom_test false (ch "*") c = false
  /\ atom_test false (ASet (chars ".,")) c = false
  /\ atom_test false digit c = true
  /\ atom_test false (ch "-") c = false.
Proof. all_chars c. Qed.

Lemma separator_tests (c : ascii) :
  separator c = true ->
  atom_test false (ch "*") c = false
  /\ atom_test false (ASet (chars ".,")) c = true
  /\ atom_test false digit c = false
  /\ atom_test false (ch "-") c = false.
Proof. all_chars c. Qed.

Lemma cpf_atom_respects (a : atom) :
  In a [ch "*"; ASet (chars ".,"); digit; ch "-"] -> respects false a.
Proof.
  intros Ha c d Hcd.
  destruct (same_class_cases c d Hcd) as [-> | [[Hc Hd] | [Hc Hd]]];
    [reflexivity | |].
  - destruct (digit_tests c Hc) as [C1 [C2 [C3 C4]]].
    destruct (digit_tests d Hd) as [D1 [D2 [D3 D4]]].
    cbn [In] in Ha. destruct Ha as [<- | [<- | [<- | [<- | []]]]]; congruence.
  - destruct (separator_tests c Hc) as [C1 [C2 [C3 C4]]].
    destruct (separator_tests d Hd) as [D1 [D2 [D3 D4]]].
    cbn [In] in Ha. destruct Ha as [<- | [<- | [<- | [<- | []]]]]; congruence.
Qed.

Lemma cpf_patterns_respect (pattern : regex) :
  In pattern Helpers.cpf_patterns ->
  forall a, In a (atoms pattern) -> respects false a.
Proof.
  intros Hp a Ha. apply cpf_atom_respects.
  cbn [Helpers.cpf_patterns In] in Hp.
  destruct Hp as [<- | [<- | [<- | [<- | []]]]];
    vm_compute in Ha; vm_compute;
    repeat (destruct Ha as [<- | Ha]; [tauto |]); contradiction.
Qed.

Lemma same_shape_nonempty (s t : str) :
  same_shape s t = true -> nonempty s = nonempty t.
Proof. destruct s, t; try discriminate; reflexivity. Qed.

Lemma existsb_ext_in {A : Type} (f g : A -> bool) (l : list A) :
  (forall x, In x l -> f x = g x) -> existsb f l = existsb g l.
Proof.
  induction l as [|x l IH]; intros H; [reflexivity |].
  cbn [existsb]. rewrite (H x (or_introl eq_refl)), IH; [reflexivity |].
  intros y Hy. apply H. right. exact Hy.
Qed.

(** The verdict depends on the shape only. *)
Lemma validate_cpf_shape (s t : str) :
  same_shape s t = true -> Helpers.validate_cpf s = Helpers.validate_cpf t.
Proof.
  intros H. unfold Helpers.validate_cpf.
  rewrite (same_shape_nonempty s t H).
  destruct (negb (nonempty t)); [reflexivity |].
  apply existsb_ext_in. intros pattern Hp.
  apply re_match_shape; [apply cpf_patterns_respect, Hp | apply strip_shape, H].
Qed.

Lemma digits_shape (s : str) :
  forallb isdigit s = true ->
  same_shape s (repeat "0"%char (List.length s)) = true.
Proof.
  induction s as [|c s IH]; [reflexivity |].
  cbn [forallb]. intros H. apply andb_true_iff in H. destruct H as [Hc Hs].
  cbn [List.length repeat same_shape]. rewrite (IH Hs), andb_true_r.
  unfold same_class. rewrite Hc. change (isdigit "0") with true.
  cbn [andb]. apply orb_true_iff. left. apply orb_true_r.
Qed.

(** C8.  [validate_cpf] accepts "***.120.983-**" and "12345678900" and
    rejects "abc" and every string of nine digits.  Its verdict is
    format-only: two strings of the same shape (digits may differ, and
    ',' may stand for '.') get the same verdict, so every string of
    eleven digits is accepted whatever its check digits. *)
Theorem validate_cpf_is_format_only :
  Helpers.validate_cpf (txt "***.120.983-**") = true
  /\ Helpers.validate_cpf (txt "12345678900") = true
  /\ Helpers.validate_cpf (txt "abc") = false
  /\ (forall s, List.length s = 9 -> forallb isdigit s = true ->
                Helpers.validate_cpf s = false)
  /\ (forall s t, same_shape s t = true ->
                  Helpers.validate_cpf s = Helpers.validate_cpf t)
  /\ (forall s, List.length s = 11 -> forallb isdigit s = true ->
                Helpers.validate_cpf s = true).
Proof.
  split; [vm_compute; reflexivity |].
  split; [vm_compute; reflexivity |].
  split; [vm_compute; reflexivity |].
  split; [| split; [exact validate_cpf_shape |]].
  - intros s Hlen Hd. rewrite (validate_cpf_shape _ _ (digits_shape s Hd)), Hlen.
    vm_compute. reflexivity.
  - intros s Hlen Hd. rewrite (validate_cpf_shape _ _ (digits_shape s Hd)), Hlen.
    vm_compute. reflexivity.
Qed.

Lemma validate_cpf_is_format_only_witness :
  Helpers.validate_cpf (txt "123456789") = false
  /\ Helpers.validate_cpf (txt "123,456.789-00")
     = Helpers.validate_cpf (txt "987.654.321-99")
  /\ Helpers.validate_cpf (txt "52998224725") = true.
Proof.
  destruct validate_cpf_is_format_only as [_ [_ [_ [H9 [Hs H11]]]]].
  split; [apply H9; reflexivity |].
  split; [apply Hs; reflexivity | apply H11; reflexivity].
Defined.

End ValidateCpf.

(** ** A score that no Receipt carries *)

Section TransactionScore.
Import Py Dict.

(** The score of [validate_transaction_data] is not bounded below:
    on the empty dictionary it is -3. *)
Remark transaction_score_can_be_negative :
  Helpers.transaction_confidence_score [] = Ok (Fin (Qmake (-3) 1)).
Proof. vm_compute. reflexivity. Qed.

End TransactionScore.

(** * More properties *)

(** ** The two layout classifiers *)

Section LayoutCopies.
Import Py.

(** X1.  The two copies of the layout classifier give the same label on
    every text whose lower-case form does not contain "nubank"; where
    they differ, the copy of the extractor says 'nubank'. *)
Theorem layout_copies_agree_without_nubank (text : str) :
  (contains (txt "nubank") (lower text) = false ->
   Extractor.detect_document_layout text = Helpers.detect_document_layout text)
  /\ (Extractor.detect_document_layout text
      <> Helpers.detect_document_layout text ->
      Extractor.detect_document_layout text = txt "nubank").
Proof.
  unfold Extractor.detect_document_layout, Helpers.detect_document_layout.
  split.
  - intros ->.
    repeat match goal with
           | |- context [contains ?a (lower text)] =>
             destruct (contains a (lower text)); cbn [orb andb negb];
             try reflexivity
           end.
  - repeat match goal with
           | |- context [contains ?a (lower text)] =>
             destruct (contains a (lower text)); cbn [orb andb negb];
             try (intros _; reflexivity); try (intros H; now elim H)
           end.
Qed.

Lemma layout_copies_agree_without_nubank_witness :
  Extractor.detect_document_layout (txt "Banco Bradesco S.A.")
  = Helpers.detect_document_layout (txt "Banco Bradesco S.A.").
Proof.
  apply (proj1 (layout_copies_agree_without_nubank (txt "Banco Bradesco S.A."))).
  vm_compute. reflexivity.
Defined.

End LayoutCopies.

(** ** OCR corrections on a text without misreadings *)

Section CleanText.
Import Py Clean.

Lemma replace_from_absent (old new : str) (s : str) :
  contains old s = false -> replace_from old new 0 s = s.
Proof.
  induction s as [|c s IH]; [reflexivity |].
  cbn [contains replace_from]. intros H. apply orb_false_iff in H.
  destruct H as [Hp Hs]. rewrite Hp, (IH Hs). reflexivity.
Qed.

Lemma replace_absent (old new : str) (s : str) :
  contains old s = false -> replace old new s = s.
Proof.
  destruct old as [|c old].
  - destruct s; discriminate.
  - apply replace_from_absent.
Qed.

(** X2.  [correct_common_ocr_errors] leaves a text alone in which none
    of the misreadings it knows occurs; on such a text it is idempotent. *)
Theorem corrections_leave_clean_text (text : str) :
  misread_free text = true ->
  Helpers.correct_common_ocr_errors text = text.
Proof.
  unfold misread_free, Helpers.correct_common_ocr_errors.
  generalize Helpers.corrections. intros l.
  induction l as [|[old new] l IH]; intros H; [reflexivity |].
  cbn [forallb fst] in H. apply andb_true_iff in H. destruct H as [Ho Hl].
  apply negb_true_iff in Ho. cbn [fold_left fst snd].
  rewrite (replace_absent old new text Ho). apply IH, Hl.
Qed.

Lemma corrections_leave_clean_text_witness :
  Helpers.correct_common_ocr_errors Scenario.receipt_text = Scenario.receipt_text.
Proof.
  apply corrections_leave_clean_text. vm_compute. reflexivity.
Defined.

(** X3.  An occurrence of a string that no misreading can overlap is
    still there after [correct_common_ocr_errors], whatever the rest of
    the text. *)
Theorem corrections_keep_apart_occurrences (t text : str) :
  Occur.survives t = true ->
  contains t text = true ->
  contains t (Helpers.correct_common_ocr_errors text) = true.
Proof. exact (correct_keeps t text). Qed.

Lemma corrections_keep_apart_occurrences_witness :
  contains (txt "Ana Cleuma")
           (Helpers.correct_common_ocr_errors (txt "Para Ana Cleuma RS 2O25"))
  = true.
Proof.
  apply corrections_keep_apart_occurrences; vm_compute; reflexivity.
Defined.

End CleanText.

(** ** The currency parser on a text with a point and no comma *)

Section ParsePoint.
Import Py Amount.

Lemma digits_without (c : ascii) (l : str) :
  isdigit c = false -> forallb isdigit l = true -> existsb (ch_eqb c) l = false.
Proof.
  intros Hc. induction l as [|x l IH]; [reflexivity |].
  cbn [forallb existsb]. intros H. apply andb_true_iff in H.
  destruct H as [Hx Hl]. rewrite (IH Hl), orb_false_r.
  destruct (ch_eqb c x) eqn:E; [| reflexivity].
  apply ch_eqb_eq in E. congruence.
Qed.

Lemma parse_currency_point_lemma (s a b : str) :
  nonempty s = true ->
  Re.sub_class_empty (Re.chars "R$" ++ [Re.ISpace]) s = a ++ "."%char :: b ->
  forallb isdigit a = true -> forallb isdigit b = true ->
  a ++ b <> [] ->
  Extractor._parse_currency s
  = to_float (scale10 (Z.of_N (digits_value 0 (a ++ b)))
                      (- Z.of_nat (List.length b))).
Proof.
  intros Hne Hc Ha Hb Hab. unfold Extractor._parse_currency.
  rewrite Hne. cbn [negb]. cbv zeta. rewrite Hc.
  change (txt ",") with [","%char].
  rewrite !contains_single, !existsb_app. cbn [existsb].
  change (ch_eqb "," ".") with false.
  rewrite (digits_without "," a eq_refl Ha), (digits_without "," b eq_refl Hb).
  cbn [orb andb].
  rewrite (float_of_decimal_text a b Ha Hb Hab). reflexivity.
Qed.

(** X4.  When the cleaned text is digits around one point and has no
    comma, [_parse_currency] reads the point as the decimal separator:
    the Brazilian thousands form "1.234" is read as 1.234. *)
Theorem parse_currency_point_is_decimal (s a b : str) :
  nonempty s = true ->
  Re.sub_class_empty (Re.chars "R$" ++ [Re.ISpace]) s = a ++ "."%char :: b ->
  forallb isdigit a = true -> forallb isdigit b = true ->
  a ++ b <> [] ->
  Extractor._parse_currency s
  = to_float (scale10 (Z.of_N (digits_value 0 (a ++ b)))
                      (- Z.of_nat (List.length b))).
Proof. exact (parse_currency_point_lemma s a b). Qed.

Lemma parse_currency_point_is_decimal_witness :
  Extractor._parse_currency (txt "R$ 1.234") = to_float (scale10 1234 (-3)).
Proof.
  apply (parse_currency_point_is_decimal (txt "R$ 1.234") (txt "1") (txt "234"));
    try reflexivity. discriminate.
Defined.

End ParsePoint.

(** ** The amount found with fallback *)

Section FallbackValue.
Import Py.

Lemma first_positive_is_positive (ms : list str) (v : float) :
  Helpers.first_positive ms = Some v -> float_ltb (Fin 0) v = true.
Proof.
  induction ms as [|mt ms IH]; cbn [Helpers.first_positive]; [discriminate |].
  destruct (float_of_str (replace (txt ",") (txt ".") mt)) as [x | e]; [| exact IH].
  destruct (float_ltb (Fin 0) x) eqn:Hx; [| exact IH].
  intros H. injection H as <-. exact Hx.
Qed.

Lemma first_pattern_value_is_positive (patterns : list Re.regex) (text : str)
      (v : float) :
  Helpers.first_pattern_value patterns text = Some v ->
  float_ltb (Fin 0) v = true.
Proof.
  induction patterns as [|p ps IH]; cbn [Helpers.first_pattern_value];
    [discriminate |].
  destruct (Helpers.first_positive (Re.findall false p text)) as [x |] eqn:Hx;
    [| exact IH].
  intros H. injection H as <-. exact (first_positive_is_positive _ _ Hx).
Qed.

Lemma first_expected_in (expected : list float) (text : str) (v : float) :
  Helpers.first_expected expected text = Some v -> In v expected.
Proof.
  induction expected as [|x xs IH]; cbn [Helpers.first_expected];
    [discriminate |].
  destruct (contains (format_0f x) text).
  - intros H. injection H as <-. left. reflexivity.
  - intros H. right. exact (IH H).
Qed.

(** X5.  With positive expected values, [extract_value_with_fallback]
    returns 0.0 or a positive number: never a negative one, never NaN. *)
Theorem fallback_value_is_zero_or_positive (text : str) (expected : list float) :
  forallb (float_ltb (Fin 0)) expected = true ->
  Helpers.extract_value_with_fallback text expected = Fin 0
  \/ float_ltb (Fin 0) (Helpers.extract_value_with_fallback text expected) = true.
Proof.
  intros Hexp. unfold Helpers.extract_value_with_fallback.
  destruct (Helpers.first_pattern_value Helpers.valor_patterns text) as [v |] eqn:Hv.
  - right. exact (first_pattern_value_is_positive _ _ _ Hv).
  - destruct (Helpers.first_expected expected text) as [v |] eqn:He;
      [| left; reflexivity].
    right. rewrite forallb_forall in Hexp. apply Hexp.
    exact (first_expected_in _ _ _ He).
Qed.

Lemma fallback_value_is_zero_or_positive_witness :
  Helpers.extract_value_with_fallback (txt "total -5") [Fin 17; Fin 33] = Fin 0
  \/ float_ltb (Fin 0)
       (Helpers.extract_value_with_fallback (txt "total -5") [Fin 17; Fin 33])
     = true.
Proof.
  apply fallback_value_is_zero_or_positive. reflexivity.
Defined.

End FallbackValue.

(** ** CNPJ *)

Section Cnpj.
Import Py Re.

Lemma only_digits_are_digits (s : str) :
  forallb isdigit (Helpers.only_digits s) = true.
Proof.
  unfold Helpers.only_digits. induction s as [|c s IH]; [reflexivity |].
  cbn [filter]. destruct (set_test [IDigit] c) eqn:Hc; [| exact IH].
  cbn [forallb]. rewrite IH, andb_true_r.
  revert Hc. unfold set_test. cbn [existsb item_test]. rewrite orb_false_r.
  trivial.
Qed.

Lemma only_digits_digits (s : str) :
  forallb isdigit s = true -> Helpers.only_digits s = s.
Proof.
  unfold Helpers.only_digits. induction s as [|c s IH]; [reflexivity |].
  cbn [forallb filter]. intros H. apply andb_true_iff in H. destruct H as [Hc Hs].
  unfold set_test at 1. cbn [existsb item_test]. rewrite Hc. cbn [orb].
  rewrite (IH Hs). reflexivity.
Qed.

Lemma only_digits_app (a b : str) :
  Helpers.only_digits (a ++ b) = Helpers.only_digits a ++ Helpers.only_digits b.
Proof. unfold Helpers.only_digits. apply filter_app. Qed.

Lemma forallb_skipn (p : ascii -> bool) (n : nat) (l : str) :
  forallb p l = true -> forallb p (skipn n l) = true.
Proof.
  intros H. rewrite <- (firstn_skipn n l), forallb_app in H.
  apply andb_true_iff in H. apply H.
Qed.

Lemma forallb_firstn (p : ascii -> bool) (n : nat) (l : str) :
  forallb p l = true -> forallb p (firstn n l) = true.
Proof.
  intros H. rewrite <- (firstn_skipn n l), forallb_app in H.
  apply andb_true_iff in H. apply H.
Qed.

Lemma format_cnpj_digits (s : str) :
  Helpers.only_digits (Helpers.format_cnpj s) = Helpers.only_digits s.
Proof.
  unfold Helpers.format_cnpj. destruct (nonempty s) eqn:Hne; cbn [negb].
  - cbv zeta.
    destruct (Nat.eqb (List.length (Helpers.only_digits s)) 14) eqn:Hlen;
      [| reflexivity].
    pose proof (only_digits_are_digits s) as Hd.
    assert (Hsl : forall a b, forallb isdigit (slice a b (Helpers.only_digits s)) = true).
    { intros a b. unfold slice. apply forallb_firstn, forallb_skipn, Hd. }
    assert (Hsk : forallb isdigit (skipn 12 (Helpers.only_digits s)) = true).
    { apply forallb_skipn, Hd. }
    rewrite !only_digits_app.
    rewrite !(only_digits_digits _ (Hsl _ _)), (only_digits_digits _ Hsk).
    change (Helpers.only_digits (txt ".")) with (@nil ascii).
    change (Helpers.only_digits (txt "/")) with (@nil ascii).
    change (Helpers.only_digits (txt "-")) with (@nil ascii).
    cbn [app]. apply Nat.eqb_eq in Hlen.
    remember (Helpers.only_digits s) as l eqn:El. clear - Hlen.
    do 14 (destruct l as [|? l]; [discriminate |]).
    destruct l; [reflexivity | discriminate].
  - destruct s; [reflexivity | discriminate].
Qed.

Lemma format_cnpj_nonempty (s : str) :
  nonempty (Helpers.format_cnpj s) = nonempty s.
Proof.
  unfold Helpers.format_cnpj. destruct (nonempty s) eqn:Hne; cbn [negb];
    [| reflexivity].
  cbv zeta.
  destruct (Nat.eqb (List.length (Helpers.only_digits s)) 14) eqn:Hlen;
    [| exact Hne].
  apply Nat.eqb_eq in Hlen.
  destruct (Helpers.only_digits s) as [|? [|? l]]; try discriminate.
  reflexivity.
Qed.

(** X6.  [format_cnpj] keeps the digits of its argument, in order; so a
    text is a valid CNPJ after formatting exactly when it was before,
    and formatting twice is formatting once. *)
Theorem format_cnpj_keeps_digits (s : str) :
  Helpers.only_digits (Helpers.format_cnpj s) = Helpers.only_digits s
  /\ Helpers.validate_cnpj (Helpers.format_cnpj s) = Helpers.validate_cnpj s
  /\ Helpers.format_cnpj (Helpers.format_cnpj s) = Helpers.format_cnpj s.
Proof.
  split; [apply format_cnpj_digits |]. split.
  - unfold Helpers.validate_cnpj.
    rewrite format_cnpj_nonempty, format_cnpj_digits. reflexivity.
  - unfold Helpers.format_cnpj at 1 3.
    rewrite format_cnpj_nonempty, format_cnpj_digits.
    destruct (nonempty s) eqn:Hne; cbn [negb]; [| reflexivity].
    cbv zeta.
    destruct (Nat.eqb (List.length (Helpers.only_digits s)) 14) eqn:Hlen;
      [reflexivity |].
    unfold Helpers.format_cnpj. rewrite Hne, Hlen. reflexivity.
Qed.

(** X7.  A text with fourteen digits is formatted as dd.ddd.ddd/dddd-dd:
    eighteen characters. *)
Theorem format_cnpj_length (s : str) :
  Helpers.validate_cnpj s = true ->
  List.length (Helpers.format_cnpj s) = 18.
Proof.
  unfold Helpers.validate_cnpj, Helpers.format_cnpj.
  destruct (nonempty s); cbn [negb]; [| discriminate].
  cbv zeta. intros H. rewrite H. apply Nat.eqb_eq in H.
  remember (Helpers.only_digits s) as l eqn:El. clear - H.
  do 14 (destruct l as [|? l]; [discriminate |]).
  destruct l; [reflexivity | discriminate].
Qed.

Lemma format_cnpj_length_witness :
  List.length (Helpers.format_cnpj (txt "CNPJ 12345678000190")) = 18.
Proof. apply format_cnpj_length. vm_compute. reflexivity. Defined.

End Cnpj.

(** ** Stripping *)

Section Stripping.
Import Py Tidy.

Lemma lstrip_starts_clean (s : str) : starts_clean (lstrip s) = true.
Proof.
  induction s as [|c s IH]; [reflexivity |].
  cbn [lstrip]. destruct (isspace c) eqn:Hc; [exact IH |].
  cbn [starts_clean]. rewrite Hc. reflexivity.
Qed.

Lemma lstrip_id (s : str) : starts_clean s = true -> lstrip s = s.
Proof.
  destruct s as [|c s]; [reflexivity |].
  cbn [starts_clean lstrip]. intros H. apply negb_true_iff in H.
  rewrite H. reflexivity.
Qed.

Lemma lstrip_split (s : str) :
  exists ws, s = ws ++ lstrip s /\ forallb isspace ws = true.
Proof.
  induction s as [|c s [ws [Hs Hws]]].
  - exists []. split; reflexivity.
  - cbn [lstrip]. destruct (isspace c) eqn:Hc.
    + exists (c :: ws). cbn [forallb app]. rewrite Hc, Hws. split; [congruence | reflexivity].
    + exists []. split; reflexivity.
Qed.

Lemma lstrip_app_spaces (ws s : str) :
  forallb isspace ws = true -> lstrip (ws ++ s) = lstrip s.
Proof.
  induction ws as [|c ws IH]; [reflexivity |].
  cbn [forallb app lstrip]. intros H. apply andb_true_iff in H.
  destruct H as [Hc Hws]. rewrite Hc. exact (IH Hws).
Qed.

Lemma forallb_rev_true (p : ascii -> bool) (l : str) :
  forallb p l = true -> forallb p (rev l) = true.
Proof.
  rewrite !forallb_forall. intros H x Hx. apply H. apply in_rev. exact Hx.
Qed.

Lemma strip_split (s : str) :
  exists a b, s = a ++ strip s ++ b
              /\ forallb isspace a = true /\ forallb isspace b = true.
Proof.
  destruct (lstrip_split s) as [a [Ha Hsa]].
  destruct (lstrip_split (rev (lstrip s))) as [b [Hb Hsb]].
  exists a, (rev b). unfold strip, rstrip. split; [| split].
  - rewrite <- rev_app_distr, <- Hb, rev_involutive. exact Ha.
  - exact Hsa.
  - apply forallb_rev_true. exact Hsb.
Qed.

Lemma strip_trimmed (s : str) : trimmed (strip s) = true.
Proof.
  unfold trimmed, strip, rstrip. rewrite rev_involutive.
  rewrite lstrip_starts_clean, andb_true_r.
  destruct (lstrip_split (rev (lstrip s))) as [ws [Hs Hws]].
  pose proof (lstrip_starts_clean s) as Hu.
  assert (E : lstrip s = rev (lstrip (rev (lstrip s))) ++ rev ws).
  { rewrite <- rev_app_distr, <- Hs, rev_involutive. reflexivity. }
  destruct (rev (lstrip (rev (lstrip s)))) as [|x r]; [reflexivity |].
  rewrite E in Hu. exact Hu.
Qed.

Lemma strip_id (s : str) : trimmed s = true -> strip s = s.
Proof.
  unfold trimmed, strip, rstrip. intros H. apply andb_true_iff in H.
  destruct H as [H1 H2]. rewrite (lstrip_id _ H1), (lstrip_id _ H2).
  apply rev_involutive.
Qed.

Lemma strip_strip (s : str) : strip (strip s) = strip s.
Proof. apply strip_id, strip_trimmed. Qed.

Lemma strip_around (a s b : str) :
  forallb isspace a = true -> forallb isspace b = true ->
  strip (a ++ s ++ b) = strip s.
Proof.
  intros Ha Hb. unfold strip, rstrip. rewrite (lstrip_app_spaces _ _ Ha).
  f_equal.
  destruct (lstrip_split s) as [ws [Hs Hws]].
  destruct (lstrip s) as [|x u] eqn:Eu.
  - (* s is whitespace *)
    rewrite app_nil_r in Hs. subst ws.
    rewrite (lstrip_spaces (s ++ b)); [reflexivity |].
    rewrite forallb_app, Hws, Hb. reflexivity.
  - pose proof (lstrip_starts_clean s) as Hx. rewrite Eu in Hx.
    cbn [starts_clean] in Hx. apply negb_true_iff in Hx.
    assert (El : lstrip (s ++ b) = (x :: u) ++ b).
    { rewrite Hs at 1. rewrite <- app_assoc.
      rewrite (lstrip_app_spaces _ _ Hws). cbn [app lstrip]. rewrite Hx.
      reflexivity. }
    rewrite El, rev_app_distr.
    apply lstrip_app_spaces. apply forallb_rev_true. exact Hb.
Qed.

(** X8.  [validate_cpf] does not see the whitespace around its argument. *)
Theorem validate_cpf_ignores_outer_whitespace (a s b : str) :
  forallb isspace a = true -> forallb isspace b = true ->
  Helpers.validate_cpf (a ++ s ++ b) = Helpers.validate_cpf s.
Proof.
  intros Ha Hb. unfold Helpers.validate_cpf.
  rewrite (strip_around _ _ _ Ha Hb).
  destruct s as [|c s].
  - destruct (nonempty (a ++ [] ++ b)); reflexivity.
  - destruct a; reflexivity.
Qed.

Lemma validate_cpf_ignores_outer_whitespace_witness :
  Helpers.validate_cpf (txt "  " ++ txt "***,097.048-**" ++ [chr 10])
  = Helpers.validate_cpf (txt "***,097.048-**").
Proof.
  apply validate_cpf_ignores_outer_whitespace; reflexivity.
Defined.

End Stripping.

(** ** The normal form of [clean_text] *)

Section CleanTextForm.
Import Py Tidy.

Lemma keep_or_space_kept (c : ascii) : kept (Helpers.keep_or_space c) = true.
Proof. all_chars c. Qed.

Lemma kept_fixed (c : ascii) : kept c = true -> Helpers.keep_or_space c = c.
Proof. unfold kept. apply ch_eqb_eq. Qed.

Lemma space_is_space : isspace " " = true.
Proof. reflexivity. Qed.

Lemma squeeze_kept (b : bool) (s : str) :
  forallb kept s = true -> forallb kept (Helpers.squeeze b s) = true.
Proof.
  revert b. induction s as [|c s IH]; intros b; [reflexivity |].
  cbn [forallb Helpers.squeeze]. intros H. apply andb_true_iff in H.
  destruct H as [Hc Hs].
  destruct (isspace c); [destruct b |]; cbn [forallb];
    rewrite ?Hc, ?(IH _ Hs); reflexivity.
Qed.

Lemma squeeze_single_spaced (b : bool) (s : str) :
  single_spaced b (Helpers.squeeze b s) = true.
Proof.
  revert b. induction s as [|c s IH]; intros b; [reflexivity |].
  cbn [Helpers.squeeze]. destruct (isspace c) eqn:Hc.
  - destruct b; [apply IH |].
    cbn [single_spaced]. rewrite space_is_space, IH. reflexivity.
  - cbn [single_spaced]. rewrite Hc. apply IH.
Qed.

Lemma squeeze_id (b : bool) (s : str) :
  single_spaced b s = true -> Helpers.squeeze b s = s.
Proof.
  revert b. induction s as [|c s IH]; intros b; [reflexivity |].
  cbn [single_spaced Helpers.squeeze]. destruct (isspace c).
  - intros H. apply andb_true_iff in H. destruct H as [H Hs].
    apply andb_true_iff in H. destruct H as [Hc Hb].
    apply negb_true_iff in Hb. subst b. apply ch_eqb_eq in Hc. subst c.
    rewrite (IH _ Hs). reflexivity.
  - intros Hs. rewrite (IH _ Hs). reflexivity.
Qed.

Lemma single_spaced_weaken (b : bool) (s : str) :
  single_spaced b s = true -> single_spaced false s = true.
Proof.
  destruct b; [| trivial]. destruct s as [|c s]; [trivial |].
  cbn [single_spaced]. destruct (isspace c); [| trivial].
  rewrite andb_false_r. discriminate.
Qed.

Lemma single_spaced_suffix (b : bool) (a s : str) :
  single_spaced b (a ++ s) = true -> single_spaced false s = true.
Proof.
  revert b. induction a as [|c a IH]; intros b.
  - apply single_spaced_weaken.
  - cbn [app single_spaced]. destruct (isspace c).
    + intros H. apply andb_true_iff in H. destruct H as [_ H]. exact (IH _ H).
    + apply IH.
Qed.

Lemma single_spaced_prefix (b : bool) (s a : str) :
  single_spaced b (s ++ a) = true -> single_spaced b s = true.
Proof.
  revert b. induction s as [|c s IH]; intros b; [reflexivity |].
  cbn [app single_spaced]. destruct (isspace c).
  - intros H. apply andb_true_iff in H. destruct H as [H Hs].
    rewrite H, (IH _ Hs). reflexivity.
  - apply IH.
Qed.

Lemma map_kept (s : str) : forallb kept s = true -> map Helpers.keep_or_space s = s.
Proof.
  induction s as [|c s IH]; [reflexivity |].
  cbn [forallb map]. intros H. apply andb_true_iff in H. destruct H as [Hc Hs].
  rewrite (kept_fixed _ Hc), (IH Hs). reflexivity.
Qed.

Lemma tidy_fixed (s : str) : tidy s = true -> Helpers.clean_text s = s.
Proof.
  unfold tidy, Helpers.clean_text. intros H.
  apply andb_true_iff in H. destruct H as [H Ht].
  apply andb_true_iff in H. destruct H as [Hk Hs].
  destruct s as [|c s]; [reflexivity |]. cbn [nonempty negb]. cbv zeta.
  rewrite (map_kept _ Hk), (squeeze_id _ _ Hs). apply strip_id, Ht.
Qed.

Lemma clean_text_tidy (text : str) : tidy (Helpers.clean_text text) = true.
Proof.
  unfold Helpers.clean_text. destruct (nonempty text); cbn [negb];
    [| reflexivity].
  cbv zeta. remember (Helpers.squeeze false (map Helpers.keep_or_space text)) as q eqn:Eq.
  assert (Hk : forallb kept q = true).
  { subst q. apply squeeze_kept. rewrite forallb_forall. intros x Hx.
    apply in_map_iff in Hx. destruct Hx as [c [<- _]]. apply keep_or_space_kept. }
  assert (Hs : single_spaced false q = true).
  { subst q. apply squeeze_single_spaced. }
  destruct (strip_split q) as [a [b [Hq _]]].
  unfold tidy. rewrite strip_trimmed, andb_true_r. apply andb_true_iff. split.
  - rewrite Hq, !forallb_app in Hk.
    apply andb_true_iff in Hk. destruct Hk as [_ Hk].
    apply andb_true_iff in Hk. destruct Hk as [Hk _]. exact Hk.
  - rewrite Hq in Hs. apply single_spaced_suffix in Hs.
    apply single_spaced_prefix in Hs. exact Hs.
Qed.

(** X9.  What [clean_text] returns holds only characters of its class
    [\w\s\-.,/:], has no whitespace but single spaces between other
    characters, and none at either end; [clean_text] leaves such a text
    as it is, so cleaning twice is cleaning once. *)
Theorem clean_text_normal_form (text : str) :
  tidy (Helpers.clean_text text) = true
  /\ (forall s, tidy s = true -> Helpers.clean_text s = s)
  /\ Helpers.clean_text (Helpers.clean_text text) = Helpers.clean_text text.
Proof.
  split; [apply clean_text_tidy |]. split; [exact tidy_fixed |].
  apply tidy_fixed, clean_text_tidy.
Qed.

End CleanTextForm.

(** ** Classification and the text around *)

Section Context.
Import Py.

Lemma contains_around (t a s b : str) :
  contains t s = true -> contains t (a ++ s ++ b) = true.
Proof.
  rewrite !contains_iff. intros [x [y ->]]. exists (a ++ x), (y ++ b).
  rewrite <- !app_assoc. reflexivity.
Qed.

Lemma contains_trans (t u s : str) :
  contains t u = true -> contains u s = true -> contains t s = true.
Proof.
  rewrite !contains_iff. intros [x [y ->]] [a [b ->]].
  exists (a ++ x), (y ++ b). rewrite <- !app_assoc. reflexivity.
Qed.

Lemma lower_around (a s b : str) :
  lower (a ++ s ++ b) = lower a ++ lower s ++ lower b.
Proof. unfold lower. rewrite !map_app. reflexivity. Qed.

Lemma existsb_contains_around (l : list str) (a s b : str) :
  existsb (fun t => contains t s) l = true ->
  existsb (fun t => contains t (a ++ s ++ b)) l = true.
Proof.
  rewrite !existsb_exists. intros [t [Hin Ht]]. exists t. split; [exact Hin |].
  apply contains_around, Ht.
Qed.

(** X10.  A text that [classify_document_type] calls 'pix' is still
    called 'pix' with any text before and after it. *)
Theorem pix_verdict_survives_context (a text b : str) :
  Extractor.classify_document_type text = txt "pix" ->
  Extractor.classify_document_type (a ++ text ++ b) = txt "pix".
Proof.
  unfold Extractor.classify_document_type. cbv zeta.
  rewrite lower_around.
  destruct (existsb (fun indicator => contains indicator (lower text))
                    Extractor.pix_indicators) eqn:E1.
  - intros _. rewrite (existsb_contains_around _ _ _ _ E1). reflexivity.
  - destruct (contains (txt "will bank") (lower text)) eqn:E2; cbn [andb].
    + destruct (existsb (fun word => contains word (lower text))
                        [txt "destino"; txt "origem"; txt "chave"]) eqn:E3.
      * intros _. rewrite (contains_around _ _ _ _ E2).
        rewrite (existsb_contains_around _ _ _ _ E3). cbn [andb].
        match goal with
        | |- (if ?c then _ else _) = _ => destruct c; reflexivity
        end.
      * repeat match goal with
               | |- context [contains ?x (lower text)] =>
                 destruct (contains x (lower text)); cbn [orb]
               end; intros H; vm_compute in H; discriminate H.
    + repeat match goal with
             | |- context [contains ?x (lower text)] =>
               destruct (contains x (lower text)); cbn [orb]
             end; intros H; vm_compute in H; discriminate H.
Qed.

Lemma pix_verdict_survives_context_witness :
  Extractor.classify_document_type
    (txt "Boleto " ++ txt "Comprovante PIX" ++ txt " transferencia")
  = txt "pix".
Proof.
  apply pix_verdict_survives_context. vm_compute. reflexivity.
Defined.

(** X11.  A text that either copy of the layout classifier calls
    'will_bank' is still called 'will_bank', by both copies, with any
    text before and after it. *)
Theorem will_bank_layout_survives_context (a text b : str) :
  Helpers.detect_document_layout text = txt "will_bank"
  \/ Extractor.detect_document_layout text = txt "will_bank" ->
  Helpers.detect_document_layout (a ++ text ++ b) = txt "will_bank"
  /\ Extractor.detect_document_layout (a ++ text ++ b) = txt "will_bank".
Proof.
  intros H.
  assert (Hw : contains (txt "will bank") (lower text)
               || contains (txt "willbank") (lower text) = true).
  { destruct (contains (txt "will bank") (lower text)
              || contains (txt "willbank") (lower text)) eqn:E; [reflexivity |].
    exfalso. revert H.
    unfold Helpers.detect_document_layout, Extractor.detect_document_layout.
    cbv zeta. rewrite E.
    apply orb_false_iff in E. destruct E as [E _]. rewrite E.
    repeat match goal with
           | |- context [contains ?x (lower text)] =>
             destruct (contains x (lower text)); cbn [orb andb negb]
           end; intros [H | H]; vm_compute in H; discriminate H. }
  assert (Hw' : contains (txt "will bank") (lower (a ++ text ++ b))
                || contains (txt "willbank") (lower (a ++ text ++ b)) = true).
  { rewrite lower_around. apply orb_true_iff in Hw. apply orb_true_iff.
    destruct Hw as [Hw | Hw]; [left | right]; apply contains_around, Hw. }
  unfold Helpers.detect_document_layout, Extractor.detect_document_layout.
  cbv zeta. rewrite Hw'. split; reflexivity.
Qed.

Lemma will_bank_layout_survives_context_witness :
  Helpers.detect_document_layout
    (txt "NU PAGAMENTOS " ++ txt "Will Bank" ++ txt " Caixa") = txt "will_bank"
  /\ Extractor.detect_document_layout
       (txt "NU PAGAMENTOS " ++ txt "Will Bank" ++ txt " Caixa") = txt "will_bank".
Proof.
  apply will_bank_layout_survives_context. left. vm_compute. reflexivity.
Defined.

End Context.

(** ** The institution of a text *)

Section Institution.
Import Py Dict.

(** X12.  [extract_institution_data] never reports 'caixa econômica' or
    'banco c6' as the pattern that was found: a shorter pattern of the
    same institution, tried before, occurs wherever they do. *)
Theorem institution_patterns_never_reported (text p : str) :
  get (Helpers.extract_institution_data text) "detectado_por" = Some (VStr p) ->
  p <> txt "caixa econômica" /\ p <> txt "banco c6".
Proof.
  unfold Helpers.extract_institution_data. cbv zeta.
  unfold Helpers.institutions.
  cbn [Helpers.find_institution Helpers.first_contained].
  destruct (contains (txt "caixa") (lower text)) eqn:E1.
  { intros H. injection H as <-. split; vm_compute; discriminate. }
  destruct (contains (txt "cef") (lower text)) eqn:E2.
  { intros H. injection H as <-. split; vm_compute; discriminate. }
  destruct (contains (txt "caixa econômica") (lower text)) eqn:E3.
  { rewrite (contains_trans (txt "caixa") (txt "caixa econômica") (lower text)
               eq_refl E3) in E1. discriminate. }
  destruct (contains (txt "nubank") (lower text)) eqn:E4.
  { intros H. injection H as <-. split; vm_compute; discriminate. }
  destruct (contains (txt "nu pagamentos") (lower text)) eqn:E5.
  { intros H. injection H as <-. split; vm_compute; discriminate. }
  destruct (contains (txt "nu bank") (lower text)) eqn:E6.
  { intros H. injection H as <-. split; vm_compute; discriminate. }
  destruct (contains (txt "c6 bank") (lower text)) eqn:E7.
  { intros H. injection H as <-. split; vm_compute; discriminate. }
  destruct (contains (txt "c6") (lower text)) eqn:E8.
  { intros H. injection H as <-. split; vm_compute; discriminate. }
  destruct (contains (txt "banco c6") (lower text)) eqn:E9.
  { rewrite (contains_trans (txt "c6") (txt "banco c6") (lower text)
               eq_refl E9) in E8. discriminate. }
  intros H. vm_compute in H. discriminate H.
Qed.

Lemma institution_patterns_never_reported_witness :
  txt "caixa" <> txt "caixa econômica" /\ txt "caixa" <> txt "banco c6".
Proof.
  apply (institution_patterns_never_reported
           (txt "CAIXA ECONÔMICA FEDERAL") (txt "caixa")).
  vm_compute. reflexivity.
Defined.

(** X13.  A text that either copy of the layout classifier calls 'caixa'
    has the institution code 'caixa'. *)
Theorem caixa_layout_has_caixa_institution (text : str) :
  Helpers.detect_document_layout text = txt "caixa"
  \/ Extractor.detect_document_layout text = txt "caixa" ->
  get (Helpers.extract_institution_data text) "codigo" = Some (VStr (txt "caixa")).
Proof.
  intros H.
  assert (Hc : contains (txt "caixa") (lower text) = true).
  { destruct (contains (txt "caixa") (lower text)) eqn:E; [reflexivity |].
    exfalso. revert H.
    unfold Helpers.detect_document_layout, Extractor.detect_document_layout.
    cbv zeta. rewrite E.
    destruct (contains (txt "caixa econômica") (lower text)) eqn:E3.
    { rewrite (contains_trans (txt "caixa") (txt "caixa econômica") (lower text)
                 eq_refl E3) in E. discriminate. }
    repeat match goal with
           | |- context [contains ?x (lower text)] =>
             destruct (contains x (lower text)); cbn [orb andb negb]
           end; intros [H | H]; vm_compute in H; discriminate H. }
  unfold Helpers.extract_institution_data. cbv zeta.
  unfold Helpers.institutions.
  cbn [Helpers.find_institution Helpers.first_contained].
  rewrite Hc. reflexivity.
Qed.

Lemma caixa_layout_has_caixa_institution_witness :
  get (Helpers.extract_institution_data (txt "Caixa Econômica Federal - C6 Bank"))
      "codigo" = Some (VStr (txt "caixa")).
Proof.
  apply caixa_layout_has_caixa_institution. left. vm_compute. reflexivity.
Defined.

End Institution.

(** ** Normalised fields *)

Section Normalize.
Import Py Dict.

Lemma first_present_true (raw_data : dict) (fields : list string) (v : value) :
  Helpers.first_present raw_data fields = Some v ->
  truth v = true /\ exists source, In source fields /\ get raw_data source = Some v.
Proof.
  induction fields as [|f fields IH]; cbn [Helpers.first_present];
    [discriminate |].
  destruct (get raw_data f) as [x |] eqn:Hf.
  - destruct (truth x) eqn:Hx.
    + intros H. injection H as <-. split; [exact Hx |].
      exists f. split; [left; reflexivity | exact Hf].
    + intros H. destruct (IH H) as [Ht [s [Hin Hs]]].
      split; [exact Ht |]. exists s. split; [right; exact Hin | exact Hs].
  - intros H. destruct (IH H) as [Ht [s [Hin Hs]]].
    split; [exact Ht |]. exists s. split; [right; exact Hin | exact Hs].
Qed.

Lemma mapping_of_known (document_type : str) :
  Helpers.mapping_of Helpers.field_mapping document_type <> [] ->
  document_type = txt "pix" \/ document_type = txt "transferencia".
Proof.
  unfold Helpers.field_mapping. cbn [Helpers.mapping_of].
  destruct (str_eqb (txt "pix") document_type) eqn:E1.
  { apply str_eqb_eq in E1. auto. }
  destruct (str_eqb (txt "transferencia") document_type) eqn:E2.
  { apply str_eqb_eq in E2. auto. }
  intros H. now elim H.
Qed.

Lemma normalized_fold (raw_data : dict) (target : string)
      (mapping part : list (string * list string)) (acc : dict) :
  incl part mapping ->
  (forall v, get acc target = Some v ->
             truth v = true
             /\ exists sources source,
                  In (target, sources) mapping
                  /\ In source sources /\ get raw_data source = Some v) ->
  forall v,
    get (fold_left
           (fun acc tf =>
              opt_set acc (fst tf) (Helpers.first_present raw_data (snd tf)))
           part acc) target = Some v ->
    truth v = true
    /\ exists sources source,
         In (target, sources) mapping
         /\ In source sources /\ get raw_data source = Some v.
Proof.
  revert acc. induction part as [|[t fs] part IH]; intros acc Hin Hacc;
    [exact Hacc |].
  cbn [fold_left fst snd]. apply IH.
  - intros x Hx. apply Hin. right. exact Hx.
  - intros v.
    destruct (Helpers.first_present raw_data fs) as [x |] eqn:Hfp;
      cbn [opt_set]; [| apply Hacc].
    rewrite get_set. destruct (String.eqb_spec t target) as [-> | Hne];
      [| apply Hacc].
    intros H. injection H as <-.
    destruct (first_present_true _ _ _ Hfp) as [Ht [s [Hs Hg]]].
    split; [exact Ht |]. exists fs, s. split; [| split; assumption].
    apply Hin. left. reflexivity.
Qed.

(** X14.  In the 'dados_extraidos' of [normalize_extracted_data] every
    value is a true value (not None, not empty, not zero) found in the
    raw data under one of the source fields of its target field; for a
    document type other than 'pix' and 'transferencia' nothing is
    stored. *)
Theorem normalized_fields_come_from_raw_data
        (raw_data : dict) (document_type : str) (now : Clock.datetime)
        (target : string) (v : value) :
  get (Helpers.n_dados_extraidos
         (Helpers.normalize_extracted_data raw_data document_type now))
      target = Some v ->
  (document_type = txt "pix" \/ document_type = txt "transferencia")
  /\ truth v = true
  /\ exists sources source,
       In (target, sources)
          (Helpers.mapping_of Helpers.field_mapping document_type)
       /\ In source sources /\ get raw_data source = Some v.
Proof.
  unfold Helpers.normalize_extracted_data. cbv zeta.
  cbn [Helpers.n_dados_extraidos]. intros H. split.
  - apply mapping_of_known. intros E. rewrite E in H. discriminate H.
  - revert H. apply normalized_fold.
    + apply incl_refl.
    + discriminate.
Qed.

Lemma normalized_fields_come_from_raw_data_witness :
  (txt "pix" = txt "pix" \/ txt "pix" = txt "transferencia")
  /\ truth (VStr (txt "Ana")) = true
  /\ exists sources source,
       In ("nome_pagador", sources)
          (Helpers.mapping_of Helpers.field_mapping (txt "pix"))
       /\ In source sources
       /\ get [("nome_pagador", VStr []); ("nome", VStr (txt "Ana"))] source
          = Some (VStr (txt "Ana")).
Proof.
  apply (normalized_fields_come_from_raw_data
           [("nome_pagador", VStr []); ("nome", VStr (txt "Ana"))]
           (txt "pix") (Clock.DateTime 2025 5 20 17 51 22 0)
           "nome_pagador" (VStr (txt "Ana"))).
  vm_compute. reflexivity.
Defined.

End Normalize.

(** ** What the entries hold *)

Section TypedEntries.
Import Py Re Dict Typed.

Lemma text_field_not_amount (k : string) :
  text_field k = true -> amount_key k = false.
Proof.
  unfold text_field, extracted_fields. cbn [existsb].
  repeat rewrite orb_true_iff.
  intros H.
  repeat match goal with
         | H : _ \/ _ |- _ => destruct H as [H | H]
         end; try discriminate H;
    apply String.eqb_eq in H; subst k; reflexivity.
Qed.

Lemma entries_weaken (d : dict) : fields_ok d = true -> well_typed d = true.
Proof.
  unfold fields_ok, well_typed. induction d as [|[k v] d IH]; [reflexivity |].
  cbn [forallb]. intros H. apply andb_true_iff in H. destruct H as [Hk Hd].
  rewrite (IH Hd), andb_true_r. revert Hk. unfold entry_ok. cbn [fst snd].
  destruct v; trivial. intros Hk. rewrite (text_field_not_amount _ Hk).
  reflexivity.
Qed.

Lemma ok_set (tk : string -> bool) (d : dict) (k : string) (v : value) :
  forallb (entry_ok tk) d = true -> entry_ok tk (k, v) = true ->
  forallb (entry_ok tk) (set d k v) = true.
Proof.
  intros Hd Hv. induction d as [|[k0 v0] d IH]; cbn [set forallb].
  - rewrite Hv. reflexivity.
  - cbn [forallb] in Hd. apply andb_true_iff in Hd. destruct Hd as [H0 Hd].
    destruct (String.eqb k0 k); cbn [forallb].
    + rewrite Hv, Hd. reflexivity.
    + rewrite H0, (IH Hd). reflexivity.
Qed.

Lemma ok_get (tk : string -> bool) (d : dict) (k : string) (v : value) :
  forallb (entry_ok tk) d = true -> get d k = Some v -> entry_ok tk (k, v) = true.
Proof.
  induction d as [|[k0 v0] d IH]; cbn [get forallb]; [discriminate |].
  intros H. apply andb_true_iff in H. destruct H as [H0 Hd].
  destruct (String.eqb_spec k0 k) as [<- | Hne].
  - intros E. injection E as <-. exact H0.
  - apply IH, Hd.
Qed.

Lemma ok_absent (tk : string -> bool) (d : dict) (k : string) :
  forallb (entry_ok tk) d = true -> tk k = false -> amount_key k = false ->
  get d k = None.
Proof.
  intros Hd Ht Ha. destruct (get d k) as [v |] eqn:Hg; [| reflexivity].
  pose proof (ok_get _ _ _ _ Hd Hg) as H. unfold entry_ok in H. cbn [fst snd] in H.
  destruct v; congruence.
Qed.

Lemma amount_key_false (k : string) :
  amount_key k = false ->
  String.eqb k "valor_total" = false /\ String.eqb k "valor_numerico" = false.
Proof. unfold amount_key. apply orb_false_iff. Qed.

Lemma extracted_set_str (d : dict) (k : string) (s : str) :
  text_field k = true -> extracted d -> extracted (set d k (VStr s)).
Proof.
  intros Hk [Hf Ha]. split.
  - apply ok_set; [exact Hf | exact Hk].
  - destruct (amount_key_false _ (text_field_not_amount _ Hk)) as [H1 H2].
    rewrite !get_set, H1, H2. exact Ha.
Qed.

Lemma extracted_set_text (d : dict) (k t : string) :
  text_field k = true -> extracted d -> extracted (Extractor.set_text d k t).
Proof. apply extracted_set_str. Qed.

Lemma extracted_set_name (d : dict) (name : option str) (k1 k2 : string) :
  text_field k1 = true -> text_field k2 = true ->
  extracted d -> extracted (Extractor.set_name d name k1 k2).
Proof.
  intros H1 H2 Hd. unfold Extractor.set_name.
  destruct name as [s |]; [| exact Hd].
  destruct (nonempty s); [| exact Hd].
  apply extracted_set_str; [exact H2 |]. apply extracted_set_str; assumption.
Qed.

Lemma extracted_if (b : bool) (d1 d2 : dict) :
  extracted d1 -> extracted d2 -> extracted (if b then d1 else d2).
Proof. destruct b; trivial. Qed.

Lemma extracted_amount (d : dict) (x : float) :
  extracted d ->
  extracted (set (set d "valor_total" (VFloat x)) "valor_numerico" (VFloat x)).
Proof.
  intros [Hf _]. split.
  - apply ok_set; [apply ok_set |]; trivial.
  - rewrite !get_set. reflexivity.
Qed.

Lemma extracted_amount_rev (d : dict) (x : float) :
  extracted d ->
  extracted (set (set d "valor_numerico" (VFloat x)) "valor_total" (VFloat x)).
Proof.
  intros [Hf _]. split.
  - apply ok_set; [apply ok_set |]; trivial.
  - rewrite !get_set. reflexivity.
Qed.

Lemma extracted_nil : extracted [].
Proof. split; reflexivity. Qed.

Lemma extracted_tipo (s : str) : extracted [("tipo_documento", VStr s)].
Proof. split; reflexivity. Qed.

End TypedEntries.

(** One step of a proof that a dictionary is [extracted]. *)
Ltac extracted_step :=
  lazymatch goal with
  | |- Typed.extracted (if _ then _ else _) => apply extracted_if
  | |- Typed.extracted (Extractor.set_text _ _ _) =>
    apply extracted_set_text; [reflexivity |]
  | |- Typed.extracted (Extractor.set_name _ _ _ _) =>
    apply extracted_set_name; [reflexivity | reflexivity |]
  | |- Typed.extracted
         (Dict.set (Dict.set _ "valor_total" (Dict.VFloat ?x))
                   "valor_numerico" (Dict.VFloat ?x)) =>
    apply extracted_amount
  | |- Typed.extracted
         (Dict.set (Dict.set _ "valor_numerico" (Dict.VFloat ?x))
                   "valor_total" (Dict.VFloat ?x)) =>
    apply extracted_amount_rev
  | |- Typed.extracted (Dict.set _ _ (Dict.VStr _)) =>
    apply extracted_set_str; [reflexivity |]
  | |- Typed.extracted [] => exact extracted_nil
  | |- Typed.extracted [("tipo_documento", Dict.VStr _)] => apply extracted_tipo
  | |- Typed.extracted (match ?o with Some _ => _ | None => _ end) =>
    destruct o
  | |- Typed.extracted (match ?o with Py.Ok _ => _ | Py.Raise _ => _ end) =>
    destruct o
  | |- Typed.extracted _ => assumption
  end.

(** The local definitions still open are unfolded. *)
Ltac unfold_locals :=
  repeat match goal with
         | v := _ |- _ => progress unfold v
         end.

(** A [let] at the head of the computation is named; a dictionary that
    is [extracted] is kept with that fact only. *)
Ltac peel_let :=
  lazymatch goal with
  | |- (let x := ?v in @?f x) = ?rhs -> ?concl =>
    let y := fresh x in
    pose (y := v);
    let g := eval cbv beta in (f y) in
    change (g = rhs -> concl);
    tryif (let T := type of y in unify T Dict.dict)
    then first [ assert (Typed.extracted y)
                   by (unfold_locals; repeat extracted_step);
                 clearbody y
               | idtac ]
    else clearbody y
  end.

(** A step that may raise is taken on its result. *)
Ltac peel_bind :=
  lazymatch goal with
  | |- Py.bind ?o ?k = ?rhs -> ?concl =>
    let a := fresh "a" in
    destruct o as [a | ?]; [| discriminate];
    let g := eval cbv beta in (k a) in
    change (g = rhs -> concl)
  end.

(** A step that returned. *)
Ltac peel_ok :=
  lazymatch goal with
  | |- Py.bind (Py.Ok ?a) ?k = ?rhs -> ?concl =>
    let g := eval cbv beta in (k a) in
    change (g = rhs -> concl)
  end.

Section ExtractorsTyped.
Import Py Re Dict Typed Static.

Lemma will_bank_extracted (text : str) (d : dict) :
  Extractor.extract_pix_will_bank_data text = Ok d -> extracted d.
Proof.
  cbv delta [Extractor.extract_pix_will_bank_data]. cbv beta.
  repeat first [peel_let | peel_bind].
  intros E. injection E as <-.
  unfold_locals. repeat extracted_step.
Qed.

Lemma first_search_group1 (patterns : list regex) (text : str) (mo : match_obj) :
  forallb has_group1 patterns = true ->
  Extractor.first_search false patterns text = Some mo ->
  exists g, group mo 1 = Ok (Some g).
Proof.
  intros Hp Hf. apply first_search_in in Hf. destruct Hf as [p [Hin Hs]].
  rewrite forallb_forall in Hp.
  exact (search_group1 false p text mo (Hp p Hin) Hs).
Qed.

Lemma nubank_extracted (text : str) (d : dict) :
  Extractor.extract_nubank_data text = Ok d -> extracted d.
Proof.
  cbv delta [Extractor.extract_nubank_data]. cbv beta.
  repeat peel_let. peel_bind. repeat peel_let.
  lazymatch goal with
  | |- bind ?o _ = _ -> _ =>
    assert (Hd : exists d1, o = Ok d1 /\ extracted d1)
  end.
  { destruct (Extractor.first_search false Extractor.nubank_data_patterns
                                     cleaned_text) as [mo |]; [| eauto].
    cbn [group bind of_option]. eexists. split; [reflexivity |].
    repeat extracted_step. }
  destruct Hd as [d1 [-> Hd1]]. peel_ok.
  lazymatch goal with
  | |- bind ?o _ = _ -> _ =>
    assert (Hd : exists d2, o = Ok d2 /\ extracted d2)
  end.
  { destruct (Extractor.first_search false Extractor.nubank_hora_patterns
                                     cleaned_text) as [mo |] eqn:Hf; [| eauto].
    destruct (first_search_group1 Extractor.nubank_hora_patterns cleaned_text mo)
      as [g ->]; [vm_compute; reflexivity | exact Hf |].
    cbn [bind of_option]. eexists. split; [reflexivity |].
    repeat extracted_step. }
  destruct Hd as [d2 [-> Hd2]]. peel_ok.
  repeat first [peel_let | peel_bind].
  intros E. injection E as <-.
  unfold_locals. repeat extracted_step.
Qed.

Lemma generic_extracted (text : str) (d : dict) :
  Extractor.extract_generic_data text = Ok d -> extracted d.
Proof.
  cbv delta [Extractor.extract_generic_data]. cbv beta.
  repeat peel_let.
  intros E. injection E as <-.
  unfold_locals. repeat extracted_step.
Qed.

Lemma by_layout_extracted (text layout : str) (d : dict) :
  Extractor._extract_by_layout text layout = Ok d -> extracted d.
Proof.
  unfold Extractor._extract_by_layout, Extractor.extract_caixa_data,
    Extractor.extract_bb_data.
  destruct (str_eqb layout (txt "will_bank")); [apply will_bank_extracted |].
  destruct (str_eqb layout (txt "nubank")); [apply nubank_extracted |].
  destruct (str_eqb layout (txt "caixa")); [apply generic_extracted |].
  destruct (str_eqb layout (txt "bb")); apply generic_extracted.
Qed.

Lemma helpers_layout_label (text : str) :
  In (Helpers.detect_document_layout text) layout_labels.
Proof.
  unfold Helpers.detect_document_layout. cbv zeta.
  repeat match goal with
         | |- context [contains ?x (lower text)] =>
           destruct (contains x (lower text)); cbn [orb andb negb]
         end; cbn [layout_labels In]; tauto.
Qed.

End ExtractorsTyped.

(** ** The entries of [extract_data] *)

Section EntryShape.
Import Py Re Dict Typed Static.

Lemma typed_update (d : dict) (raw cleaned layout arquivo em : str) :
  well_typed d = true ->
  well_typed (update d [ ("raw_text", VStr raw); ("cleaned_text", VStr cleaned);
                         ("layout_detectado", VStr layout);
                         ("arquivo", VStr arquivo);
                         ("processado_em", VStr em) ]) = true.
Proof.
  intros H. unfold update. cbn [fold_left fst snd].
  unfold well_typed. repeat (apply ok_set; [| reflexivity]). exact H.
Qed.

Lemma get_update (d : dict) (raw cleaned layout arquivo em : str) (k : string) :
  get (update d [ ("raw_text", VStr raw); ("cleaned_text", VStr cleaned);
                  ("layout_detectado", VStr layout);
                  ("arquivo", VStr arquivo);
                  ("processado_em", VStr em) ]) k
  = if String.eqb "processado_em" k then Some (VStr em)
    else if String.eqb "arquivo" k then Some (VStr arquivo)
    else if String.eqb "layout_detectado" k then Some (VStr layout)
    else if String.eqb "cleaned_text" k then Some (VStr cleaned)
    else if String.eqb "raw_text" k then Some (VStr raw)
    else get d k.
Proof.
  unfold update. cbn [fold_left fst snd]. rewrite !get_set. reflexivity.
Qed.

(** What [extract_data] returns: an error entry, or the fields of a
    layout extractor with the five fields added at the end. *)
Lemma extract_data_cases (ocr : result str) (image_path : option str)
      (now : Clock.datetime) :
  (exists erro layout,
      In layout error_labels
      /\ Extractor.extract_data ocr image_path now
         = Extractor.error_dict erro layout image_path now)
  \/ (exists fields raw cleaned layout,
         extracted fields /\ In layout layout_labels
         /\ Extractor.extract_data ocr image_path now
            = update fields
                [ ("raw_text", VStr raw); ("cleaned_text", VStr cleaned);
                  ("layout_detectado", VStr layout);
                  ("arquivo", VStr (Extractor.path_or_unknown image_path));
                  ("processado_em", VStr (Clock.isoformat now)) ]).
Proof.
  unfold Extractor.extract_data. cbv zeta.
  destruct ocr as [recognised | e]; cbn [bind].
  - destruct (nonempty (strip (Helpers.extract_text_from_image recognised)));
      cbn [negb].
    + destruct (Extractor._extract_by_layout _ _) as [fields | e] eqn:Hf;
        cbn [bind].
      * right. exists fields. do 3 eexists. split; [| split; [| reflexivity]].
        -- exact (by_layout_extracted _ _ _ Hf).
        -- apply helpers_layout_label.
      * left. do 2 eexists. split; [| reflexivity]. cbn; auto.
    + left. do 2 eexists. split; [| reflexivity]. cbn; auto.
  - left. do 2 eexists. split; [| reflexivity]. cbn; auto.
Qed.

Lemma extract_data_typed (ocr : result str) (image_path : option str)
      (now : Clock.datetime) :
  well_typed (Extractor.extract_data ocr image_path now) = true
  /\ get (Extractor.extract_data ocr image_path now) "valor_total"
     = get (Extractor.extract_data ocr image_path now) "valor_numerico".
Proof.
  destruct (extract_data_cases ocr image_path now)
    as [[erro [layout [Hl ->]]] | [fields [raw [cleaned [layout [[Hf Ha] [Hl ->]]]]]]].
  - split; reflexivity.
  - split; [apply typed_update, entries_weaken, Hf |].
    rewrite !get_update. cbn [String.eqb Ascii.eqb Bool.eqb]. exact Ha.
Qed.

(** X15.  Every entry [extract_data] returns holds floats under
    'valor_total' and 'valor_numerico', text under every other key and
    None nowhere; the two amounts are the same; 'layout_detectado' is
    there, and the entry has 'erro' exactly when that label is 'vazio'
    or 'erro', in which case it has no amount; otherwise the label is
    one of the eight layouts. *)
Theorem extract_data_entry_shape (ocr : result str) (image_path : option str)
        (now : Clock.datetime) :
  let d := Extractor.extract_data ocr image_path now in
  well_typed d = true
  /\ get d "valor_total" = get d "valor_numerico"
  /\ get d "arquivo" = Some (VStr (Extractor.path_or_unknown image_path))
  /\ get d "processado_em" = Some (VStr (Clock.isoformat now))
  /\ exists layout,
       get d "layout_detectado" = Some (VStr layout)
       /\ ((has d "erro" = true /\ In layout error_labels
            /\ get d "valor_total" = None)
           \/ (has d "erro" = false /\ In layout layout_labels)).
Proof.
  cbv zeta.
  destruct (extract_data_typed ocr image_path now) as [Ht Hs].
  split; [exact Ht |]. split; [exact Hs |]. clear Ht Hs.
  destruct (extract_data_cases ocr image_path now)
    as [[erro [layout [Hl ->]]] | [fields [raw [cleaned [layout [[Hf Ha] [Hl ->]]]]]]].
  - repeat split. exists layout. split; [reflexivity |]. left.
    repeat split. exact Hl.
  - rewrite !get_update. cbn [String.eqb Ascii.eqb Bool.eqb].
    split; [reflexivity |]. split; [reflexivity |].
    exists layout. split; [reflexivity |]. right. split; [| exact Hl].
    unfold has. rewrite get_update. cbn [String.eqb Ascii.eqb Bool.eqb].
    rewrite (ok_absent text_field fields "erro" Hf eq_refl eq_refl). reflexivity.
Qed.

End EntryShape.

(** ** The Receipt of a well-typed entry *)

Section ReceiptTotal.
Import Py Re Dict Typed.

Lemma typed_text (d : dict) (k : string) (dflt : str) :
  well_typed d = true -> amount_key k = false ->
  exists s, get_or d k (VStr dflt) = VStr s.
Proof.
  intros Hd Hk. unfold get_or. destruct (get d k) as [v |] eqn:Hg; [| eauto].
  pose proof (ok_get _ _ _ _ Hd Hg) as H. unfold entry_ok in H.
  cbn [fst snd] in H. rewrite Hk in H. destruct v; try discriminate. eauto.
Qed.

Lemma typed_float (d : dict) (k : string) :
  well_typed d = true -> amount_key k = true ->
  exists x, get_or d k (VFloat (Fin 0)) = VFloat x.
Proof.
  intros Hd Hk. unfold get_or. destruct (get d k) as [v |] eqn:Hg; [| eauto].
  pose proof (ok_get _ _ _ _ Hd Hg) as H. unfold entry_ok in H.
  cbn [fst snd] in H. rewrite Hk in H. destruct v; try discriminate. eauto.
Qed.

Lemma typed_text_valued (d : dict) :
  well_typed d = true -> Shape.text_valued d = true.
Proof.
  intros Hd. unfold Shape.text_valued. rewrite forallb_forall. intros k Hk.
  unfold Shape.text_or_absent. destruct (get d k) as [v |] eqn:Hg; [| reflexivity].
  pose proof (ok_get _ _ _ _ Hd Hg) as H. unfold entry_ok in H.
  cbn [fst snd] in H. destruct v; try discriminate; [reflexivity |].
  cbn [In] in Hk.
  repeat match goal with
         | H : _ \/ _ |- _ => destruct H as [H | H]
         end; try contradiction; subst k; discriminate.
Qed.

Lemma amount_of_float (d : dict) :
  well_typed d = true -> exists x, amount_of d = VFloat x.
Proof.
  intros Hd. unfold amount_of.
  destruct (typed_float d "valor_total" Hd eq_refl) as [vt ->].
  destruct (typed_float d "valor_numerico" Hd eq_refl) as [vn ->].
  unfold or_else. destruct (truth (VFloat vt)); eauto.
Qed.

Lemma chatbot_data_of_float (d : dict) (x : float) :
  well_typed d = true -> amount_of d = VFloat x ->
  match Main.create_chatbot_ready_data d with
  | Ok r =>
    x <> Inf false
    /\ Main.valor_numerico (Main.resumo r) = x
    /\ Main.valor (Main.resumo r) = Helpers.format_currency x
    /\ Main.nivel_confianca (Main.metadados_sistema r)
       = (match get_or d "valor_total" (VFloat (Fin 0)) with
          | VFloat t => if float_ltb (Fin 0) t then txt "alta" else txt "baixa"
          | _ => txt "baixa"
          end)
  | Raise e => x = Inf false /\ e = infinity_error
  end.
Proof.
  intros Hd Hx.
  destruct (validation_total d [] (typed_text_valued d Hd)) as [pv Hpv].
  destruct (typed_float d "valor_total" Hd eq_refl) as [vt Hvt].
  destruct (typed_text d "tipo_documento" (txt "desconhecido") Hd eq_refl)
    as [tipo Htipo].
  destruct (typed_text d "layout_detectado" [] Hd eq_refl) as [banco Hbanco].
  destruct (typed_text d "destino_nome" [] Hd eq_refl) as [dn Hdn].
  destruct (typed_text d "recebedor_nome" [] Hd eq_refl) as [rn Hrn].
  destruct (or_else_text dn rn) as [nome Hnome].
  unfold Main.create_chatbot_ready_data, Helpers.standardize_data_for_chatbot.
  cbv zeta. fold (amount_of d). rewrite Hx, Hpv, Hvt, Htipo, Hbanco, Hdn, Hrn, Hnome.
  cbn [bind Main.as_str Helpers.tipo_transacao Helpers.metadados
       Helpers.banco_detectado Helpers.destino Helpers.d_nome
       Helpers.valor_numerico Helpers.valor_formatado Helpers.confiabilidade].
  destruct (truth (VStr nome)); cbn [bind];
    destruct x as [q | [|] | |]; cbn [float_ltb negb int_of_float bind].
  all: try (destruct (negb (Qle_bool q 0)); cbn [bind]).
  all: cbn [Main.resumo Main.valor_numerico Main.valor Main.metadados_sistema
            Main.nivel_confianca].
  all: repeat split; try discriminate; try reflexivity.
Qed.

End ReceiptTotal.

Section Receipts.
Import Py Re Dict Typed.

(** X16.  On an entry that holds floats under the amount keys and text
    elsewhere, [create_chatbot_ready_data] builds a Receipt, whose
    amount is the one of the entry and whose formatted amount is that
    amount formatted, unless the amount is infinite: then, and only
    then, it raises, and what it raises is the OverflowError of [int]. *)
Theorem receipt_unless_amount_infinite (d : dict) :
  well_typed d = true ->
  exists x,
    amount_of d = VFloat x
    /\ match Main.create_chatbot_ready_data d with
       | Ok r =>
         x <> Inf false
         /\ Main.valor_numerico (Main.resumo r) = x
         /\ Main.valor (Main.resumo r) = Helpers.format_currency x
       | Raise e => x = Inf false /\ e = infinity_error
       end.
Proof.
  intros Hd. destruct (amount_of_float d Hd) as [x Hx]. exists x.
  split; [exact Hx |].
  pose proof (chatbot_data_of_float d x Hd Hx) as H.
  destruct (Main.create_chatbot_ready_data d) as [r | e]; [| exact H].
  destruct H as [H1 [H2 [H3 _]]]. auto.
Qed.

Lemma receipt_unless_amount_infinite_witness :
  exists x,
    amount_of [("valor_total", VFloat (Inf false)); ("tipo_documento", VStr (txt "pix"))]
    = VFloat x
    /\ match Main.create_chatbot_ready_data
               [("valor_total", VFloat (Inf false));
                ("tipo_documento", VStr (txt "pix"))] with
       | Ok r =>
         x <> Inf false
         /\ Main.valor_numerico (Main.resumo r) = x
         /\ Main.valor (Main.resumo r) = Helpers.format_currency x
       | Raise e => x = Inf false /\ e = infinity_error
       end.
Proof.
  apply receipt_unless_amount_infinite. reflexivity.
Defined.

Lemma process_image_typed (ocr : result str) (image_path : str)
      (t_extract t_main : Clock.datetime) :
  let d := Main.process_image ocr image_path t_extract t_main in
  well_typed d = true
  /\ get d "valor_numerico" = get d "valor_total"
  /\ get d "erro"
     = get (Extractor.extract_data ocr (Some image_path) t_extract) "erro".
Proof.
  cbv zeta. unfold Main.process_image. cbv zeta.
  destruct (extract_data_typed ocr (Some image_path) t_extract) as [Hd Ha].
  split; [| split].
  - unfold well_typed. repeat (apply ok_set; [| reflexivity]). exact Hd.
  - rewrite !get_set. cbn [String.eqb Ascii.eqb Bool.eqb]. symmetry. exact Ha.
  - rewrite !get_set. reflexivity.
Qed.

Lemma process_image_receipt (ocr : result str) (image_path : str)
      (t_extract t_main : Clock.datetime) :
  let d := Main.process_image ocr image_path t_extract t_main in
  match Main.receipt_of d with
  | None => has d "erro" = true
  | Some (Ok r) =>
    has d "erro" = false
    /\ get_or d "valor_total" (VFloat (Fin 0))
       = VFloat (Main.valor_numerico (Main.resumo r))
    /\ Main.valor_numerico (Main.resumo r) <> Inf false
    /\ Main.valor (Main.resumo r)
       = Helpers.format_currency (Main.valor_numerico (Main.resumo r))
    /\ Main.nivel_confianca (Main.metadados_sistema r)
       = (if float_ltb (Fin 0) (Main.valor_numerico (Main.resumo r))
          then txt "alta" else txt "baixa")
  | Some (Raise e) =>
    has d "erro" = false /\ e = infinity_error
    /\ get d "valor_total" = Some (VFloat (Inf false))
  end.
Proof.
  cbv zeta.
  destruct (process_image_typed ocr image_path t_extract t_main) as [Hd [Ha _]].
  set (d := Main.process_image ocr image_path t_extract t_main) in *.
  unfold Main.receipt_of. destruct (has d "erro") eqn:He; [reflexivity |].
  destruct (typed_float d "valor_total" Hd eq_refl) as [t Ht].
  assert (Hx : amount_of d = VFloat t).
  { unfold amount_of. rewrite Ht. revert Ht. unfold get_or. rewrite Ha.
    intros ->. unfold or_else. destruct (truth (VFloat t)); reflexivity. }
  pose proof (chatbot_data_of_float d t Hd Hx) as H. rewrite Ht in H.
  destruct (Main.create_chatbot_ready_data d) as [r | e].
  - destruct H as [H1 [H2 [H3 H4]]]. rewrite H2. auto.
  - destruct H as [-> ->]. repeat split.
    revert Ht. unfold get_or. destruct (get d "valor_total") as [v |].
    + intros ->. reflexivity.
    + discriminate.
Qed.

(** X17.  One turn of the loop of [main], then the preparation for the
    chatbot: an entry with 'erro' gets no Receipt; any other entry gets
    one, whose amount is the one of the entry, whose formatted amount is
    that amount formatted and whose confidence level is 'alta' exactly
    when the amount is positive, unless [create_chatbot_ready_data]
    raises, and then what it raises is the OverflowError of [int] on an
    infinite amount: never a TypeError, an AttributeError or a
    ValueError. *)
Theorem pipeline_receipt (ocr : result str) (image_path : str)
        (t_extract t_main : Clock.datetime) :
  let d := Main.process_image ocr image_path t_extract t_main in
  match Main.receipt_of d with
  | None => has d "erro" = true
  | Some (Ok r) =>
    has d "erro" = false
    /\ get_or d "valor_total" (VFloat (Fin 0))
       = VFloat (Main.valor_numerico (Main.resumo r))
    /\ Main.valor_numerico (Main.resumo r) <> Inf false
    /\ Main.valor (Main.resumo r)
       = Helpers.format_currency (Main.valor_numerico (Main.resumo r))
    /\ Main.nivel_confianca (Main.metadados_sistema r)
       = (if float_ltb (Fin 0) (Main.valor_numerico (Main.resumo r))
          then txt "alta" else txt "baixa")
  | Some (Raise e) =>
    has d "erro" = false /\ e = infinity_error
    /\ get d "valor_total" = Some (VFloat (Inf false))
  end.
Proof. exact (process_image_receipt ocr image_path t_extract t_main). Qed.

End Receipts.

(** ** What the Will-Bank extraction can raise *)

Section WillBankRaises.
Import Py Re Dict Typed Static.

Lemma group0_text (mo : match_obj) (attr : string) :
  exists g, Extractor.group_text mo 0 attr = Ok g.
Proof. unfold Extractor.group_text. cbn [group bind]. eauto. Qed.

Lemma find_destino_raises (patterns : list regex) (text : str) (e : exn) :
  forallb (fun p => has_group1 p || Nat.eqb (ngroups p) 0) patterns = true ->
  Extractor.find_destino patterns text = Raise e -> e = no_such_group.
Proof.
  induction patterns as [|p rest IH]; cbn [Extractor.find_destino forallb];
    [discriminate |].
  intros Hp. apply andb_true_iff in Hp. destruct Hp as [Hp Hrest].
  destruct (search true p text) as [mo |] eqn:Hs; [| exact (IH Hrest)].
  destruct (group0_text mo "strip") as [whole ->]. cbn [bind].
  destruct (contains (txt "Ana Cleuma") whole); [discriminate |].
  apply orb_true_iff in Hp. destruct Hp as [Hg | Hn].
  - destruct (group_text_group1 true p text mo "strip" Hg Hs) as [g [_ ->]].
    discriminate.
  - apply Nat.eqb_eq in Hn.
    destruct (search_from_groups true p text text 0 mo Hs) as [Hng _].
    unfold Extractor.group_text, group. rewrite Hng, Hn. cbn [Nat.leb bind].
    intros E. injection E as <-. reflexivity.
Qed.

Lemma find_origem_returns (patterns : list regex) (text : str) :
  forallb has_group1 patterns = true ->
  exists o, Extractor.find_origem patterns text = Ok o.
Proof.
  induction patterns as [|p rest IH]; cbn [Extractor.find_origem forallb];
    [eauto |].
  intros Hp. apply andb_true_iff in Hp. destruct Hp as [Hp Hrest].
  destruct (search true p text) as [mo |] eqn:Hs; [| exact (IH Hrest)].
  destruct (group_text_group1 true p text mo "strip" Hp Hs) as [g [_ ->]].
  cbn [bind]. eauto.
Qed.

(** X18.  [extract_pix_will_bank_data] raises nothing but the IndexError
    'no such group' of the payee lookup and the OverflowError of [int]
    on an infinite amount. *)
Theorem will_bank_raises_only (text : str) (e : exn) :
  Extractor.extract_pix_will_bank_data text = Raise e ->
  e = no_such_group \/ e = infinity_error.
Proof.
  cbv delta [Extractor.extract_pix_will_bank_data]. cbv beta.
  repeat peel_let.
  lazymatch goal with
  | |- bind ?o _ = _ -> _ => destruct o as [dn | e1] eqn:Hdn
  end.
  2:{ intros E. change (@Raise dict e1 = Raise e) in E. injection E as <-. left.
      revert Hdn. apply find_destino_raises. vm_compute. reflexivity. }
  peel_ok.
  lazymatch goal with
  | |- bind ?o _ = _ -> _ => assert (Ho : exists name, o = Ok name)
  end.
  { destruct (contains (txt "Antonio Valmi") cleaned_text); [eauto |].
    destruct (contains (txt "Sheila Fernandes") cleaned_text); [eauto |].
    apply find_origem_returns. vm_compute. reflexivity. }
  destruct Ho as [name ->]. peel_ok.
  repeat peel_let.
  destruct valor_encontrado as [q | [|] | |];
    cbn [float_ltb negb int_of_float bind];
    try (destruct (negb (Qle_bool q 0)); cbn [bind]);
    try discriminate.
  intros E. injection E as <-. right. reflexivity.
Qed.

Lemma will_bank_raises_only_witness :
  no_such_group = no_such_group \/ no_such_group = infinity_error.
Proof.
  apply (will_bank_raises_only
           (txt "Antonio Valmi PARA ANA CLEUMA SOUSA DOS SANTOS")).
  vm_compute. reflexivity.
Defined.

End WillBankRaises.

(** ** The matcher is sound for the texts a pattern can match *)

Section MatcherSound.
Import Py Re Lang.

Lemma rep_greedy_sound (p : ascii -> bool) (k : kont) (caps : captures)
      (res : nat * captures) (s : str) :
  forall lo hi i,
    rep_greedy p lo hi i s caps k = Some res ->
    exists w rest,
      s = w ++ rest /\ forallb p w = true /\ lo <= List.length w
      /\ match hi with Some h => List.length w <= h | None => True end
      /\ k (i + List.length w) rest caps = Some res.
Proof.
  induction s as [|c s IH]; intros lo hi i H.
  - cbn [rep_greedy] in H. destruct lo; [| discriminate].
    exists [], []. cbn [List.length]. rewrite Nat.add_0_r.
    repeat split; [lia | destruct hi; [lia | exact I] | exact H].
  - cbn [rep_greedy] in H.
    assert (Hstop : match lo with O => k i (c :: s) caps | S _ => None end
                    = Some res ->
                    exists w rest,
                      c :: s = w ++ rest /\ forallb p w = true
                      /\ lo <= List.length w
                      /\ match hi with
                         | Some h => List.length w <= h
                         | None => True
                         end
                      /\ k (i + List.length w) rest caps = Some res).
    { destruct lo; [| discriminate]. intros Hk.
      exists [], (c :: s). cbn [List.length]. rewrite Nat.add_0_r.
      repeat split; [lia | destruct hi; [lia | exact I] | exact Hk]. }
    destruct (more_allowed hi && p c) eqn:Hc; [| exact (Hstop H)].
    destruct (rep_greedy p (Nat.pred lo) (option_map Nat.pred hi) (S i) s caps k)
      as [r |] eqn:Hr; [| exact (Hstop H)].
    injection H as ->.
    destruct (IH _ _ _ Hr) as [w [rest [Hs [Hw [Hlo [Hhi Hk]]]]]].
    apply andb_true_iff in Hc. destruct Hc as [Hm Hpc].
    exists (c :: w), rest. cbn [List.length forallb app].
    rewrite Hpc, Hw, Hs. repeat split.
    + lia.
    + destruct hi as [[|h] |]; cbn [option_map Nat.pred more_allowed] in *;
        [discriminate | lia | exact I].
    + rewrite <- Hk. f_equal. lia.
Qed.

Lemma rep_lazy_sound (p : ascii -> bool) (k : kont) (caps : captures)
      (res : nat * captures) (s : str) :
  forall lo hi i,
    rep_lazy p lo hi i s caps k = Some res ->
    exists w rest,
      s = w ++ rest /\ forallb p w = true /\ lo <= List.length w
      /\ match hi with Some h => List.length w <= h | None => True end
      /\ k (i + List.length w) rest caps = Some res.
Proof.
  induction s as [|c s IH]; intros lo hi i H.
  - cbn [rep_lazy] in H. destruct lo; [| discriminate].
    destruct (k i [] caps) as [r |] eqn:Hk; [| discriminate].
    injection H as ->.
    exists [], []. cbn [List.length]. rewrite Nat.add_0_r.
    repeat split; [lia | destruct hi; [lia | exact I] | exact Hk].
  - cbn [rep_lazy] in H.
    assert (Hmore : (if more_allowed hi && p c
                     then rep_lazy p (Nat.pred lo) (option_map Nat.pred hi)
                                   (S i) s caps k
                     else None) = Some res ->
                    exists w rest,
                      c :: s = w ++ rest /\ forallb p w = true
                      /\ lo <= List.length w
                      /\ match hi with
                         | Some h => List.length w <= h
                         | None => True
                         end
                      /\ k (i + List.length w) rest caps = Some res).
    { destruct (more_allowed hi && p c) eqn:Hc; [| discriminate]. intros Hr.
      destruct (IH _ _ _ Hr) as [w [rest [Hs [Hw [Hlo [Hhi Hk]]]]]].
      apply andb_true_iff in Hc. destruct Hc as [Hm Hpc].
      exists (c :: w), rest. cbn [List.length forallb app].
      rewrite Hpc, Hw, Hs. repeat split.
      + lia.
      + destruct hi as [[|h] |]; cbn [option_map Nat.pred more_allowed] in *;
          [discriminate | lia | exact I].
      + rewrite <- Hk. f_equal. lia. }
    destruct lo; [| exact (Hmore H)].
    destruct (k i (c :: s) caps) as [r |] eqn:Hk; [| exact (Hmore H)].
    injection H as ->.
    exists [], (c :: s). cbn [List.length]. rewrite Nat.add_0_r.
    repeat split; [lia | destruct hi; [lia | exact I] | exact Hk].
Qed.

(** Whatever the matcher accepts for [r] is a text [r] can match,
    followed by a text the continuation accepts. *)
Lemma m_sound (ic : bool) (r : regex) :
  forall i s caps k res,
    m ic r i s caps k = Some res ->
    exists w rest caps',
      s = w ++ rest /\ lang ic r i w rest
      /\ k (i + List.length w) rest caps' = Some res.
Proof.
  induction r as [| a | r1 IH1 r2 IH2 | r1 IH1 r2 IH2 | a lo hi g | n r1 IH1 | |];
    intros i s caps k res H; cbn [m] in H.
  - exists [], s, caps. cbn [List.length lang]. rewrite Nat.add_0_r. auto.
  - destruct s as [|c s]; [discriminate |].
    destruct (atom_test ic a c) eqn:Hc; [| discriminate].
    exists [c], s, caps. cbn [List.length lang app].
    replace (i + 1) with (S i) by lia. eauto.
  - destruct (IH1 _ _ _ _ _ H) as [w1 [rest1 [caps1 [Hs [L1 Hk]]]]].
    destruct (IH2 _ _ _ _ _ Hk) as [w2 [rest2 [caps2 [Hs2 [L2 Hk2]]]]].
    exists (w1 ++ w2), rest2, caps2. split; [| split].
    + rewrite Hs, Hs2, app_assoc. reflexivity.
    + cbn [lang]. exists w1, w2. rewrite <- Hs2. auto.
    + rewrite length_app, Nat.add_assoc. exact Hk2.
  - destruct (m ic r1 i s caps k) as [r |] eqn:H1.
    + injection H as ->.
      destruct (IH1 _ _ _ _ _ H1) as [w [rest [caps' [Hs [L Hk]]]]].
      exists w, rest, caps'. cbn [lang]. auto.
    + destruct (IH2 _ _ _ _ _ H) as [w [rest [caps' [Hs [L Hk]]]]].
      exists w, rest, caps'. cbn [lang]. auto.
  - assert (Hrep : exists w rest,
               s = w ++ rest /\ forallb (atom_test ic a) w = true
               /\ lo <= List.length w
               /\ match hi with Some h => List.length w <= h | None => True end
               /\ k (i + List.length w) rest caps = Some res).
    { destruct g; [apply rep_greedy_sound in H | apply rep_lazy_sound in H];
        exact H. }
    destruct Hrep as [w [rest [Hs [Hw [Hlo [Hhi Hk]]]]]].
    exists w, rest, caps. cbn [lang]. auto.
  - destruct (IH1 _ _ _ _ _ H) as [w [rest [caps' [Hs [L Hk]]]]].
    exists w, rest, ((n, (i, i + List.length w)) :: caps'). cbn [lang]. auto.
  - destruct i; [| discriminate].
    exists [], s, caps. cbn [List.length lang]. auto.
  - exists [], s, caps. cbn [List.length lang]. rewrite Nat.add_0_r.
    destruct s as [|c [|c' s]]; try discriminate; [auto |].
    destruct (ch_eqb c (chr 10)) eqn:Hc; [| discriminate].
    apply ch_eqb_eq in Hc. subst c. auto.
Qed.

Lemma re_match_sound (ic : bool) (r : regex) (text : str) :
  Helpers.matched (re_match ic r text) = true ->
  exists w rest, text = w ++ rest /\ lang ic r 0 w rest.
Proof.
  unfold re_match, match_at.
  destruct (m ic r 0 text [] accept) as [[j caps] |] eqn:H; [| discriminate].
  intros _. destruct (m_sound ic r _ _ _ _ _ H) as [w [rest [caps' [Hs [L _]]]]].
  eauto.
Qed.

End MatcherSound.

(** ** Counting characters in a match *)

Section Counting.
Import Py Re Lang.

Lemma in_all_ascii (c : ascii) : In c all_ascii.
Proof.
  unfold all_ascii. rewrite <- (ascii_nat_embedding c).
  apply in_map, in_seq. pose proof (nat_ascii_bounded c). lia.
Qed.

Lemma atom_must_spec (ic : bool) (p : ascii -> bool) (a : atom) (c : ascii) :
  atom_must ic p a = true -> atom_test ic a c = true -> p c = true.
Proof.
  unfold atom_must. rewrite forallb_forall. intros H Hc.
  specialize (H c (in_all_ascii c)). rewrite Hc in H. exact H.
Qed.

Lemma atom_may_spec (ic : bool) (p : ascii -> bool) (a : atom) (c : ascii) :
  atom_may ic p a = false -> atom_test ic a c = true -> p c = false.
Proof.
  unfold atom_may. intros H Hc.
  destruct (p c) eqn:Hp; [| reflexivity].
  assert (E : existsb (fun c => atom_test ic a c && p c) all_ascii = true).
  { apply existsb_exists. exists c. split; [apply in_all_ascii |].
    rewrite Hc, Hp. reflexivity. }
  congruence.
Qed.

Lemma count_app (p : ascii -> bool) (a b : str) :
  count p (a ++ b) = count p a + count p b.
Proof. unfold count. rewrite filter_app, length_app. reflexivity. Qed.

Lemma count_le (p : ascii -> bool) (s : str) : count p s <= List.length s.
Proof. unfold count. apply filter_length_le. Qed.

Lemma count_all (p q : ascii -> bool) (s : str) :
  (forall c, q c = true -> p c = true) ->
  forallb q s = true -> count p s = List.length s.
Proof.
  intros Hpq. unfold count. induction s as [|c s IH]; [reflexivity |].
  cbn [forallb filter]. intros H. apply andb_true_iff in H. destruct H as [Hc Hs].
  rewrite (Hpq c Hc). cbn [List.length]. rewrite (IH Hs). reflexivity.
Qed.

Lemma count_none (p q : ascii -> bool) (s : str) :
  (forall c, q c = true -> p c = false) ->
  forallb q s = true -> count p s = 0.
Proof.
  intros Hpq. unfold count. induction s as [|c s IH]; [reflexivity |].
  cbn [forallb filter]. intros H. apply andb_true_iff in H. destruct H as [Hc Hs].
  rewrite (Hpq c Hc). exact (IH Hs).
Qed.

(** The static bounds hold of every text the pattern can match. *)
Lemma lang_count (ic : bool) (p : ascii -> bool) (r : regex) :
  forall i w rest,
    lang ic r i w rest -> within (count p w) (cmin ic p r) (cmax ic p r).
Proof.
  unfold within.
  induction r as [| a | r1 IH1 r2 IH2 | r1 IH1 r2 IH2 | a lo hi g | n r1 IH1 | |];
    intros i w rest L; cbn [lang cmin cmax] in *.
  - subst w. split; [apply Nat.le_0_l | apply Nat.le_refl].
  - destruct L as [c [-> Hc]]. unfold count. cbn [filter]. split.
    + destruct (atom_must ic p a) eqn:Ha; [| lia].
      rewrite (atom_must_spec ic p a c Ha Hc). cbn [List.length]. lia.
    + destruct (atom_may ic p a) eqn:Ha.
      * destruct (p c); cbn [List.length]; lia.
      * rewrite (atom_may_spec ic p a c Ha Hc). cbn [List.length]. lia.
  - destruct L as [w1 [w2 [-> [L1 L2]]]]. rewrite count_app.
    destruct (IH1 _ _ _ L1) as [A1 B1]. destruct (IH2 _ _ _ L2) as [A2 B2].
    split; [lia |].
    destruct (cmax ic p r1), (cmax ic p r2); try exact I. lia.
  - destruct L as [L | L].
    + destruct (IH1 _ _ _ L) as [A B]. split; [lia |].
      destruct (cmax ic p r1), (cmax ic p r2); try exact I. lia.
    + destruct (IH2 _ _ _ L) as [A B]. split; [lia |].
      destruct (cmax ic p r1), (cmax ic p r2); try exact I. lia.
  - destruct L as [Hw [Hlo Hhi]]. split.
    + destruct (atom_must ic p a) eqn:Ha; [| lia].
      rewrite (count_all p (atom_test ic a) w (fun c => atom_must_spec ic p a c Ha) Hw).
      exact Hlo.
    + destruct (atom_may ic p a) eqn:Ha.
      * destruct hi as [h |]; [| exact I]. pose proof (count_le p w). lia.
      * rewrite (count_none p (atom_test ic a) w
                            (fun c => atom_may_spec ic p a c Ha) Hw). lia.
  - apply (IH1 _ _ _ L).
  - destruct L as [-> _]. split; [apply Nat.le_0_l | apply Nat.le_refl].
  - destruct L as [-> _]. split; [apply Nat.le_0_l | apply Nat.le_refl].
Qed.

Lemma lang_anchored (ic : bool) (r : regex) :
  forall i w rest,
    anchored_end r = true -> lang ic r i w rest ->
    rest = [] \/ rest = [chr 10].
Proof.
  induction r as [| a | r1 IH1 r2 IH2 | r1 IH1 r2 IH2 | a lo hi g | n r1 IH1 | |];
    intros i w rest Ha L; try discriminate.
  - cbn [lang] in L. destruct L as [w1 [w2 [-> [L1 L2]]]].
    destruct r2; try (exact (IH2 _ _ _ Ha L2)).
    cbn [lang] in L2. subst w2. cbn [app] in L1. exact (IH1 _ _ _ Ha L1).
  - cbn [anchored_end] in Ha. apply andb_true_iff in Ha. destruct Ha as [H1 H2].
    cbn [lang] in L. destruct L as [L | L]; eauto.
  - exact (IH1 _ _ _ Ha L).
  - cbn [lang] in L. apply L.
Qed.

(** A pattern that ends with [$], matched by [re.match]: the whole
    text, but for a newline at the end, is a text the pattern can
    match. *)
Lemma re_match_anchored (ic : bool) (r : regex) (text : str) :
  anchored_end r = true ->
  Helpers.matched (re_match ic r text) = true ->
  exists w rest,
    text = w ++ rest /\ (rest = [] \/ rest = [chr 10]) /\ lang ic r 0 w rest.
Proof.
  intros Ha H. apply re_match_sound in H. destruct H as [w [rest [-> L]]].
  exists w, rest. split; [reflexivity |]. split; [| exact L].
  exact (lang_anchored ic r _ _ _ Ha L).
Qed.

Lemma re_match_count (ic : bool) (p : ascii -> bool) (r : regex) (text : str) :
  anchored_end r = true ->
  Helpers.matched (re_match ic r text) = true ->
  p (chr 10) = false ->
  within (count p text) (cmin ic p r) (cmax ic p r).
Proof.
  intros Ha H Hp. destruct (re_match_anchored ic r text Ha H)
    as [w [rest [-> [Hrest L]]]].
  rewrite count_app.
  assert (Hr : count p rest = 0).
  { destruct Hrest as [-> | ->]; [reflexivity |].
    unfold count. cbn [filter]. rewrite Hp. reflexivity. }
  rewrite Hr, Nat.add_0_r. exact (lang_count ic p r _ _ _ L).
Qed.

End Counting.

(** ** CPF and CNPJ *)

(** The static bounds of a pattern are computed. *)
Ltac compute_bounds :=
  repeat match goal with
         | H : context [Lang.cmin ?ic ?p ?r] |- _ =>
           let v := eval vm_compute in (Lang.cmin ic p r) in
           change (Lang.cmin ic p r) with v in H
         | H : context [Lang.cmax ?ic ?p ?r] |- _ =>
           let v := eval vm_compute in (Lang.cmax ic p r) in
           change (Lang.cmax ic p r) with v in H; cbv iota in H
         end.

Section CpfCnpj.
Import Py Re Lang Tidy.

Lemma space_not_digit (c : ascii) : isspace c = true -> isdigit c = false.
Proof. all_chars c. Qed.

Lemma count_strip (s : str) : count isdigit (strip s) = count isdigit s.
Proof.
  destruct (strip_split s) as [a [b [Hs [Ha Hb]]]].
  rewrite Hs at 2. rewrite !count_app.
  rewrite (count_none isdigit isspace a space_not_digit Ha).
  rewrite (count_none isdigit isspace b space_not_digit Hb). lia.
Qed.

Lemma only_digits_count (s : str) :
  List.length (Helpers.only_digits s) = count isdigit s.
Proof.
  unfold Helpers.only_digits, count. f_equal. apply filter_ext.
  intros c. unfold set_test. cbn [existsb item_test]. apply orb_false_r.
Qed.

Lemma strip_no_newline (s w : str) : strip s <> w ++ [chr 10].
Proof.
  intros E. pose proof (strip_trimmed s) as H. rewrite E in H.
  unfold trimmed in H. apply andb_true_iff in H. destruct H as [_ H].
  rewrite rev_app_distr in H. discriminate H.
Qed.

(** X19.  A text [validate_cpf] accepts has, between the whitespace
    around it, 11 to 14 characters, and 6 or 11 digits in all; so
    [validate_cnpj], which wants 14 digits, rejects it. *)
Theorem valid_cpf_is_not_cnpj (s : str) :
  Helpers.validate_cpf s = true ->
  11 <= List.length (strip s) <= 14
  /\ (count isdigit s = 6 \/ count isdigit s = 11)
  /\ Helpers.validate_cnpj s = false.
Proof.
  unfold Helpers.validate_cpf. destruct (nonempty s) eqn:Hne; cbn [negb];
    [| discriminate].
  intros H. apply existsb_exists in H. destruct H as [pattern [Hin Hm]].
  assert (Ha : anchored_end pattern = true).
  { cbn [Helpers.cpf_patterns In] in Hin.
    destruct Hin as [<- | [<- | [<- | [<- | []]]]]; reflexivity. }
  destruct (re_match_anchored false pattern (strip s) Ha Hm)
    as [w [rest [Hs [Hrest L]]]].
  destruct Hrest as [-> | ->]; [| elim (strip_no_newline s w Hs)].
  rewrite app_nil_r in Hs. subst w.
  pose proof (lang_count false isdigit pattern _ _ _ L) as [D1 D2].
  pose proof (lang_count false (fun _ => true) pattern _ _ _ L) as [L1 L2].
  rewrite count_strip in D1, D2.
  assert (Hlen : count (fun _ => true) (strip s) = List.length (strip s)).
  { apply (count_all _ (fun _ => true)); [trivial |].
    apply forallb_forall. trivial. }
  rewrite Hlen in L1, L2.
  assert (Hd : count isdigit s = 6 \/ count isdigit s = 11).
  { cbn [Helpers.cpf_patterns In] in Hin.
    destruct Hin as [<- | [<- | [<- | [<- | []]]]];
      compute_bounds; lia. }
  split; [| split; [exact Hd |]].
  - cbn [Helpers.cpf_patterns In] in Hin.
    destruct Hin as [<- | [<- | [<- | [<- | []]]]];
      compute_bounds; lia.
  - unfold Helpers.validate_cnpj. rewrite Hne. cbn [negb]. cbv zeta.
    rewrite only_digits_count. apply Nat.eqb_neq. lia.
Qed.

Lemma valid_cpf_is_not_cnpj_witness :
  11 <= List.length (strip (txt " 123.456.789-00 ")) <= 14
  /\ (count isdigit (txt " 123.456.789-00 ") = 6
      \/ count isdigit (txt " 123.456.789-00 ") = 11)
  /\ Helpers.validate_cnpj (txt " 123.456.789-00 ") = false.
Proof. apply valid_cpf_is_not_cnpj. vm_compute. reflexivity. Defined.

End CpfCnpj.

(** ** The currency validator *)

Section ValidateCurrency.
Import Py Re Lang Amount SameShape.

Lemma digit_test (c : ascii) : atom_test false digit c = isdigit c.
Proof. unfold digit. cbn. apply orb_false_r. Qed.

Lemma digit_tests_all (w : str) :
  forallb (atom_test false digit) w = forallb isdigit w.
Proof.
  induction w as [|c w IH]; [reflexivity |].
  cbn [forallb]. rewrite digit_test, IH. reflexivity.
Qed.

Lemma separator_test (c : ascii) :
  atom_test false (ASet (chars ".,")) c = true -> c = "."%char \/ c = ","%char.
Proof. all_chars c. Qed.

Lemma kept_not_newline (v : str) :
  ~ In (chr 10) (sub_class_empty (chars "R$" ++ [ISpace]) v).
Proof.
  unfold sub_class_empty. intros H. apply filter_In in H. destruct H as [_ H].
  discriminate H.
Qed.

(** What the pattern of [validate_currency] can match: digits, then
    nothing or a separator and two digits. *)
Lemma currency_lang (w rest : str) :
  lang false Helpers.currency_pattern 0 w rest ->
  exists ip tail,
    w = ip ++ tail /\ forallb isdigit ip = true /\ ip <> []
    /\ (tail = []
        \/ exists c fp, tail = c :: fp /\ (c = "."%char \/ c = ","%char)
                        /\ forallb isdigit fp = true /\ List.length fp = 2).
Proof.
  unfold Helpers.currency_pattern, cat, maybe, plus, times. cbn [fold_right lang].
  intros L.
  destruct L as [w0 [wa [-> [[-> _] L]]]].
  destruct L as [w1 [wb [-> [[Hd [Hlo _]] L]]]].
  destruct L as [w2 [wc [-> [Hopt L]]]].
  destruct L as [w3 [w4 [-> [[-> _] ->]]]].
  cbn [app]. rewrite !app_nil_r. exists w1, w2. split; [reflexivity |].
  rewrite digit_tests_all in Hd. split; [exact Hd |]. split.
  - intros ->. cbn [List.length] in Hlo. lia.
  - destruct Hopt as [Hg | ->]; [right | left; reflexivity].
    destruct Hg as [wd [we [-> [[c [-> Hc]] Hg]]]].
    destruct Hg as [wf [wg [-> [[Hf [H2 H2']] ->]]]].
    exists c, wf. rewrite app_nil_r. cbn [app].
    rewrite digit_tests_all in Hf.
    split; [reflexivity |]. split; [exact (separator_test c Hc) |].
    split; [exact Hf | lia].
Qed.

Lemma parse_decimal_digits (ds : str) :
  forallb isdigit ds = true -> ds <> [] ->
  parse_decimal ds = Some (scale10 (Z.of_N (digits_value 0 ds)) 0).
Proof.
  intros Hd Hne. unfold parse_decimal.
  rewrite <- (app_nil_r ds) at 1. rewrite (span_all isdigit ds [] Hd I).
  rewrite app_nil_r. destruct ds as [|c ds]; [now elim Hne |].
  cbn [app parse_exponent List.length Z.of_nat Z.sub]. reflexivity.
Qed.

Lemma float_of_digits (ds : str) :
  forallb isdigit ds = true -> ds <> [] ->
  float_of_str ds = Ok (to_float (scale10 (Z.of_N (digits_value 0 ds)) 0)).
Proof.
  intros Hd Hne. destruct ds as [|c ds]; [now elim Hne |].
  rewrite (float_of_plain c ds (forallb_impl _ _ _ digit_is_plain Hd)).
  rewrite (parse_decimal_digits (c :: ds) Hd Hne). reflexivity.
Qed.

(** X20.  What [validate_currency] accepts is, without 'R', '$' and
    whitespace, a run of digits, or a run of digits, a point or a comma
    and two digits.  [_parse_currency] reads it as the float of the
    number it shows: the run of digits as the integer part and, after
    a separator, the two digits as the decimals.  It never falls back
    to 0.0 on an accepted text. *)
Theorem valid_currency_is_parsed (v : str) :
  Helpers.validate_currency v = true ->
  exists ip fp,
    forallb isdigit ip = true /\ ip <> [] /\ forallb isdigit fp = true
    /\ ((sub_class_empty (chars "R$" ++ [ISpace]) v = ip /\ fp = [])
        \/ (exists c,
               (c = "."%char \/ c = ","%char)
               /\ sub_class_empty (chars "R$" ++ [ISpace]) v = ip ++ c :: fp
               /\ List.length fp = 2))
    /\ Extractor._parse_currency v
       = to_float (scale10 (Z.of_N (digits_value 0 (ip ++ fp)))
                           (- Z.of_nat (List.length fp))).
Proof.
  unfold Helpers.validate_currency. destruct (nonempty v) eqn:Hne; cbn [negb];
    [| discriminate].
  cbv zeta. intros H.
  destruct (re_match_anchored false Helpers.currency_pattern _ eq_refl H)
    as [w [rest [Hs [Hrest L]]]].
  destruct Hrest as [-> | ->].
  2:{ exfalso. apply (kept_not_newline v). rewrite Hs. apply in_or_app.
      right. left. reflexivity. }
  rewrite app_nil_r in Hs.
  destruct (currency_lang w [] L) as [ip [tail [-> [Hip [Hne' Htail]]]]].
  destruct Htail as [-> | [c [fp [-> [Hc [Hfp Hlen]]]]]].
  - rewrite app_nil_r in *. exists ip, []. rewrite app_nil_r.
    split; [exact Hip |]. split; [exact Hne' |]. split; [reflexivity |].
    split; [left; split; [exact Hs | reflexivity] |].
    unfold Extractor._parse_currency. rewrite Hne. cbn [negb]. cbv zeta.
    rewrite Hs. change (txt ",") with [","%char].
    rewrite !contains_single, (digits_without "," ip eq_refl Hip).
    cbn [andb]. rewrite (float_of_digits ip Hip Hne'). reflexivity.
  - exists ip, fp.
    split; [exact Hip |]. split; [exact Hne' |]. split; [exact Hfp |].
    split; [right; exists c; split; [exact Hc | split; [exact Hs | exact Hlen]] |].
    assert (Hnil : ip ++ fp <> []).
    { intros E. apply app_eq_nil in E. destruct E as [E _]. exact (Hne' E). }
    destruct Hc as [-> | ->].
    + apply (parse_currency_point_lemma v ip fp Hne Hs Hip Hfp Hnil).
    + rewrite (parse_currency_comma_text v ip fp Hne Hs
                 (forallb_impl _ _ _ digit_is_plain Hip)
                 (forallb_impl _ _ _ digit_is_plain Hfp)).
      rewrite !(filter_keep_all _ _ Hip), !(filter_keep_all _ _ Hfp).
      rewrite (float_of_decimal_text ip fp Hip Hfp Hnil). reflexivity.
Qed.

Lemma valid_currency_is_parsed_witness :
  exists ip fp,
    forallb isdigit ip = true /\ ip <> [] /\ forallb isdigit fp = true
    /\ ((sub_class_empty (chars "R$" ++ [ISpace]) (txt "R$ 33,00") = ip
         /\ fp = [])
        \/ (exists c,
               (c = "."%char \/ c = ","%char)
               /\ sub_class_empty (chars "R$" ++ [ISpace]) (txt "R$ 33,00")
                  = ip ++ c :: fp
               /\ List.length fp = 2))
    /\ Extractor._parse_currency (txt "R$ 33,00")
       = to_float (scale10 (Z.of_N (digits_value 0 (ip ++ fp)))
                           (- Z.of_nat (List.length fp))).
Proof. apply valid_currency_is_parsed. vm_compute. reflexivity. Defined.

End ValidateCurrency.

(** ** Formatted amounts and the currency validator *)

Section FormattedAmounts.
Import Py Re Lang Amount SameShape.

Lemma small_integer_part (n : N) :
  (n < 1000)%N ->
  group3 (str_of_N n) = str_of_N n
  /\ 1 <= List.length (str_of_N n) <= 3.
Proof.
  intros Hn.
  assert (Hall : forallb (fun k => str_eqb (group3 (str_of_N (N.of_nat k)))
                                           (str_of_N (N.of_nat k))
                                   && Nat.leb 1 (List.length (str_of_N (N.of_nat k)))
                                   && Nat.leb (List.length (str_of_N (N.of_nat k))) 3)
                         (seq 0 1000) = true) by (vm_compute; reflexivity).
  rewrite forallb_forall in Hall.
  specialize (Hall (N.to_nat n)). rewrite N2Nat.id in Hall.
  assert (Hin : In (N.to_nat n) (seq 0 1000)) by (apply in_seq; lia).
  apply Hall in Hin. apply andb_true_iff in Hin. destruct Hin as [Hin H3].
  apply andb_true_iff in Hin. destruct Hin as [Hg H1].
  apply str_eqb_eq in Hg. apply Nat.leb_le in H1, H3. auto.
Qed.

Lemma digit_value_le (c : ascii) : isdigit c = true -> (digit_value c <= 9)%N.
Proof. all_chars c. Qed.

Lemma three_digits_lt (l : str) :
  forallb isdigit l = true -> List.length l <= 3 -> (digits_value 0 l < 1000)%N.
Proof.
  intros Hd Hl.
  destruct l as [|a [|b [|c [|d l]]]]; cbn [List.length] in Hl; try lia;
    cbn [forallb] in Hd; repeat rewrite andb_true_iff in Hd;
    cbn [digits_value].
  - lia.
  - destruct Hd as [Ha _]. pose proof (digit_value_le a Ha). lia.
  - destruct Hd as [Ha [Hb _]].
    pose proof (digit_value_le a Ha). pose proof (digit_value_le b Hb). lia.
  - destruct Hd as [Ha [Hb [Hc _]]].
    pose proof (digit_value_le a Ha). pose proof (digit_value_le b Hb).
    pose proof (digit_value_le c Hc). lia.
Qed.

Lemma group3_has_comma (ds : str) :
  4 <= List.length ds -> In ","%char (group3 ds).
Proof.
  intros H. unfold group3. apply -> in_rev.
  rewrite <- length_rev in H.
  destruct (rev ds) as [|a [|b [|c [|d l]]]]; cbn [List.length] in H; try lia.
  cbn [group3_rev]. right. right. right. left. reflexivity.
Qed.

Lemma count_in (p : ascii -> bool) (c : ascii) (s : str) :
  In c s -> p c = true -> 1 <= count p s.
Proof.
  intros Hin Hp. unfold count.
  assert (H : In c (filter p s)) by (apply filter_In; auto).
  destruct (filter p s); [contradiction | cbn [List.length]; lia].
Qed.

Lemma currency_atoms_respect (a : atom) :
  In a (Static.atoms Helpers.currency_pattern) -> respects false a.
Proof.
  intros Ha. apply cpf_atom_respects. vm_compute in Ha. vm_compute.
  repeat (destruct Ha as [<- | Ha]; [tauto |]). contradiction.
Qed.

(** The validator on a written amount: accepted below R$ 1.000,00,
    refused from there on, where the text has a thousands separator. *)
Lemma valid_written (cents : N) :
  Helpers.validate_currency (written cents) = (cents <? 100000)%N.
Proof.
  unfold Helpers.validate_currency.
  change (nonempty (written cents)) with true. cbn [negb]. cbv zeta.
  rewrite (cleaned_written cents).
  set (ip := str_of_N (cents / 100)).
  set (dd := zfill 2 (str_of_N (cents mod 100))).
  destruct (two_digits (cents mod 100)) as [Hlen [Hd _]];
    [apply N.mod_lt; discriminate |]. fold dd in Hlen, Hd.
  pose proof (str_of_N_digits (cents / 100)) as Hip. fold ip in Hip.
  destruct (N.ltb_spec cents 100000) as [Hlt | Hge].
  - assert (Hn : (cents / 100 < 1000)%N)
      by (apply N.Div0.div_lt_upper_bound; lia).
    destruct (small_integer_part _ Hn) as [Hg Hl]. fold ip in Hg, Hl.
    rewrite Hg, (map_subst_digits ip Hip).
    assert (Hshape : same_shape (ip ++ ","%char :: dd)
                                (repeat "0"%char (List.length ip)
                                 ++ ","%char :: repeat "0"%char (List.length dd))
                     = true).
    { apply same_shape_app; [apply digits_shape, Hip |].
      cbn [same_shape]. rewrite (digits_shape dd Hd). reflexivity. }
    rewrite (re_match_shape _ _ _ currency_atoms_respect Hshape), Hlen.
    destruct (List.length ip) as [|[|[|[|n]]]]; try lia; vm_compute; reflexivity.
  - apply not_true_is_false. intros Hm.
    pose proof (re_match_count false separator Helpers.currency_pattern _
                               eq_refl Hm eq_refl) as [_ Hmax].
    compute_bounds. rewrite count_app in Hmax.
    assert (H4 : 4 <= List.length ip).
    { destruct (Nat.le_gt_cases 4 (List.length ip)) as [H4 | H3]; [exact H4 |].
      exfalso. assert (Hv : (digits_value 0 ip < 1000)%N)
        by (apply three_digits_lt; [exact Hip | lia]).
      unfold ip in Hv. rewrite digits_value_str_of_N in Hv.
      assert (Hc : (cents / 100 * 100 <= cents)%N)
        by (rewrite N.mul_comm; apply N.Div0.mul_div_le).
      assert (Hc' : (cents < (cents / 100 + 1) * 100)%N).
      { pose proof (N.div_mod cents 100 ltac:(discriminate)) as E.
        pose proof (N.mod_lt cents 100 ltac:(discriminate)). lia. }
      lia. }
    assert (H1 : 1 <= count separator (map (subst_char "," ".") (group3 ip))).
    { apply (count_in separator "."%char); [| reflexivity].
      apply in_map_iff. exists ","%char. split; [reflexivity |].
      apply group3_has_comma, H4. }
    assert (H2 : 1 <= count separator (","%char :: dd)).
    { apply (count_in separator ","%char); [left; reflexivity | reflexivity]. }
    lia.
Qed.

(** X21.  [validate_currency] accepts what [format_currency] writes for
    the float of an amount of whole hundredths exactly when the amount
    is below R$ 1.000,00: from there on the text has a thousands
    separator, and the validator rejects it. *)
Theorem formatted_amount_is_valid_below_1000 (cents : N) :
  (of_cents cents < overflow_threshold)%Q ->
  Helpers.validate_currency
    (Helpers.format_currency (to_float (of_cents cents)))
  = (cents <? 100000)%N.
Proof.
  intros Hlt. destruct (N.eq_dec cents 0) as [-> | Hpos];
    [vm_compute; reflexivity |].
  assert (Hc : (0 < cents)%N) by lia.
  destruct (float_in_hundredths cents Hc Hlt)
    as [shown [Hs [_ [Hsmall Hbig]]]].
  assert (H0 : (0 <= of_cents cents)%Q) by (unfold of_cents, Qle; simpl; lia).
  rewrite (to_float_finite _ H0 Hlt).
  rewrite (format_currency_text _ shown (round64_nonneg _ H0) Hs).
  rewrite valid_written.
  destruct (Qlt_le_dec (of_cents cents) (pow2 46)) as [Hl | Hg].
  - rewrite (Hsmall Hl). reflexivity.
  - specialize (Hbig Hg).
    assert (Hcents : (100000 <= cents)%N).
    { change (pow2 46) with (inject_Z (2 ^ 46)) in Hg.
      unfold of_cents, Qle in Hg. cbn [Qnum Qden inject_Z] in Hg.
      assert (E : (2 ^ 46 = 70368744177664)%Z) by reflexivity.
      rewrite E in Hg. lia. }
    destruct (N.ltb_spec shown 100000), (N.ltb_spec cents 100000);
      try reflexivity; lia.
Qed.

Lemma formatted_amount_is_valid_below_1000_witness :
  Helpers.validate_currency
    (Helpers.format_currency (to_float (of_cents 124790)))
  = (124790 <? 100000)%N.
Proof.
  apply (formatted_amount_is_valid_below_1000 124790).
  vm_compute. reflexivity.
Defined.

End FormattedAmounts.

(** ** What the groups of a match hold *)

Section GroupContents.
Import Py Re Lang.

Variable ic : bool.
Variable G : nat -> str -> Prop.
Variable text : str.

Lemma skipn_more (i : nat) (w rest : str) :
  skipn i text = w ++ rest -> skipn (i + List.length w) text = rest.
Proof.
  intros H. rewrite Nat.add_comm, <- skipn_skipn, H.
  rewrite skipn_app, skipn_all, Nat.sub_diag. reflexivity.
Qed.

Lemma slice_span (i : nat) (w rest : str) :
  skipn i text = w ++ rest -> slice i (i + List.length w) text = w.
Proof.
  intros H. unfold slice. rewrite H.
  replace (i + List.length w - i) with (List.length w) by lia.
  rewrite firstn_app, firstn_all, Nat.sub_diag. cbn [firstn].
  apply app_nil_r.
Qed.

Lemma m_sound_caps (r : regex) :
  groups_in ic G r ->
  forall i s caps k res,
    skipn i text = s -> caps_in G text caps ->
    m ic r i s caps k = Some res ->
    exists w rest caps',
      s = w ++ rest /\ lang ic r i w rest /\ caps_in G text caps'
      /\ k (i + List.length w) rest caps' = Some res.
Proof.
  induction r as [| a | r1 IH1 r2 IH2 | r1 IH1 r2 IH2 | a lo hi g | n r1 IH1 | |];
    intros Hg i s caps k res Hs Hc H; cbn [m] in H; cbn [groups_in] in Hg.
  - exists [], s, caps. cbn [List.length lang]. rewrite Nat.add_0_r.
    split; [reflexivity |]. split; [reflexivity |]. split; assumption.
  - destruct s as [|c s]; [discriminate |].
    destruct (atom_test ic a c) eqn:Ha; [| discriminate].
    exists [c], s, caps. cbn [List.length lang app].
    replace (i + 1) with (S i) by lia.
    split; [reflexivity |]. split; [exists c; auto |]. split; assumption.
  - destruct Hg as [Hg1 Hg2].
    destruct (IH1 Hg1 _ _ _ _ _ Hs Hc H) as [w1 [rest1 [caps1 [E1 [L1 [C1 K1]]]]]].
    assert (Hs1 : skipn (i + List.length w1) text = rest1)
      by (apply skipn_more; congruence).
    destruct (IH2 Hg2 _ _ _ _ _ Hs1 C1 K1) as [w2 [rest2 [caps2 [E2 [L2 [C2 K2]]]]]].
    exists (w1 ++ w2), rest2, caps2. split; [| split; [| split]].
    + rewrite E1, E2, app_assoc. reflexivity.
    + cbn [lang]. exists w1, w2. rewrite <- E2. auto.
    + exact C2.
    + rewrite length_app, Nat.add_assoc. exact K2.
  - destruct Hg as [Hg1 Hg2].
    destruct (m ic r1 i s caps k) as [r |] eqn:H1.
    + injection H as ->.
      destruct (IH1 Hg1 _ _ _ _ _ Hs Hc H1) as [w [rest [caps' [E [L [C K]]]]]].
      exists w, rest, caps'. cbn [lang].
      split; [exact E |]. split; [left; exact L |]. split; assumption.
    + destruct (IH2 Hg2 _ _ _ _ _ Hs Hc H) as [w [rest [caps' [E [L [C K]]]]]].
      exists w, rest, caps'. cbn [lang].
      split; [exact E |]. split; [right; exact L |]. split; assumption.
  - assert (Hrep : exists w rest,
               s = w ++ rest /\ forallb (atom_test ic a) w = true
               /\ lo <= List.length w
               /\ match hi with Some h => List.length w <= h | None => True end
               /\ k (i + List.length w) rest caps = Some res).
    { destruct g; [apply rep_greedy_sound in H | apply rep_lazy_sound in H];
        exact H. }
    destruct Hrep as [w [rest [E [Hw [Hlo [Hhi K]]]]]].
    exists w, rest, caps. cbn [lang].
    split; [exact E |]. split; [auto |]. split; assumption.
  - destruct Hg as [Hn Hg1].
    destruct (IH1 Hg1 _ _ _ _ _ Hs Hc H) as [w [rest [caps' [E [L [C K]]]]]].
    exists w, rest, ((n, (i, i + List.length w)) :: caps').
    split; [exact E |]. split; [exact L |]. split; [| exact K].
    intros n' a b [Hin | Hin].
    + injection Hin as <- <- <-.
      rewrite (slice_span i w rest) by congruence. exact (Hn _ _ _ L).
    + exact (C _ _ _ Hin).
  - destruct i; [| discriminate].
    exists [], s, caps. cbn [List.length lang].
    split; [reflexivity |]. split; [auto |]. split; assumption.
  - exists [], s, caps. cbn [List.length lang]. rewrite Nat.add_0_r.
    split; [reflexivity |].
    destruct s as [|c [|c' s]]; try discriminate.
    + split; [auto |]. split; assumption.
    + destruct (ch_eqb c (chr 10)) eqn:Hc'; [| discriminate].
      apply ch_eqb_eq in Hc'. subst c.
      split; [auto |]. split; assumption.
Qed.

Lemma caps_in_nil : caps_in G text [].
Proof. intros n a b []. Qed.

Lemma match_at_caps (r : regex) (i : nat) (mo : match_obj) :
  groups_in ic G r ->
  match_at ic r text i (skipn i text) = Some mo ->
  m_string mo = text /\ caps_in G text (m_caps mo)
  /\ lang ic r i (slice (m_start mo) (m_end mo) text) (skipn (m_end mo) text).
Proof.
  intros Hg. unfold match_at.
  destruct (m ic r i (skipn i text) [] accept) as [[j caps] |] eqn:H;
    [| discriminate].
  intros E. injection E as <-. cbn [m_string m_caps m_start m_end].
  destruct (m_sound_caps r Hg _ _ _ _ _ eq_refl caps_in_nil H)
    as [w [rest [caps' [E [L [C K]]]]]].
  unfold accept in K. injection K as <- <-.
  split; [reflexivity |]. split; [exact C |].
  rewrite (slice_span i w rest E), (skipn_more i w rest E). exact L.
Qed.

Lemma search_from_caps (r : regex) (mo : match_obj) :
  groups_in ic G r ->
  forall s i,
    skipn i text = s ->
    search_from ic r text i s = Some mo ->
    m_string mo = text /\ caps_in G text (m_caps mo)
    /\ lang ic r (m_start mo) (slice (m_start mo) (m_end mo) text)
            (skipn (m_end mo) text).
Proof.
  intros Hg. induction s as [|c s IH]; intros i Hs H; cbn [search_from] in H.
  - destruct (match_at ic r text i []) as [mo' |] eqn:Hm; [| discriminate].
    injection H as ->. rewrite <- Hs in Hm.
    assert (Hst : m_start mo = i).
    { revert Hm. unfold match_at.
      destruct (m ic r i (skipn i text) [] accept) as [[j caps] |];
        [| discriminate]. intros E. injection E as <-. reflexivity. }
    pose proof (match_at_caps r i mo Hg Hm) as P.
    rewrite Hst in P |- *. exact P.
  - destruct (match_at ic r text i (c :: s)) as [mo' |] eqn:Hm.
    + injection H as ->. rewrite <- Hs in Hm.
      assert (Hst : m_start mo = i).
      { revert Hm. unfold match_at.
        destruct (m ic r i (skipn i text) [] accept) as [[j caps] |];
          [| discriminate]. intros E. injection E as <-. reflexivity. }
      pose proof (match_at_caps r i mo Hg Hm) as P.
    rewrite Hst in P |- *. exact P.
    + apply (IH (S i)); [| exact H].
      replace (S i) with (i + List.length [c]) by (cbn; lia).
      apply (skipn_more i [c] s). exact Hs.
Qed.

Lemma search_caps (r : regex) (mo : match_obj) :
  groups_in ic G r ->
  search ic r text = Some mo ->
  m_string mo = text /\ caps_in G text (m_caps mo)
  /\ lang ic r (m_start mo) (slice (m_start mo) (m_end mo) text)
          (skipn (m_end mo) text).
Proof. intros Hg. apply (search_from_caps r mo Hg text 0). reflexivity. Qed.

Lemma cap_get_in (n : nat) (caps : captures) (a b : nat) :
  cap_get n caps = Some (a, b) -> In (n, (a, b)) caps.
Proof.
  induction caps as [|[g sp] caps IH]; cbn [cap_get]; [discriminate |].
  destruct (Nat.eqb_spec g n) as [-> | Hne].
  - intros E. injection E as ->. left. reflexivity.
  - intros E. right. exact (IH E).
Qed.

(** The text of a group of a match found by [re.search]. *)
Lemma search_group_in (r : regex) (mo : match_obj) (n : nat) (g : str) :
  groups_in ic G r ->
  search ic r text = Some mo ->
  group mo (S n) = Ok (Some g) -> G (S n) g.
Proof.
  intros Hg Hs. destruct (search_caps r mo Hg Hs) as [Ht [Hc _]].
  unfold group. destruct (Nat.leb (S n) (m_ngroups mo)); [| discriminate].
  destruct (cap_get (S n) (m_caps mo)) as [[a b] |] eqn:Hcap; [| discriminate].
  intros E. injection E as <-. rewrite Ht. apply Hc, cap_get_in, Hcap.
Qed.

Lemma finditer_from_caps (r : regex) :
  groups_in ic G r ->
  forall s skip i mo,
    skipn i text = s ->
    In mo (finditer_from ic r text skip i s) ->
    caps_in G text (m_caps mo).
Proof.
  intros Hg. induction s as [|c s IH]; intros skip i mo Hs Hin.
  - destruct skip; cbn [finditer_from] in Hin; [| contradiction].
    destruct (m ic r i [] [] accept) as [[j caps] |] eqn:H; [| contradiction].
    rewrite <- Hs in H.
    destruct (m_sound_caps r Hg _ _ _ _ _ eq_refl caps_in_nil H)
      as [w [rest [caps' [E [L [C K]]]]]].
    unfold accept in K. injection K as <- <-.
    destruct (Nat.eqb i (i + List.length w)).
    + destruct Hin as [<- | Hin]; [exact C |].
      rewrite Hs in *.
      destruct (m ic r i [] [] (advance i)) as [[j' caps2] |] eqn:H2.
      * destruct Hin as [<- | []]. cbn [m_caps].
        rewrite <- Hs in H2.
        destruct (m_sound_caps r Hg _ _ _ _ _ eq_refl caps_in_nil H2)
          as [w2 [rest2 [caps3 [E2 [L2 [C2 K2]]]]]].
        unfold advance in K2.
        destruct (Nat.eqb i (i + List.length w2)); [discriminate |].
        injection K2 as <- <-. exact C2.
      * contradiction.
    + destruct Hin as [<- | []]. exact C.
  - assert (Hs' : skipn (S i) text = s).
    { replace (S i) with (i + List.length [c]) by (cbn; lia).
      apply (skipn_more i [c] s). exact Hs. }
    destruct skip as [|sk]; cbn [finditer_from] in Hin;
      [| exact (IH _ _ _ Hs' Hin)].
    destruct (m ic r i (c :: s) [] accept) as [[j caps] |] eqn:H;
      [| exact (IH _ _ _ Hs' Hin)].
    rewrite <- Hs in H.
    destruct (m_sound_caps r Hg _ _ _ _ _ eq_refl caps_in_nil H)
      as [w [rest [caps' [E [L [C K]]]]]].
    unfold accept in K. injection K as <- <-.
    destruct (Nat.eqb i (i + List.length w)).
    + destruct Hin as [<- | Hin]; [exact C |].
      destruct (m ic r i (c :: s) [] (advance i)) as [[j' caps2] |] eqn:H2.
      * destruct Hin as [<- | Hin]; [| exact (IH _ _ _ Hs' Hin)].
        cbn [m_caps]. rewrite <- Hs in H2.
        destruct (m_sound_caps r Hg _ _ _ _ _ eq_refl caps_in_nil H2)
          as [w2 [rest2 [caps3 [E2 [L2 [C2 K2]]]]]].
        unfold advance in K2.
        destruct (Nat.eqb i (i + List.length w2)); [discriminate |].
        injection K2 as <- <-. exact C2.
      * exact (IH _ _ _ Hs' Hin).
    + destruct Hin as [<- | Hin]; [exact C | exact (IH _ _ _ Hs' Hin)].
Qed.

(** Every text [re.findall] returns for a pattern with one group is
    empty, the group having taken no part, or a text of the group. *)
Lemma findall_in (r : regex) (g : str) :
  groups_in ic G r ->
  In g (findall ic r text) -> g = [] \/ G 1 g.
Proof.
  intros Hg Hin. unfold findall in Hin. apply in_map_iff in Hin.
  destruct Hin as [mo [<- Hmo]].
  pose proof (finditer_from_caps r Hg text 0 0 mo eq_refl Hmo) as C.
  destruct (cap_get 1 (m_caps mo)) as [[a b] |] eqn:Hcap; [| left; reflexivity].
  right. apply C, cap_get_in, Hcap.
Qed.

End GroupContents.

(** ** The characters of a group *)

Section GroupChars.
Import Py Re Lang Static.

Lemma lang_chars (ic : bool) (r : regex) :
  forall i w rest, lang ic r i w rest -> forallb (in_atoms ic r) w = true.
Proof.
  unfold in_atoms.
  induction r as [| a | r1 IH1 r2 IH2 | r1 IH1 r2 IH2 | a lo hi g | n r1 IH1 | |];
    intros i w rest L; cbn [lang atoms] in *.
  - subst w. reflexivity.
  - destruct L as [c [-> Hc]]. cbn [forallb existsb]. rewrite Hc. reflexivity.
  - destruct L as [w1 [w2 [-> [L1 L2]]]]. rewrite forallb_app.
    apply andb_true_iff. split.
    + eapply forallb_impl; [| exact (IH1 _ _ _ L1)]. intros c Hc.
      rewrite existsb_app, Hc. reflexivity.
    + eapply forallb_impl; [| exact (IH2 _ _ _ L2)]. intros c Hc.
      rewrite existsb_app, Hc. apply orb_true_r.
  - destruct L as [L | L].
    + eapply forallb_impl; [| exact (IH1 _ _ _ L)]. intros c Hc.
      rewrite existsb_app, Hc. reflexivity.
    + eapply forallb_impl; [| exact (IH2 _ _ _ L)]. intros c Hc.
      rewrite existsb_app, Hc. apply orb_true_r.
  - destruct L as [Hw _]. eapply forallb_impl; [| exact Hw]. intros c Hc.
    cbn [existsb]. rewrite Hc. reflexivity.
  - exact (IH1 _ _ _ L).
  - destruct L as [-> _]. reflexivity.
  - destruct L as [-> _]. reflexivity.
Qed.

Lemma groups_chars (ic : bool) (P : nat -> ascii -> bool) (r : regex) :
  (forall n c, in_group ic r n c = true -> P n c = true) ->
  groups_in ic (fun n w => forallb (P n) w = true) r.
Proof.
  induction r as [| a | r1 IH1 r2 IH2 | r1 IH1 r2 IH2 | a lo hi g | n r1 IH1 | |];
    intros HP; cbn [groups_in]; try exact I.
  - split; [apply IH1 | apply IH2]; intros n c H; apply HP; cbn [in_group];
      rewrite H; [reflexivity | apply orb_true_r].
  - split; [apply IH1 | apply IH2]; intros n c H; apply HP; cbn [in_group];
      rewrite H; [reflexivity | apply orb_true_r].
  - split.
    + intros i w rest L. eapply forallb_impl; [| exact (lang_chars ic r1 _ _ _ L)].
      intros c Hc. apply HP. cbn [in_group]. rewrite Nat.eqb_refl, Hc.
      reflexivity.
    + apply IH1. intros n' c H. apply HP. cbn [in_group]. rewrite H.
      apply orb_true_r.
Qed.

(** Every character of a text [re.findall] returns passed a test
    inside group 1. *)
Lemma findall_chars (ic : bool) (r : regex) (text g : str) :
  In g (findall ic r text) -> forallb (in_group ic r 1) g = true.
Proof.
  intros Hin.
  destruct (findall_in ic (fun n w => forallb (in_group ic r n) w = true)
                       text r g) as [-> | H]; trivial.
  apply groups_chars. trivial.
Qed.

Lemma search_group_chars (ic : bool) (r : regex) (text : str) (mo : match_obj)
      (n : nat) (g : str) :
  search ic r text = Some mo -> group mo (S n) = Ok (Some g) ->
  forallb (in_group ic r (S n)) g = true.
Proof.
  intros Hs Hg.
  apply (search_group_in ic (fun n w => forallb (in_group ic r n) w = true)
                         text r mo n g); trivial.
  apply groups_chars. trivial.
Qed.

End GroupChars.

(** ** Numbers read from a numeric text *)

Section NumericText.
Import Py Re Lang Amount.

Lemma numeric_subst_plain (c : ascii) :
  numeric c = true -> plain (subst_char "," "." c) = true.
Proof. all_chars c. Qed.

Lemma scale10_nonneg (n : N) (e : Z) : Qle_bool 0 (scale10 (Z.of_N n) e) = true.
Proof.
  unfold scale10. destruct (0 <=? e)%Z eqn:He.
  - apply Qle_bool_iff. unfold Qle. cbn [Qnum Qden inject_Z].
    apply Z.leb_le in He. assert (0 <= 10 ^ e)%Z by (apply Z.pow_nonneg; lia).
    nia.
  - apply Qle_bool_iff. unfold Qle. cbn [Qnum Qden]. lia.
Qed.

Lemma parse_decimal_nonneg (s : str) (q : Q) :
  parse_decimal s = Some q -> Qle_bool 0 q = true.
Proof.
  unfold parse_decimal.
  destruct (span isdigit s) as [ip s1].
  destruct (match s1 with
            | [] => ([], s1)
            | c :: s1' => if ch_eqb c "." then span isdigit s1' else ([], s1)
            end) as [fp s2].
  destruct (ip ++ fp); [discriminate |].
  destruct (parse_exponent s2); [| discriminate].
  intros E. injection E as <-. apply scale10_nonneg.
Qed.

Lemma to_float_nonneg (q : Q) :
  Qle_bool 0 q = true -> float_leb (Fin 0) (to_float q) = true.
Proof.
  intros H. apply Qle_bool_iff in H.
  destruct (to_float_cases q H) as [-> | ->]; [reflexivity |].
  cbn [float_leb]. apply Qle_bool_iff, round64_nonneg, H.
Qed.

Lemma plain_float_nonneg (s : str) (x : float) :
  forallb plain s = true -> float_of_str s = Ok x ->
  float_leb (Fin 0) x = true.
Proof.
  intros Hp. destruct s as [|c s]; [discriminate |].
  rewrite (float_of_plain c s Hp).
  destruct (parse_decimal (c :: s)) as [q |] eqn:Hq; [| discriminate].
  intros E. injection E as <-.
  apply to_float_nonneg, (parse_decimal_nonneg _ _ Hq).
Qed.

(** A text of digits, points and commas, with its commas turned into
    points, is refused by [float] or read as a number that is not
    negative, and not NaN. *)
Lemma numeric_float_nonneg (g : str) (x : float) :
  forallb numeric g = true ->
  float_of_str (replace (txt ",") (txt ".") g) = Ok x ->
  float_leb (Fin 0) x = true.
Proof.
  intros Hn. change (txt ",") with [","%char]. change (txt ".") with ["."%char].
  rewrite replace_char. apply plain_float_nonneg.
  rewrite forallb_forall. intros c Hc. apply in_map_iff in Hc.
  destruct Hc as [y [<- Hy]]. apply numeric_subst_plain.
  rewrite forallb_forall in Hn. auto.
Qed.

Lemma numeric_float_error (g : str) (e : exn) :
  float_of_str (replace (txt ",") (txt ".") g) = Raise e -> e = float_error.
Proof.
  unfold float_of_str.
  destruct (drop_underscores None _) as [s1 |]; [| intros E; injection E; auto].
  destruct (match s1 with
            | [] => (false, s1)
            | c :: s2 =>
              if ch_eqb c "-" then (true, s2)
              else if ch_eqb c "+" then (false, s2) else (false, s1)
            end) as [neg body].
  destruct (str_eqb (lower body) (txt "inf") || str_eqb (lower body) (txt "infinity"));
    [discriminate |].
  destruct (str_eqb (lower body) (txt "nan")); [discriminate |].
  destruct (parse_decimal body); [discriminate |].
  intros E. injection E; auto.
Qed.

Lemma parsed_values_nonneg (found : list str) (v : float) :
  (forall g, In g found -> forallb numeric g = true) ->
  In v (Helpers.parsed_values found) -> float_leb (Fin 0) v = true.
Proof.
  induction found as [|g found IH]; intros Hf; [contradiction |].
  cbn [Helpers.parsed_values]. cbv zeta.
  destruct (float_of_str (replace (txt ",") (txt ".") g)) as [x | e] eqn:Hx.
  - intros [<- | Hin].
    + exact (numeric_float_nonneg g x (Hf g (or_introl eq_refl)) Hx).
    + apply IH; [| exact Hin]. intros g' Hg'. apply Hf. right. exact Hg'.
  - intros Hin. apply IH; [| exact Hin]. intros g' Hg'. apply Hf. right.
    exact Hg'.
Qed.

Lemma currency_values_numeric (c : ascii) :
  in_group false Helpers.currency_values_pattern 1 c = true -> numeric c = true.
Proof. all_chars c. Qed.

(** X22.  No number [extract_currency_values] returns is negative or
    NaN. *)
Theorem currency_values_are_not_negative (text : str) (v : float) :
  In v (Helpers.extract_currency_values text) -> float_leb (Fin 0) v = true.
Proof.
  unfold Helpers.extract_currency_values. apply parsed_values_nonneg.
  intros g Hg. apply findall_chars in Hg.
  exact (forallb_impl _ _ _ currency_values_numeric Hg).
Qed.

Lemma currency_values_are_not_negative_witness :
  float_leb (Fin 0) (to_float (1234 # 100)) = true.
Proof.
  apply (currency_values_are_not_negative (txt "saldo -R$ 12,34")).
  vm_compute. left. reflexivity.
Defined.

Lemma first_float_nonneg (found : list str) (v : float) :
  (forall g, In g found -> forallb numeric g = true) ->
  Extractor.first_float found = Some v -> float_leb (Fin 0) v = true.
Proof.
  induction found as [|g found IH]; intros Hf; [discriminate |].
  cbn [Extractor.first_float].
  destruct (float_of_str (replace (txt ",") (txt ".") g)) as [x | e] eqn:Hx.
  - intros E. injection E as <-.
    exact (numeric_float_nonneg g x (Hf g (or_introl eq_refl)) Hx).
  - apply IH. intros g' Hg'. apply Hf. right. exact Hg'.
Qed.

Lemma currency_value_numeric (pattern : regex) (c : ascii) :
  In pattern Extractor.currency_value_patterns ->
  in_group false pattern 1 c = true -> numeric c = true.
Proof.
  intros Hp. cbn [Extractor.currency_value_patterns In] in Hp.
  destruct Hp as [<- | [<- | []]]; all_chars c.
Qed.

(** X23.  [_extract_currency_value] never returns a negative number or
    NaN. *)
Theorem currency_value_is_not_negative (text : str) :
  float_leb (Fin 0) (Extractor._extract_currency_value text) = true.
Proof.
  unfold Extractor._extract_currency_value.
  destruct (Extractor.first_pattern_float Extractor.currency_value_patterns text)
    as [v |] eqn:Hv; [| reflexivity].
  revert Hv.
  assert (G : forall patterns,
             incl patterns Extractor.currency_value_patterns ->
             Extractor.first_pattern_float patterns text = Some v ->
             float_leb (Fin 0) v = true).
  { induction patterns as [|p rest IH]; intros Hin; [discriminate |].
    cbn [Extractor.first_pattern_float].
    destruct (Extractor.first_float (findall false p text)) as [x |] eqn:Hx.
    - intros E. injection E as <-. revert Hx. apply first_float_nonneg.
      intros g Hg. apply findall_chars in Hg.
      eapply forallb_impl; [| exact Hg]. intros c.
      apply currency_value_numeric. apply Hin. left. reflexivity.
    - apply IH. intros q Hq. apply Hin. right. exact Hq. }
  apply G, incl_refl.
Qed.

End NumericText.

(** ** The transfer extractors: the amount *)

Section TransferAmount.
Import Py Re Dict Lang Amount Static SameShape.

Lemma transfer_valor_numeric (c : ascii) :
  in_group false Extractor.transfer_valor_pattern 1 c = true -> numeric c = true.
Proof. all_chars c. Qed.

Lemma generic_transfer_cases (text : str) :
  match Extractor._extract_generic_transferencia_dict text with
  | Ok d =>
    d = [] \/ exists x, d = [("valor_total", VFloat x)]
                        /\ float_leb (Fin 0) x = true
  | Raise e => e = float_error
  end.
Proof.
  unfold Extractor._extract_generic_transferencia_dict. cbv zeta.
  destruct (search false Extractor.transfer_valor_pattern text) as [mo |] eqn:Hs;
    [| left; reflexivity].
  destruct (group_text_group1 false Extractor.transfer_valor_pattern text mo
                              "replace" eq_refl Hs) as [g [Hg ->]].
  cbn [bind].
  pose proof (search_group_chars false _ text mo 0 g Hs Hg) as Hn.
  apply (forallb_impl _ _ _ transfer_valor_numeric) in Hn.
  destruct (float_of_str (replace (txt ",") (txt ".") g)) as [x | e] eqn:Hx;
    cbn [bind].
  - right. exists x. split; [reflexivity |].
    exact (numeric_float_nonneg g x Hn Hx).
  - exact (numeric_float_error g e Hx).
Qed.

(** X24.  [_extract_generic_transferencia_dict] returns the empty
    dictionary, or one amount that is not negative and not NaN, or
    raises the ValueError of [float]: the conversion is not guarded.
    [_extract_caixa_transferencia_dict] does the same on every text. *)
Theorem transfer_amount_or_value_error (text : str) :
  match Extractor._extract_generic_transferencia_dict text with
  | Ok d =>
    d = [] \/ exists x, d = [("valor_total", VFloat x)]
                        /\ float_leb (Fin 0) x = true
  | Raise e => e = float_error
  end
  /\ Extractor._extract_caixa_transferencia_dict text
     = Extractor._extract_generic_transferencia_dict text.
Proof. split; [apply generic_transfer_cases | reflexivity]. Qed.

(** Evaluation of the matcher on a text that is known in part. *)

Lemma m_lit (p s : str) (i : nat) (caps : captures) (k : kont) :
  m false (lit_of p) i (p ++ s) caps k = k (i + List.length p) s caps.
Proof.
  revert i. induction p as [|c p IH]; intros i.
  - cbn [lit_of fold_right m app List.length]. rewrite Nat.add_0_r. reflexivity.
  - change (lit_of (c :: p)) with (Seq (Atom (AChar c)) (lit_of p)).
    cbn [m app atom_test]. rewrite ch_eqb_refl, IH. cbn [List.length].
    f_equal. lia.
Qed.

Lemma rep_greedy_all (p : ascii -> bool) (k : kont) (caps : captures)
      (res : nat * captures) (rest : str) (a : str) :
  forall lo i,
    forallb p a = true ->
    match rest with [] => True | c :: _ => p c = false end ->
    lo <= List.length a ->
    k (i + List.length a) rest caps = Some res ->
    rep_greedy p lo None i (a ++ rest) caps k = Some res.
Proof.
  induction a as [|c a IH]; intros lo i Ha Hrest Hlo Hk.
  - cbn [List.length] in *. rewrite Nat.add_0_r in Hk.
    assert (lo = 0) by lia. subst lo. cbn [app].
    destruct rest as [|c rest]; cbn [rep_greedy]; [exact Hk |].
    rewrite Hrest. cbn [andb]. exact Hk.
  - cbn [forallb] in Ha. apply andb_true_iff in Ha. destruct Ha as [Hc Ha].
    cbn [app rep_greedy more_allowed]. rewrite Hc. cbn [andb option_map].
    rewrite (IH (Nat.pred lo) (S i) Ha Hrest); [reflexivity | |].
    + cbn [List.length] in Hlo. lia.
    + rewrite <- Hk. f_equal. cbn [List.length]. lia.
Qed.

Lemma rep_greedy_none (p : ascii -> bool) (k : kont) (caps : captures)
      (hi : option nat) (i : nat) (s : str) :
  match s with [] => True | c :: _ => p c = false end ->
  rep_greedy p 0 hi i s caps k = k i s caps.
Proof.
  destruct s as [|c s]; [reflexivity |]. intros Hc.
  cbn [rep_greedy]. rewrite Hc, andb_false_r. reflexivity.
Qed.

Lemma numeric_head (c : ascii) :
  numeric c = true ->
  atom_test false space c = false /\ atom_test false (ch "R") c = false
  /\ atom_test false (ch "$") c = false
  /\ atom_test false (ASet (IDigit :: chars ".,")) c = true.
Proof. all_chars c. Qed.

Lemma not_numeric_test (c : ascii) :
  numeric c = false -> atom_test false (ASet (IDigit :: chars ".,")) c = false.
Proof. all_chars c. Qed.

Lemma search_from_here (ic : bool) (r : regex) (text : str) (i : nat) (s : str)
      (mo : match_obj) :
  match_at ic r text i s = Some mo -> search_from ic r text i s = Some mo.
Proof. intros H. destruct s; cbn [search_from]; rewrite H; reflexivity. Qed.

(** The amount after "R$ ": the whole run of digits, points and
    commas. *)
Lemma transfer_valor_found (x tail : str) :
  forallb numeric x = true -> x <> [] ->
  match tail with [] => True | c :: _ => numeric c = false end ->
  exists mo,
    search false Extractor.transfer_valor_pattern (txt "R$ " ++ x ++ tail)
    = Some mo
    /\ group mo 1 = Ok (Some x).
Proof.
  intros Hx Hne Htail.
  destruct x as [|c x]; [now elim Hne |].
  pose proof Hx as Hx'. cbn [forallb] in Hx'. apply andb_true_iff in Hx'.
  destruct Hx' as [Hc _].
  destruct (numeric_head c Hc) as [T1 [T2 [T3 T4]]].
  assert (Hm : m false Extractor.transfer_valor_pattern 0
                 (txt "R$ " ++ (c :: x) ++ tail) [] accept
               = Some (3 + List.length (c :: x),
                       [(1, (3, 3 + List.length (c :: x)))])).
  { unfold Extractor.transfer_valor_pattern, cat, star, opt, plus.
    cbn [fold_right]. cbn [m].
    match goal with
    | |- match ?X with Some _ => _ | None => _ end = _ =>
      replace X with (@None (nat * captures)) by reflexivity
    end.
    change (lit "R$") with (lit_of (txt "R$")).
    change (txt "R$ " ++ (c :: x) ++ tail)
      with (txt "R$" ++ [" "%char] ++ (c :: x) ++ tail).
    rewrite m_lit. cbv beta. cbn [List.length Nat.add].
    apply rep_greedy_all; [reflexivity | exact T1 | cbn; lia |].
    cbv beta. cbn [List.length Nat.add].
    rewrite rep_greedy_none by exact T2.
    rewrite rep_greedy_none by exact T3.
    rewrite rep_greedy_none by exact T1.
    apply rep_greedy_all.
    - eapply forallb_impl; [| exact Hx]. intros y Hy.
      apply (numeric_head y Hy).
    - destruct tail as [|t tail]; [exact I |]. apply not_numeric_test, Htail.
    - cbn [List.length]. lia.
    - reflexivity. }
  eexists. split.
  - unfold search. apply search_from_here. unfold match_at. rewrite Hm.
    reflexivity.
  - unfold group. cbn [m_ngroups m_caps m_string cap_get Nat.eqb].
    change (Nat.leb 1 (ngroups Extractor.transfer_valor_pattern)) with true.
    cbv iota. do 2 f_equal. unfold slice.
    replace (3 + List.length (c :: x) - 3) with (List.length (c :: x)) by lia.
    change (skipn 3 (txt "R$ " ++ (c :: x) ++ tail)) with ((c :: x) ++ tail).
    rewrite firstn_app, firstn_all, Nat.sub_diag. cbn [firstn].
    apply app_nil_r.
Qed.

Lemma span_spec (p : ascii -> bool) (s a b : str) :
  span p s = (a, b) ->
  s = a ++ b /\ forallb p a = true
  /\ match b with [] => True | c :: _ => p c = false end.
Proof.
  revert a b. induction s as [|c s IH]; intros a b; cbn [span].
  - intros E. injection E as <- <-. repeat split.
  - destruct (p c) eqn:Hc.
    + destruct (span p s) as [a' b'] eqn:Hs. intros E. injection E as <- <-.
      destruct (IH a' b' eq_refl) as [-> [Ha Hb]].
      cbn [app forallb]. rewrite Hc, Ha. repeat split. exact Hb.
    + intros E. injection E as <- <-. repeat split. exact Hc.
Qed.

Lemma plain_not_digit (c : ascii) :
  plain c = true -> isdigit c = false -> c = "."%char.
Proof. all_chars c. Qed.

Lemma digit_not_separator (c : ascii) : isdigit c = true -> separator c = false.
Proof. all_chars c. Qed.

(** A text of digits and points with two points or more is no
    number. *)
Lemma two_points_no_number (s : str) :
  forallb plain s = true -> 2 <= count separator s -> parse_decimal s = None.
Proof.
  intros Hp Hc. unfold parse_decimal.
  destruct (span isdigit s) as [ip s1] eqn:H1.
  destruct (span_spec _ _ _ _ H1) as [-> [Hip Hs1]].
  rewrite count_app, (count_none separator isdigit ip digit_not_separator Hip) in Hc.
  rewrite forallb_app in Hp. apply andb_true_iff in Hp. destruct Hp as [_ Hp].
  destruct s1 as [|c s1]; [cbn in Hc; lia |].
  cbn [forallb] in Hp. apply andb_true_iff in Hp. destruct Hp as [Hpc Hp].
  rewrite (plain_not_digit c Hpc Hs1) in *. change (ch_eqb "." ".") with true.
  cbv iota.
  destruct (span isdigit s1) as [fp s2] eqn:H2.
  destruct (span_spec _ _ _ _ H2) as [-> [Hfp Hs2]].
  unfold count in Hc. cbn [filter] in Hc. change (separator ".") with true in Hc.
  cbn [List.length] in Hc. fold (count separator (fp ++ s2)) in Hc.
  rewrite count_app, (count_none separator isdigit fp digit_not_separator Hfp) in Hc.
  rewrite forallb_app in Hp. apply andb_true_iff in Hp. destruct Hp as [_ Hp].
  destruct s2 as [|d s2]; [cbn in Hc; lia |].
  cbn [forallb] in Hp. apply andb_true_iff in Hp. destruct Hp as [Hpd _].
  rewrite (plain_not_digit d Hpd Hs2).
  destruct (ip ++ fp); reflexivity.
Qed.

Lemma subst_separator (c : ascii) :
  separator (subst_char "," "." c) = separator c.
Proof. all_chars c. Qed.

Lemma count_map_subst (s : str) :
  count separator (map (subst_char "," ".") s) = count separator s.
Proof.
  unfold count. induction s as [|c s IH]; [reflexivity |].
  cbn [map filter]. rewrite subst_separator.
  destruct (separator c); cbn [List.length]; rewrite IH; reflexivity.
Qed.

(** X25.  An amount with a thousands separator crashes the transfer
    extractors: on a text that starts with "R$ " and a run of digits,
    points and commas with two separators or more, as in "R$ 1.234,56",
    [_extract_generic_transferencia_dict] raises the ValueError of
    [float]. *)
Theorem grouped_amount_raises (x tail : str) :
  forallb numeric x = true -> 2 <= count separator x ->
  match tail with [] => True | c :: _ => numeric c = false end ->
  Extractor._extract_generic_transferencia_dict (txt "R$ " ++ x ++ tail)
  = Raise float_error.
Proof.
  intros Hx Hc Htail.
  assert (Hne : x <> []) by (intros ->; cbn in Hc; lia).
  destruct (transfer_valor_found x tail Hx Hne Htail) as [mo [Hs Hg]].
  unfold Extractor._extract_generic_transferencia_dict. cbv zeta.
  rewrite Hs. unfold Extractor.group_text. rewrite Hg. cbn [bind].
  change (txt ",") with [","%char]. change (txt ".") with ["."%char].
  rewrite replace_char.
  assert (Hp : forallb plain (map (subst_char "," ".") x) = true).
  { rewrite forallb_forall. intros c Hin. apply in_map_iff in Hin.
    destruct Hin as [y [<- Hy]]. apply numeric_subst_plain.
    rewrite forallb_forall in Hx. auto. }
  destruct (map (subst_char "," ".") x) as [|c s] eqn:E.
  { destruct x; [now elim Hne | discriminate]. }
  rewrite (float_of_plain c s Hp).
  rewrite (two_points_no_number (c :: s) Hp); [reflexivity |].
  rewrite <- E, count_map_subst. exact Hc.
Qed.

Lemma grouped_amount_raises_witness :
  Extractor._extract_generic_transferencia_dict
    (txt "R$ " ++ txt "1.234,56" ++ txt " pago")
  = Raise float_error.
Proof. apply grouped_amount_raises; [reflexivity | vm_compute; lia | reflexivity]. Defined.

End TransferAmount.

(** ** The Nubank transfer extractor *)

Section NubankTransfer.
Import Py Re Dict Lang Amount Static.

Lemma fold_set_frame (keys : list string) (v : value) (k : string) :
  forall d,
    existsb (String.eqb k) keys = false ->
    get (fold_left (fun d k' => set d k' v) keys d) k = get d k.
Proof.
  induction keys as [|k0 keys IH]; intros d; cbn [existsb fold_left];
    [reflexivity |].
  intros H. apply orb_false_iff in H. destruct H as [H0 H].
  rewrite (IH _ H), get_set. rewrite String.eqb_sym, H0. reflexivity.
Qed.

Lemma set_stripped_ok (d : dict) (pattern : regex) (text : str)
      (keys : list string) :
  has_group1 pattern = true ->
  exists d',
    Extractor.set_stripped d pattern text keys = Ok d'
    /\ forall k, existsb (String.eqb k) keys = false -> get d' k = get d k.
Proof.
  intros Hp. unfold Extractor.set_stripped.
  destruct (search false pattern text) as [mo |] eqn:Hs; [| eauto].
  destruct (group_text_group1 false pattern text mo "strip" Hp Hs) as [g [_ ->]].
  cbn [bind]. eexists. split; [reflexivity |].
  intros k Hk. apply fold_set_frame, Hk.
Qed.

Lemma set_group_ok (d : dict) (pattern : regex) (text : str) (key : string) :
  1 <= ngroups pattern ->
  exists d',
    Extractor.set_group d pattern text key = Ok d'
    /\ forall k, String.eqb key k = false -> get d' k = get d k.
Proof.
  intros Hp. unfold Extractor.set_group.
  destruct (search false pattern text) as [mo |] eqn:Hs; [| eauto].
  destruct (search_group_static false pattern text mo 1 Hp Hs) as [g ->].
  cbn [bind]. eexists. split; [reflexivity |].
  intros k Hk. rewrite get_set, Hk. reflexivity.
Qed.

Lemma cnpj_digits (c : ascii) :
  in_group false (cat [lit "CNPJ"; plus space; Group 1 (plus digit)]) 1 c = true ->
  isdigit c = true.
Proof. all_chars c. Qed.

Lemma nubank_valor_numeric (c : ascii) :
  in_group true Extractor.nubank_transfer_valor 1 c = true -> numeric c = true.
Proof. all_chars c. Qed.

Lemma format_14_is_format_cnpj (cnpj : str) :
  forallb isdigit cnpj = true -> List.length cnpj = 14 ->
  Extractor.format_14 cnpj = Helpers.format_cnpj cnpj.
Proof.
  intros Hd Hl. unfold Helpers.format_cnpj, Extractor.format_14.
  rewrite (only_digits_digits cnpj Hd), Hl.
  destruct cnpj; [discriminate | reflexivity].
Qed.

(** The first step: the amount, twice, or the ValueError of [float]. *)
Lemma nubank_transfer_valor_step (text : str) :
  match
    match search true Extractor.nubank_transfer_valor text with
    | Some valor_match =>
      g <- Extractor.group_text valor_match 1 "replace" ;;
      x <- float_of_str (replace (txt ",") (txt ".") g) ;;
      Ok (set (set [] "valor_total" (VFloat x)) "valor_numerico" (VFloat x))
    | None => Ok []
    end
  with
  | Ok d =>
    d = []
    \/ exists x, d = [("valor_total", VFloat x); ("valor_numerico", VFloat x)]
                 /\ float_leb (Fin 0) x = true
  | Raise e => e = float_error
  end.
Proof.
  destruct (search true Extractor.nubank_transfer_valor text) as [mo |] eqn:Hs;
    [| left; reflexivity].
  destruct (group_text_group1 true Extractor.nubank_transfer_valor text mo
                              "replace" eq_refl Hs) as [g [Hg ->]].
  cbn [bind].
  pose proof (search_group_chars true _ text mo 0 g Hs Hg) as Hn.
  apply (forallb_impl _ _ _ nubank_valor_numeric) in Hn.
  destruct (float_of_str (replace (txt ",") (txt ".") g)) as [x | e] eqn:Hx;
    cbn [bind].
  - right. exists x. split; [reflexivity |].
    exact (numeric_float_nonneg g x Hn Hx).
  - exact (numeric_float_error g e Hx).
Qed.

(** The step of the date and time never raises and writes 'data',
    'hora' and 'data_hora' only. *)
Lemma nubank_transfer_date_step (text : str) (d : dict) :
  exists d',
    match search false Extractor.nubank_transfer_data_hora text with
    | Some data_hora_match =>
      dia <- group data_hora_match 1 ;;
      mes_abrev <- group data_hora_match 2 ;;
      ano <- group data_hora_match 3 ;;
      hora <- group data_hora_match 4 ;;
      Ok (set (set (set d "data"
                        (VStr (Extractor.shown dia ++ txt "/"
                               ++ Extractor.mes_of Extractor.meses mes_abrev
                               ++ txt "/" ++ Extractor.shown ano)))
                   "hora" (of_option hora))
              "data_hora"
              (VStr ((Extractor.shown dia ++ txt "/"
                      ++ Extractor.mes_of Extractor.meses mes_abrev
                      ++ txt "/" ++ Extractor.shown ano)
                     ++ txt " - " ++ Extractor.shown hora)))
    | None => Ok d
    end = Ok d'
    /\ forall k, existsb (String.eqb k) ["data"; "hora"; "data_hora"] = false ->
                 get d' k = get d k.
Proof.
  destruct (search false Extractor.nubank_transfer_data_hora text) as [mo |] eqn:Hs;
    [| eauto].
  destruct (search_group_static false Extractor.nubank_transfer_data_hora
                                text mo 1 ltac:(vm_compute; lia) Hs)
    as [g1 ->].
  destruct (search_group_static false Extractor.nubank_transfer_data_hora
                                text mo 2 ltac:(vm_compute; lia) Hs)
    as [g2 ->].
  destruct (search_group_static false Extractor.nubank_transfer_data_hora
                                text mo 3 ltac:(vm_compute; lia) Hs)
    as [g3 ->].
  destruct (search_group_static false Extractor.nubank_transfer_data_hora
                                text mo 4 ltac:(vm_compute; lia) Hs)
    as [g4 ->].
  cbn [bind]. eexists. split; [reflexivity |].
  intros k Hk. cbn [existsb] in Hk. rewrite !orb_false_iff in Hk.
  destruct Hk as [H1 [H2 [H3 _]]].
  rewrite !get_set.
  rewrite (String.eqb_sym "data_hora" k), H3.
  rewrite (String.eqb_sym "hora" k), H2.
  rewrite (String.eqb_sym "data" k), H1. reflexivity.
Qed.

(** The step of the CNPJ never raises; it writes nothing, or the
    fourteen digits it found, formatted, twice. *)
Lemma nubank_transfer_cnpj_step (text : str) (d : dict) :
  exists d',
    match search false (cat [lit "CNPJ"; plus space; Group 1 (plus digit)]) text with
    | Some destino_cnpj_match =>
      g <- group destino_cnpj_match 1 ;;
      cnpj <- match g with
              | Some s => Ok s
              | None =>
                Raise (Exn TypeError (txt "object of type 'NoneType' has no len()"))
              end ;;
      if Nat.eqb (List.length cnpj) 14 then
        Ok (set (set d "destino_cnpj" (VStr (Extractor.format_14 cnpj)))
                "cnpj_empresa" (VStr (Extractor.format_14 cnpj)))
      else Ok d
    | None => Ok d
    end = Ok d'
    /\ (d' = d
        \/ exists cnpj,
             forallb isdigit cnpj = true /\ List.length cnpj = 14
             /\ d' = set (set d "destino_cnpj" (VStr (Helpers.format_cnpj cnpj)))
                         "cnpj_empresa" (VStr (Helpers.format_cnpj cnpj))).
Proof.
  destruct (search false (cat [lit "CNPJ"; plus space; Group 1 (plus digit)]) text)
    as [mo |] eqn:Hs; [| eauto].
  destruct (search_group1 false (cat [lit "CNPJ"; plus space; Group 1 (plus digit)])
                          text mo eq_refl Hs) as [g Hg].
  rewrite Hg. cbn [bind].
  pose proof (search_group_chars false _ text mo 0 g Hs Hg) as Hd.
  apply (forallb_impl _ _ _ cnpj_digits) in Hd.
  destruct (Nat.eqb (List.length g) 14) eqn:Hl; [| eauto].
  apply Nat.eqb_eq in Hl. eexists. split; [reflexivity |]. right.
  exists g. rewrite (format_14_is_format_cnpj g Hd Hl). auto.
Qed.

End NubankTransfer.

(** A step of [_extract_nubank_transferencia_dict] that cannot raise
    is taken; [W] tells which fields are still those of an earlier
    dictionary. *)
Ltac carry W d' F :=
  let W' := fresh "W" in
  lazymatch type of W with
  | forall k, In k ?l -> Dict.get ?d k = Dict.get ?b k =>
    assert (W' : forall k, In k l -> Dict.get d' k = Dict.get b k)
      by (let k := fresh "k" in
          let Hk := fresh "Hk" in
          intros k Hk; rewrite F;
          [ apply W, Hk
          | cbn [In] in Hk;
            repeat (destruct Hk as [<- | Hk]; [reflexivity |]);
            contradiction ])
  end;
  clear W F; rename W' into W.

Ltac stripped_step W :=
  lazymatch goal with
  | |- Py.bind (Extractor.set_stripped ?d ?p ?t ?ks) _ = _ -> _ =>
    let d' := fresh "d" in
    let E := fresh "E" in
    let F := fresh "F" in
    destruct (set_stripped_ok d p t ks eq_refl) as [d' [E F]];
    rewrite E; peel_ok; clear E; carry W d' F
  end.

Ltac group_step W :=
  lazymatch goal with
  | |- Py.bind (Extractor.set_group ?d ?p ?t ?k) _ = _ -> _ =>
    let d' := fresh "d" in
    let E := fresh "E" in
    let F := fresh "F" in
    let Hn := fresh "Hn" in
    assert (Hn : 1 <= Re.ngroups p) by (vm_compute; lia);
    destruct (set_group_ok d p t k Hn) as [d' [E F]]; clear Hn;
    rewrite E; peel_ok; clear E; carry W d' F
  end.

Ltac take E :=
  lazymatch type of E with
  | _ = Py.Ok ?a =>
    lazymatch goal with
    | |- Py.bind ?o _ = _ -> _ =>
      replace o with (@Py.Ok Dict.dict a) by (symmetry; exact E)
    end
  end;
  peel_ok.

Section NubankTransferDict.
Import Py Re Dict Lang Amount Static.

Lemma nubank_transfer_dict_cases (text : str) :
  forall r,
    Extractor._extract_nubank_transferencia_dict text = r ->
    match r with
    | Raise e => e = float_error
    | Ok d =>
      get d "situacao" = Some (VStr (txt "Concluída"))
      /\ get d "valor_total" = get d "valor_numerico"
      /\ (forall v, get d "valor_total" = Some v ->
                    exists x, v = VFloat x /\ float_leb (Fin 0) x = true)
      /\ get d "destino_cnpj" = get d "cnpj_empresa"
      /\ (forall v, get d "destino_cnpj" = Some v ->
                    exists cnpj,
                      forallb isdigit cnpj = true /\ List.length cnpj = 14
                      /\ v = VStr (Helpers.format_cnpj cnpj))
    end.
Proof.
  intros r. unfold Extractor._extract_nubank_transferencia_dict.
  (* the amount *)
  lazymatch goal with
  | |- bind ?o _ = _ -> _ =>
    assert (H1 : match o with
                 | Ok d =>
                   d = []
                   \/ exists x,
                        d = [("valor_total", VFloat x); ("valor_numerico", VFloat x)]
                        /\ float_leb (Fin 0) x = true
                 | Raise e => e = float_error
                 end) by exact (nubank_transfer_valor_step text);
    revert H1; destruct o as [d1 | e1]; intros H1
  end.
  2:{ intros <-. exact H1. }
  peel_ok.
  assert (W1 : forall k, In k ["valor_total"; "valor_numerico";
                               "destino_cnpj"; "cnpj_empresa"] ->
                         get d1 k = get d1 k) by reflexivity.
  (* date and time *)
  destruct (nubank_transfer_date_step text d1) as [d2 [E2 F2]]. take E2.
  clear E2. carry W1 d2 F2.
  stripped_step W1.
  (* CNPJ *)
  lazymatch goal with
  | |- bind (match search _ _ _ with Some _ => _ | None => Ok ?d end) _ = _ -> _ =>
    destruct (nubank_transfer_cnpj_step text d) as [d3 [E3 H3]];
    assert (W2 : forall k, In k ["valor_total"; "valor_numerico";
                                 "destino_cnpj"; "cnpj_empresa"] ->
                           get d3 k = get d3 k) by reflexivity
  end.
  take E3. clear E3.
  repeat first [stripped_step W2 | group_step W2].
  intros <-.
  lazymatch goal with
  | |- get (set ?dl "situacao" ?v) _ = _ /\ _ =>
    assert (W3 : forall k, In k ["valor_total"; "valor_numerico";
                                 "destino_cnpj"; "cnpj_empresa"] ->
                           get (set dl "situacao" v) k = get d3 k)
      by (intros k Hk; rewrite get_set, <- (W2 k Hk);
          cbn [In] in Hk;
          repeat (destruct Hk as [<- | Hk]; [reflexivity |]); contradiction)
  end.
  split; [rewrite get_set; reflexivity |].
  rewrite !W3 by (cbn [In]; auto).
  assert (Hd1 : get d1 "valor_total" = get d1 "valor_numerico"
                /\ (forall v, get d1 "valor_total" = Some v ->
                              exists x, v = VFloat x /\ float_leb (Fin 0) x = true)
                /\ get d1 "destino_cnpj" = None /\ get d1 "cnpj_empresa" = None).
  { destruct H1 as [-> | [x [-> Hx]]].
    - repeat split. discriminate.
    - repeat split. intros v E. injection E as <-. eauto. }
  destruct Hd1 as [A1 [A2 [A3 A4]]].
  destruct H3 as [-> | [cnpj [Hc [Hl ->]]]].
  - rewrite !W1 by (cbn [In]; auto). rewrite A3, A4.
    split; [exact A1 |]. split; [exact A2 |]. split; [reflexivity |].
    discriminate.
  - rewrite !get_set. cbn [String.eqb Ascii.eqb Bool.eqb].
    rewrite !W1 by (cbn [In]; auto).
    split; [exact A1 |]. split; [exact A2 |]. split; [reflexivity |].
    intros v E. injection E as <-. eauto.
Qed.

End NubankTransferDict.


Section TransferDict.
Import Py Re Dict Lang Amount Static.

(** X26.  [extract_transferencia_data_dict] raises nothing but the
    ValueError of [float], whatever the layout: no IndexError, no
    AttributeError and no TypeError from a group that is missing or
    None. *)
Theorem transfer_dict_raises_only_value_error (text : str) (e : exn) :
  Extractor.extract_transferencia_data_dict text = Raise e -> e = float_error.
Proof.
  unfold Extractor.extract_transferencia_data_dict. cbv zeta.
  destruct (str_eqb (Extractor.detect_document_layout text) (txt "nubank")).
  - intros H. exact (nubank_transfer_dict_cases text _ H).
  - destruct (str_eqb (Extractor.detect_document_layout text) (txt "caixa"));
      intros H; pose proof (generic_transfer_cases text) as G;
      [change (Extractor._extract_caixa_transferencia_dict text)
         with (Extractor._extract_generic_transferencia_dict text) in H |];
      rewrite H in G; exact G.
Qed.

Lemma transfer_dict_raises_only_value_error_witness :
  float_error = float_error.
Proof.
  apply (transfer_dict_raises_only_value_error (txt "Nubank Valor R$ 1.234,56")).
  vm_compute. reflexivity.
Defined.

(** X27.  What [_extract_nubank_transferencia_dict] returns has
    'situacao' "Concluída"; the same amount, not negative and not NaN,
    under 'valor_total' and 'valor_numerico', or neither; and the same
    text under 'destino_cnpj' and 'cnpj_empresa', or neither: the text
    [format_cnpj] gives for the fourteen digits found. *)
Theorem nubank_transfer_fields (text : str) (d : dict) :
  Extractor._extract_nubank_transferencia_dict text = Ok d ->
  get d "situacao" = Some (VStr (txt "Concluída"))
  /\ get d "valor_total" = get d "valor_numerico"
  /\ (forall v, get d "valor_total" = Some v ->
                exists x, v = VFloat x /\ float_leb (Fin 0) x = true)
  /\ get d "destino_cnpj" = get d "cnpj_empresa"
  /\ (forall v, get d "destino_cnpj" = Some v ->
                exists cnpj,
                  forallb isdigit cnpj = true /\ List.length cnpj = 14
                  /\ v = VStr (Helpers.format_cnpj cnpj)).
Proof. intros H. exact (nubank_transfer_dict_cases text _ H). Qed.

Lemma nubank_transfer_fields_witness :
  exists d,
    Extractor._extract_nubank_transferencia_dict
      (txt "Valor R$ 12,50 CNPJ 12345678000190") = Ok d
    /\ get d "destino_cnpj" = Some (VStr (txt "12.345.678/0001-90"))
    /\ get d "destino_cnpj" = get d "cnpj_empresa".
Proof.
  destruct (Extractor._extract_nubank_transferencia_dict
              (txt "Valor R$ 12,50 CNPJ 12345678000190")) as [d | e] eqn:E;
    [| vm_compute in E; discriminate].
  exists d. split; [reflexivity |].
  destruct (nubank_transfer_fields _ d E) as [_ [_ [_ [H _]]]].
  split; [| exact H].
  vm_compute in E. injection E as <-. reflexivity.
Defined.

End TransferDict.

(** ** The date and the time of a text *)

Section DateTime.
Import Py Re Dict Lang Static.

Lemma slice_contains (a b : nat) (text : str) :
  contains (slice a b text) text = true.
Proof.
  apply contains_iff. unfold slice.
  exists (firstn a text), (skipn (b - a) (skipn a text)).
  rewrite firstn_skipn, firstn_skipn. reflexivity.
Qed.

Lemma group_is_slice (mo : match_obj) (n : nat) (g : str) :
  group mo n = Ok (Some g) -> exists a b, g = slice a b (m_string mo).
Proof.
  unfold group. destruct n.
  - intros E. injection E as <-. eauto.
  - destruct (Nat.leb (S n) (m_ngroups mo)); [| discriminate].
    destruct (cap_get (S n) (m_caps mo)) as [[a b] |]; [| discriminate].
    intros E. injection E as <-. eauto.
Qed.

(** Group 1 of the first pattern that matches: a part of the text that
    the inside of the group can match. *)
Lemma first_group1_found (patterns : list regex) (text : str) :
  forallb has_group1 patterns = true ->
  exists found,
    Extractor.first_group1 patterns text = Ok found
    /\ forall s,
         found = Some s ->
         contains s text = true
         /\ exists pattern, In pattern patterns
                            /\ forall G, groups_in false G pattern -> G 1 s.
Proof.
  intros Hp. unfold Extractor.first_group1.
  destruct (Extractor.first_search false patterns text) as [mo |] eqn:Hf.
  - destruct (first_search_in false patterns text mo Hf) as [p [Hin Hs]].
    rewrite forallb_forall in Hp.
    destruct (search_group1 false p text mo (Hp p Hin) Hs) as [g Hg].
    exists (Some g). split; [exact Hg |].
    intros s E. injection E as <-. split.
    + destruct (group_is_slice mo 1 g Hg) as [a [b ->]].
      destruct (search_caps false (fun _ _ => True) text p mo) as [-> _].
      * clear. induction p; cbn [groups_in]; auto.
      * exact Hs.
      * apply slice_contains.
    + exists p. split; [exact Hin |]. intros G HG.
      exact (search_group_in false G text p mo 0 g HG Hs Hg).
  - exists None. split; [reflexivity | discriminate].
Qed.

Lemma date_group (pattern : regex) :
  In pattern Extractor.date_patterns ->
  groups_in false
            (fun _ w => 8 <= List.length w <= 10
                        /\ count isdigit w + 2 = List.length w)
            pattern.
Proof.
  intros Hin. cbn [Extractor.date_patterns In] in Hin.
  destruct Hin as [<- | [<- | []]]; cbn [Extractor.date_with groups_in];
    (split; [| vm_compute; tauto]);
    intros i w rest L;
    pose proof (lang_count false isdigit _ _ _ _ L) as [D1 D2];
    pose proof (lang_count false (fun _ => true) _ _ _ _ L) as [L1 L2];
    pose proof (lang_count false (fun c => negb (isdigit c)) _ _ _ _ L) as [N1 N2];
    compute_bounds;
    assert (Hlen : count (fun _ => true) w = List.length w)
      by (apply (count_all _ (fun _ => true));
          [trivial | apply forallb_forall; trivial]);
    assert (Hsum : count isdigit w + count (fun c => negb (isdigit c)) w
                   = List.length w)
      by (clear; unfold count; induction w as [|c w IH]; [reflexivity |];
          cbn [filter]; destruct (isdigit c); cbn [negb List.length]; lia);
    lia.
Qed.

Lemma time_group (pattern : regex) :
  In pattern Extractor.time_patterns ->
  groups_in false
            (fun _ w => 4 <= List.length w <= 8
                        /\ (count isdigit w + 1 = List.length w
                            \/ count isdigit w + 2 = List.length w))
            pattern.
Proof.
  intros Hin. cbn [Extractor.time_patterns In] in Hin.
  destruct Hin as [<- | [<- | []]]; cbn [groups_in];
    (split; [| vm_compute; tauto]);
    intros i w rest L;
    pose proof (lang_count false isdigit _ _ _ _ L) as [D1 D2];
    pose proof (lang_count false (fun _ => true) _ _ _ _ L) as [L1 L2];
    pose proof (lang_count false (fun c => negb (isdigit c)) _ _ _ _ L) as [N1 N2];
    compute_bounds;
    assert (Hlen : count (fun _ => true) w = List.length w)
      by (apply (count_all _ (fun _ => true));
          [trivial | apply forallb_forall; trivial]);
    assert (Hsum : count isdigit w + count (fun c => negb (isdigit c)) w
                   = List.length w)
      by (clear; unfold count; induction w as [|c w IH]; [reflexivity |];
          cbn [filter]; destruct (isdigit c); cbn [negb List.length]; lia);
    lia.
Qed.

(** X28.  [_extract_date_time] never raises.  The date it finds is a
    part of the text of 8 to 10 characters, digits but for two of them;
    the time is a part of the text of 4 to 8 characters, digits but for
    one or two of them. *)
Theorem date_time_are_parts_of_the_text (text : str) :
  exists date_found time_found,
    Extractor._extract_date_time text = Ok (date_found, time_found)
    /\ (forall s, date_found = Some s ->
                  contains s text = true /\ 8 <= List.length s <= 10
                  /\ count isdigit s + 2 = List.length s)
    /\ (forall s, time_found = Some s ->
                  contains s text = true /\ 4 <= List.length s <= 8
                  /\ (count isdigit s + 1 = List.length s
                      \/ count isdigit s + 2 = List.length s)).
Proof.
  unfold Extractor._extract_date_time.
  destruct (first_group1_found Extractor.date_patterns text eq_refl)
    as [d [-> Hd]].
  destruct (first_group1_found Extractor.time_patterns text eq_refl)
    as [t [-> Ht]].
  cbn [bind]. exists d, t. split; [reflexivity |]. split.
  - intros s E. destruct (Hd s E) as [Hc [p [Hin HG]]].
    split; [exact Hc |]. exact (HG _ (date_group p Hin)).
  - intros s E. destruct (Ht s E) as [Hc [p [Hin HG]]].
    split; [exact Hc |]. exact (HG _ (time_group p Hin)).
Qed.

End DateTime.

(** ** The loop of [main] *)

Section MainLoop.
Import Py Dict Typed.

Lemma partition_length {A : Type} (p : A -> bool) (l : list A) :
  List.length (filter (fun x => negb (p x)) l) + List.length (filter p l)
  = List.length l.
Proof.
  induction l as [|x l IH]; [reflexivity |].
  cbn [filter]. destruct (p x); cbn [negb List.length]; lia.
Qed.

(** An entry of the loop gets a Receipt exactly when it has no 'erro'
    and its amount is not infinite. *)
Lemma entry_receipt (img : Main.image) :
  match Main.receipt_of (Main.entry_of img) with
  | Some (Ok _) =>
    has (Main.entry_of img) "erro" = false
    /\ Main.infinite_amount (Main.entry_of img) = false
  | Some (Raise _) =>
    has (Main.entry_of img) "erro" = false
    /\ Main.infinite_amount (Main.entry_of img) = true
  | None =>
    has (Main.entry_of img) "erro" = true
    /\ Main.infinite_amount (Main.entry_of img) = false
  end.
Proof.
  unfold Main.entry_of. destruct (Main.loaded img) as [ocr |];
    [| split; reflexivity].
  pose proof (process_image_receipt ocr (Main.image_path img)
                (Main.t_extract img) (Main.t_main img)) as H.
  cbv zeta in H.
  set (d := Main.process_image ocr (Main.image_path img) (Main.t_extract img)
                               (Main.t_main img)) in *.
  destruct (Main.receipt_of d) as [[r | e] |].
  - destruct H as [He [Hv [Hn _]]]. split; [exact He |].
    unfold Main.infinite_amount. revert Hv. unfold get_or.
    destruct (get d "valor_total") as [[| s | [q | [|] | |]] |]; try reflexivity.
    intros E. injection E as E. elim Hn. symmetry. exact E.
  - destruct H as [He [_ Hv]]. split; [exact He |].
    unfold Main.infinite_amount. rewrite Hv. reflexivity.
  - split; [exact H |].
    (* an entry with 'erro' has no amount *)
    unfold Main.infinite_amount.
    destruct (process_image_typed ocr (Main.image_path img)
                (Main.t_extract img) (Main.t_main img)) as [_ [_ He]].
    fold d in He.
    assert (Hvt : get d "valor_total"
                  = get (Extractor.extract_data ocr (Some (Main.image_path img))
                                                (Main.t_extract img))
                        "valor_total").
    { unfold d, Main.process_image. cbv zeta. rewrite !get_set. reflexivity. }
    rewrite Hvt.
    unfold has in H. rewrite He in H.
    destruct (extract_data_cases ocr (Some (Main.image_path img))
                                 (Main.t_extract img))
      as [[erro [layout [_ ->]]] | [fields [raw [cleaned [layout [[Hf _] [_ E]]]]]]].
    + reflexivity.
    + exfalso. rewrite E, get_update in H.
      cbn [String.eqb Ascii.eqb Bool.eqb] in H.
      rewrite (ok_absent text_field fields "erro" Hf eq_refl eq_refl) in H.
      discriminate H.
Qed.

(** X29.  The counts of a run of [main]: every image gives one entry;
    the entries with and without 'erro' add up to the total; and the
    entries without 'erro' are the Receipts written for the chatbot plus
    the entries whose amount is infinite, which are dropped. *)
Theorem run_counts (image_files : list Main.image) :
  let comprovantes := Main.comprovantes_estruturados image_files in
  let metadata := Main.metadata_of comprovantes in
  Main.total_processados metadata = List.length image_files
  /\ Main.com_sucesso metadata + Main.com_erro metadata
     = Main.total_processados metadata
  /\ List.length (Main.chatbot_ready_data comprovantes)
     + List.length (filter Main.infinite_amount comprovantes)
     = Main.com_sucesso metadata.
Proof.
  cbv zeta. unfold Main.metadata_of, Main.comprovantes_estruturados.
  cbn [Main.total_processados Main.com_sucesso Main.com_erro].
  split; [apply length_map |]. split; [apply partition_length |].
  induction image_files as [|img rest IH]; [reflexivity |].
  cbn [map Main.chatbot_ready_data filter].
  pose proof (entry_receipt img) as H.
  destruct (Main.receipt_of (Main.entry_of img)) as [[r | e] |];
    destruct H as [-> ->]; cbn [negb List.length]; lia.
Qed.

End MainLoop.

